(** * mtcli: the typing session engine and the ASCII chart renderer

    A shallow embedding of [internal/test] (the session state machine and
    its metrics tracker) and of [internal/charts] (the chart renderer),
    followed by the properties of the specification; then of the
    stand-alone tracker of [internal/metrics], of the word wrapping of
    [internal/ui], of [splitLines] of the [show] command and of the target
    generator of [internal/text], each with its properties.

    Conventions of the embedding.
    - Go's [int] and [int64] are [Z]; an increment or decrement wraps at 64
      bits ([wrap64]).  [len] is [length].
    - A [rune] is its code point, a Go string its sequence of runes.
    - [time.Time] is the number of nanoseconds since the zero [Time]; the
      zero value is [0].  [time.Duration] is an [int64] count of
      nanoseconds, and [Time.Sub] saturates as the library does.
    - Every call of [time.Now] takes the next reading of a [Clock].
    - [float64] values are the exact rationals ([Q]) that the Go expression
      denotes; conversions [float64(n)] are [inject_Z].
    - A slice index out of range and the close of a closed channel are
      run-time panics: methods run in the monad [M], whose result is either
      [Done] or [Panic].
    - The goroutine started by [Session.Start] is the atomic event
      [timerExpires]; the [onUpdate] listener, which the program never
      installs, is left out.
    - The chart code runs in the monad [Try], whose panics are an index
      out of range and a [make] of negative length; the two [fmt.Sprintf]
      formats of the renderers are parameters.
    - A random source is the sequence of its draws, and [Intn(n)] takes the
      next draw modulo [n]. *)

From Stdlib Require Import ZArith QArith Qround Lqa Lia String.
From stdpp Require Import base list.

Local Open Scope Z_scope.

(* ------------------------------------------------------------------ *)
(** ** Machine integers, time *)

Definition wrap64 (z : Z) : Z := (z + 2 ^ 63) mod 2 ^ 64 - 2 ^ 63.
Definition incr (z : Z) : Z := wrap64 (z + 1).
Definition decr (z : Z) : Z := wrap64 (z - 1).

Definition rune := Z.

Definition Time := Z.
Definition Duration := Z.

Definition minDuration : Duration := - 2 ^ 63.
Definition maxDuration : Duration := 2 ^ 63 - 1.

Definition Millisecond : Duration := 1000000.
Definition Second : Duration := 1000 * Millisecond.
Definition Minute : Duration := 60 * Second.

Definition IsZero (t : Time) : bool := t =? 0.

(** [t.Sub(u)]: the difference, saturated to the range of [Duration]. *)
Definition Sub (t u : Time) : Duration :=
  Z.max minDuration (Z.min maxDuration (t - u)).

(** [d.Milliseconds()]: integer division truncating toward zero. *)
Definition Milliseconds (d : Duration) : Z := Z.quot d Millisecond.

(** [d.Minutes()]: [float64(d / Minute) + float64(d % Minute) / (60 * 1e9)]. *)
Definition Minutes (d : Duration) : Q :=
  (inject_Z (Z.quot d Minute) + inject_Z (Z.rem d Minute) / inject_Z 60000000000)%Q.

(** The readings that successive calls of [time.Now] return. *)
Definition Clock := nat -> Time.

(* ------------------------------------------------------------------ *)
(** ** Data model ([internal/test] types) *)

Definition Mode := string.
Definition ModeTimer : Mode := "timer"%string.
Definition ModeWords : Mode := "words"%string.
Definition ModeQuote : Mode := "quote"%string.

Inductive CharState := CharUnattempted | CharCorrect | CharIncorrect.

Definition CharState_eqb (a b : CharState) : bool :=
  match a, b with
  | CharUnattempted, CharUnattempted => true
  | CharCorrect, CharCorrect => true
  | CharIncorrect, CharIncorrect => true
  | _, _ => false
  end.

Record TargetMetadata := mkTargetMetadata {
  WordCount : Z;
  Seconds : Z;
  QuoteID : string;
  Source : string
}.

Record Target := mkTarget {
  Text : list rune;
  Target_Mode : Mode;
  Target_Metadata : TargetMetadata
}.

Record Sample := mkSample {
  TimeMs : Z;
  WPM : Q;
  RawWPM : Q
}.

Record SessionState := mkSessionState {
  State_Target : Target;
  TargetRunes : list rune;
  TypedRunes : list rune;
  CharStates : list CharState;
  StartedAt : Time;
  EndedAt : Time;
  Finished : bool;
  Aborted : bool
}.

Record SessionResult := mkSessionResult {
  Result_Mode : Mode;
  Result_StartedAt : Time;
  Result_Duration : Duration;
  Result_TargetLen : Z;
  Result_TotalTyped : Z;
  Result_CorrectChars : Z;
  Result_WPM : Q;
  Result_RawWPM : Q;
  Result_Accuracy : Q;
  Result_Samples : list Sample;
  Result_Metadata : TargetMetadata
}.

Record MetricsTracker := mkMetricsTracker {
  samples : list Sample;
  lastSampleTime : Time;
  sampleInterval : Duration;
  totalTyped : Z;
  correctChars : Z
}.

(** A [chan struct{}] that is only ever made and closed. *)
Inductive Chan := ChanNil | ChanOpen | ChanClosed.

Record Session := mkSession {
  state : SessionState;
  metrics : MetricsTracker;
  timerSeconds : Z;
  timerDone : Chan
}.

(** Field updates. *)
Definition set_TypedRunes (v : list rune) (st : SessionState) : SessionState :=
  mkSessionState (State_Target st) (TargetRunes st) v (CharStates st)
                 (StartedAt st) (EndedAt st) (Finished st) (Aborted st).
Definition set_CharStates (v : list CharState) (st : SessionState) : SessionState :=
  mkSessionState (State_Target st) (TargetRunes st) (TypedRunes st) v
                 (StartedAt st) (EndedAt st) (Finished st) (Aborted st).
Definition set_StartedAt (v : Time) (st : SessionState) : SessionState :=
  mkSessionState (State_Target st) (TargetRunes st) (TypedRunes st) (CharStates st)
                 v (EndedAt st) (Finished st) (Aborted st).
Definition set_EndedAt (v : Time) (st : SessionState) : SessionState :=
  mkSessionState (State_Target st) (TargetRunes st) (TypedRunes st) (CharStates st)
                 (StartedAt st) v (Finished st) (Aborted st).
Definition set_Finished (v : bool) (st : SessionState) : SessionState :=
  mkSessionState (State_Target st) (TargetRunes st) (TypedRunes st) (CharStates st)
                 (StartedAt st) (EndedAt st) v (Aborted st).
Definition set_Aborted (v : bool) (st : SessionState) : SessionState :=
  mkSessionState (State_Target st) (TargetRunes st) (TypedRunes st) (CharStates st)
                 (StartedAt st) (EndedAt st) (Finished st) v.

Definition set_samples (v : list Sample) (m : MetricsTracker) : MetricsTracker :=
  mkMetricsTracker v (lastSampleTime m) (sampleInterval m) (totalTyped m) (correctChars m).
Definition set_lastSampleTime (v : Time) (m : MetricsTracker) : MetricsTracker :=
  mkMetricsTracker (samples m) v (sampleInterval m) (totalTyped m) (correctChars m).
Definition set_totalTyped (v : Z) (m : MetricsTracker) : MetricsTracker :=
  mkMetricsTracker (samples m) (lastSampleTime m) (sampleInterval m) v (correctChars m).
Definition set_correctChars (v : Z) (m : MetricsTracker) : MetricsTracker :=
  mkMetricsTracker (samples m) (lastSampleTime m) (sampleInterval m) (totalTyped m) v.

Definition on_state (f : SessionState -> SessionState) (s : Session) : Session :=
  mkSession (f (state s)) (metrics s) (timerSeconds s) (timerDone s).
Definition on_metrics (f : MetricsTracker -> MetricsTracker) (s : Session) : Session :=
  mkSession (state s) (f (metrics s)) (timerSeconds s) (timerDone s).
Definition set_timerDone (c : Chan) (s : Session) : Session :=
  mkSession (state s) (metrics s) (timerSeconds s) c.

(** [KeyType] constants of the session ([iota]). *)
Definition KeyTypeRune : Z := 0.
Definition KeyTypeBackspace : Z := 1.
Definition KeyTypeEnter : Z := 2.
Definition KeyTypeEscape : Z := 3.
Definition KeyTypeCtrlC : Z := 4.
Definition KeyTypeUnknown : Z := 5.

(* ------------------------------------------------------------------ *)
(** ** The monad of session methods *)

Inductive Fault := IndexOutOfRange | CloseOfClosedChannel.

Inductive Res (A : Type) : Type :=
| Done (a : A)
| Panic (f : Fault).
Arguments Done {A} a.
Arguments Panic {A} f.

Record World := mkWorld {
  sess : Session;
  clock : Clock
}.

Definition M (A : Type) : Type := World -> Res (A * World).

Definition ret {A} (a : A) : M A := fun w => Done (a, w).
Definition bind {A B} (m : M A) (k : A -> M B) : M B :=
  fun w => match m w with
           | Done (a, w') => k a w'
           | Panic f => Panic f
           end.
Definition panic {A} (f : Fault) : M A := fun _ => Panic f.

Notation "x <- m ;; k" := (bind m (fun x => k))
  (at level 63, m at next level, right associativity).
Notation "m ;;; k" := (bind m (fun _ => k))
  (at level 63, right associativity).

Definition get : M Session := fun w => Done (sess w, w).
Definition modify (f : Session -> Session) : M unit :=
  fun w => Done (tt, mkWorld (f (sess w)) (clock w)).
Definition when (b : bool) (m : M unit) : M unit := if b then m else ret tt.

(** [time.Now()]: the next reading of the clock. *)
Definition timeNow : M Time :=
  fun w => Done (clock w O, mkWorld (sess w) (fun n => clock w (S n))).

(** [l[i]] and [l[i] = v] on a slice. *)
Definition index {A} (l : list A) (i : nat) : M A :=
  match l !! i with
  | Some a => ret a
  | None => panic IndexOutOfRange
  end.
Definition store {A} (l : list A) (i : nat) (v : A) : M (list A) :=
  if (i <? length l)%nat then ret (<[i := v]> l) else panic IndexOutOfRange.

(** [close(c)] for a channel known not to be nil. *)
Definition close (c : Chan) : M unit :=
  match c with
  | ChanOpen => modify (set_timerDone ChanClosed)
  | _ => panic CloseOfClosedChannel
  end.

(* ------------------------------------------------------------------ *)
(** ** The session ([Session] and its methods) *)

Definition NewMetricsTracker : MetricsTracker :=
  mkMetricsTracker [] 0 (500 * Millisecond) 0 0.

Record SessionOptions := mkSessionOptions {
  Opt_Target : Target;
  Opt_TimerSeconds : Z
}.

Definition NewSession (opts : SessionOptions) : Session :=
  let targetRunes := Text (Opt_Target opts) in
  let charStates := replicate (length targetRunes) CharUnattempted in
  mkSession
    (mkSessionState (Opt_Target opts) targetRunes [] charStates 0 0 false false)
    NewMetricsTracker
    (Opt_TimerSeconds opts)
    ChanNil.

Definition Start : M unit :=
  now <- timeNow ;;
  modify (on_state (set_StartedAt now)) ;;;
  s <- get ;;
  modify (on_metrics (set_lastSampleTime (StartedAt (state s)))) ;;;
  s <- get ;;
  modify (on_metrics (set_samples (samples (metrics s) ++ [mkSample 0 0 0]))) ;;;
  s <- get ;;
  when (String.eqb (Target_Mode (State_Target (state s))) ModeTimer
        && (0 <? timerSeconds s))
       (modify (set_timerDone ChanOpen)).

(** The goroutine of [Start], when its timer fires before [timerDone] is
    closed: it sets [Finished] and stamps [EndedAt]. *)
Definition timerExpires : M unit :=
  s <- get ;;
  match timerDone s with
  | ChanOpen =>
      modify (on_state (set_Finished true)) ;;;
      now <- timeNow ;;
      modify (on_state (set_EndedAt now))
  | _ => ret tt
  end.

Definition handleRune (r : rune) : M unit :=
  s <- get ;;
  let idx := length (TypedRunes (state s)) in
  if (length (TargetRunes (state s)) <=? idx)%nat then ret tt
  else
    modify (on_state (set_TypedRunes (TypedRunes (state s) ++ [r]))) ;;;
    modify (on_metrics (set_totalTyped (incr (totalTyped (metrics s))))) ;;;
    t <- index (TargetRunes (state s)) idx ;;
    if r =? t then
      cs <- store (CharStates (state s)) idx CharCorrect ;;
      modify (on_state (set_CharStates cs)) ;;;
      modify (on_metrics (set_correctChars (incr (correctChars (metrics s)))))
    else
      cs <- store (CharStates (state s)) idx CharIncorrect ;;
      modify (on_state (set_CharStates cs)).

Definition handleBackspace : M unit :=
  s <- get ;;
  if (length (TypedRunes (state s)) =? 0)%nat then ret tt
  else
    let idx := (length (TypedRunes (state s)) - 1)%nat in
    c <- index (CharStates (state s)) idx ;;
    when (CharState_eqb c CharCorrect)
         (modify (on_metrics (set_correctChars (decr (correctChars (metrics s)))))) ;;;
    cs <- store (CharStates (state s)) idx CharUnattempted ;;
    modify (on_state (set_CharStates cs)) ;;;
    modify (on_state (set_TypedRunes (take idx (TypedRunes (state s))))).

Definition calculateSample (s : Session) (elapsed : Duration) : Sample :=
  let minutes := Minutes elapsed in
  let minutes := if Qle_bool (1 # 1000) minutes then minutes else (1 # 1000)%Q in
  let rawWPM := ((inject_Z (totalTyped (metrics s)) / 5) / minutes)%Q in
  let netWPM := ((inject_Z (correctChars (metrics s)) / 5) / minutes)%Q in
  mkSample (Milliseconds elapsed) netWPM rawWPM.

Definition maybeTakeSample : M unit :=
  s <- get ;;
  if IsZero (StartedAt (state s)) then ret tt
  else
    now <- timeNow ;;
    if sampleInterval (metrics s) <=? Sub now (lastSampleTime (metrics s)) then
      let elapsed := Sub now (StartedAt (state s)) in
      let sample := calculateSample s elapsed in
      modify (on_metrics (set_samples (samples (metrics s) ++ [sample]))) ;;;
      modify (on_metrics (set_lastSampleTime now))
    else ret tt.

Definition TakeSample : M unit :=
  s <- get ;;
  if IsZero (StartedAt (state s)) || Finished (state s) || Aborted (state s)
  then ret tt
  else maybeTakeSample.

Definition Abort : M unit :=
  modify (on_state (set_Aborted true)) ;;;
  now <- timeNow ;;
  modify (on_state (set_EndedAt now)) ;;;
  s <- get ;;
  match timerDone s with
  | ChanNil => ret tt
  | c => close c
  end.

Definition finish : M unit :=
  modify (on_state (set_Finished true)) ;;;
  now <- timeNow ;;
  modify (on_state (set_EndedAt now)) ;;;
  s <- get ;;
  match timerDone s with
  | ChanNil => ret tt
  | c => close c
  end.

Definition HandleKey (keyType : Z) (r : rune) : M unit :=
  s <- get ;;
  if Finished (state s) || Aborted (state s) then ret tt
  else
    when (IsZero (StartedAt (state s))) Start ;;;
    (if keyType =? KeyTypeRune then handleRune r
     else if keyType =? KeyTypeBackspace then handleBackspace
     else ret tt) ;;;
    s <- get ;;
    when (negb (String.eqb (Target_Mode (State_Target (state s))) ModeTimer)
          && (length (TargetRunes (state s)) <=? length (TypedRunes (state s)))%nat)
         finish ;;;
    maybeTakeSample.

Definition IsFinished (s : Session) : bool :=
  Finished (state s) || Aborted (state s).

Definition IsAborted (s : Session) : bool := Aborted (state s).

Definition GetResult : M SessionResult :=
  s <- get ;;
  when (negb (IsZero (StartedAt (state s))) && negb (IsZero (EndedAt (state s))))
       (let elapsed := Sub (EndedAt (state s)) (StartedAt (state s)) in
        let finalSample := calculateSample s elapsed in
        modify (on_metrics (set_samples (samples (metrics s) ++ [finalSample])))) ;;;
  s <- get ;;
  let duration := Sub (EndedAt (state s)) (StartedAt (state s)) in
  let minutes := Minutes duration in
  let minutes := if Qle_bool (1 # 1000) minutes then minutes else (1 # 1000)%Q in
  let totalTyped := totalTyped (metrics s) in
  let correctChars := correctChars (metrics s) in
  let accuracy :=
    if 0 <? totalTyped
    then (inject_Z correctChars / inject_Z totalTyped * 100)%Q
    else 0%Q in
  let rawWPM := ((inject_Z totalTyped / 5) / minutes)%Q in
  let netWPM := ((inject_Z correctChars / 5) / minutes)%Q in
  ret (mkSessionResult
         (Target_Mode (State_Target (state s)))
         (StartedAt (state s))
         duration
         (Z.of_nat (length (TargetRunes (state s))))
         totalTyped
         correctChars
         netWPM
         rawWPM
         accuracy
         (samples (metrics s))
         (Target_Metadata (State_Target (state s)))).

(* ------------------------------------------------------------------ *)
(** ** Events and executions *)

Inductive Event :=
| EvKey (keyType : Z) (r : rune)   (* [HandleKey] *)
| EvTick                           (* [TakeSample], from the ticker *)
| EvAbort                          (* [Abort] *)
| EvTimer.                         (* the duration timer fires *)

Definition apply (e : Event) : M unit :=
  match e with
  | EvKey k r => HandleKey k r
  | EvTick => TakeSample
  | EvAbort => Abort
  | EvTimer => timerExpires
  end.

Fixpoint run (evs : list Event) : M unit :=
  match evs with
  | [] => ret tt
  | e :: evs' => apply e ;;; run evs'
  end.

Definition EvRune (r : rune) : Event := EvKey KeyTypeRune r.
Definition EvBackspace : Event := EvKey KeyTypeBackspace 0.

Definition fresh (opts : SessionOptions) (c : Clock) : World :=
  mkWorld (NewSession opts) c.

(** A clock that starts at one second and advances by [step] nanoseconds
    per reading. *)
Definition steady (step : Z) : Clock := fun n => Second + step * Z.of_nat n.

Definition words (text : list rune) : SessionOptions :=
  mkSessionOptions (mkTarget text ModeWords (mkTargetMetadata 0 0 EmptyString EmptyString)) 0.

(* ------------------------------------------------------------------ *)
(** ** Verdicts of a typed prefix *)

Definition verdict (r t : rune) : CharState :=
  if r =? t then CharCorrect else CharIncorrect.

Fixpoint judge (typed target : list rune) : list CharState :=
  match typed, target with
  | r :: typed', t :: target' => verdict r t :: judge typed' target'
  | _, _ => []
  end.

Fixpoint count_if (p : CharState -> bool) (cs : list CharState) : nat :=
  match cs with
  | [] => 0
  | c :: cs' => (if p c then 1 else 0) + count_if p cs'
  end.

Definition attempted (c : CharState) : bool := negb (CharState_eqb c CharUnattempted).
Definition is_correct (c : CharState) : bool := CharState_eqb c CharCorrect.

(** The verdict slice that a typed prefix determines. *)
Definition verdicts (typed target : list rune) : list CharState :=
  judge typed target
  ++ replicate (length target - length typed) CharUnattempted.

(* ------------------------------------------------------------------ *)
(** ** Invariants of the session *)

(** The buffers: typing never outruns the target and the verdicts are
    those of the typed prefix. *)
Definition shape (s : Session) : Prop :=
  (length (TypedRunes (state s)) <= length (TargetRunes (state s)))%nat
  /\ CharStates (state s) = verdicts (TypedRunes (state s)) (TargetRunes (state s)).

(** The counters, with a bound [k] on the keystrokes counted so far. *)
Definition counters (k : Z) (s : Session) : Prop :=
  correctChars (metrics s) = Z.of_nat (count_if is_correct (CharStates (state s)))
  /\ Z.of_nat (length (TypedRunes (state s))) <= totalTyped (metrics s)
  /\ totalTyped (metrics s) <= k.

(** The timer channel exists only in Timer mode. *)
Definition chan_ok (s : Session) : Prop :=
  Target_Mode (State_Target (state s)) <> ModeTimer -> timerDone s = ChanNil.

(** What the typing methods never touch. *)
Definition frame (s : Session) :=
  (State_Target (state s), TargetRunes (state s), StartedAt (state s),
   EndedAt (state s), Finished (state s), Aborted (state s),
   samples (metrics s), lastSampleTime (metrics s), sampleInterval (metrics s),
   timerSeconds s, timerDone s).

(** What only the typing methods touch. *)
Definition typing (s : Session) :=
  (State_Target (state s), TargetRunes (state s), TypedRunes (state s),
   CharStates (state s), totalTyped (metrics s), correctChars (metrics s)).

(** The session that [handleRune] leaves when there is room. *)
Definition rune_step (r : rune) (s : Session) : Session :=
  let idx := length (TypedRunes (state s)) in
  let v := verdict r (default 0 (TargetRunes (state s) !! idx)) in
  let c := correctChars (metrics s) in
  mkSession
    (set_CharStates (<[idx := v]> (CharStates (state s)))
       (set_TypedRunes (TypedRunes (state s) ++ [r]) (state s)))
    (set_correctChars (if CharState_eqb v CharCorrect then incr c else c)
       (set_totalTyped (incr (totalTyped (metrics s))) (metrics s)))
    (timerSeconds s) (timerDone s).

(** The session that [handleBackspace] leaves on a non-empty buffer. *)
Definition backspace_step (s : Session) : Session :=
  let idx := (length (TypedRunes (state s)) - 1)%nat in
  let v := default CharUnattempted (CharStates (state s) !! idx) in
  let c := correctChars (metrics s) in
  mkSession
    (set_TypedRunes (take idx (TypedRunes (state s)))
       (set_CharStates (<[idx := CharUnattempted]> (CharStates (state s))) (state s)))
    (set_correctChars (if CharState_eqb v CharCorrect then decr c else c) (metrics s))
    (timerSeconds s) (timerDone s).

(* ------------------------------------------------------------------ *)
(** ** Arithmetic of machine integers and durations *)

Lemma wrap64_small z : - 2 ^ 63 <= z < 2 ^ 63 -> wrap64 z = z.
Proof.
  intros H. unfold wrap64.
  rewrite Z.mod_small; lia.
Qed.

Lemma incr_small z : - 2 ^ 63 <= z < 2 ^ 63 - 1 -> incr z = z + 1.
Proof. intros H. unfold incr. apply wrap64_small. lia. Qed.

Lemma decr_small z : - 2 ^ 63 < z < 2 ^ 63 -> decr z = z - 1.
Proof. intros H. unfold decr. apply wrap64_small. lia. Qed.

Lemma Sub_mono t1 t2 u : t1 <= t2 -> Sub t1 u <= Sub t2 u.
Proof. unfold Sub, minDuration, maxDuration. lia. Qed.

Lemma Sub_self t : Sub t t = 0.
Proof. unfold Sub, minDuration, maxDuration. lia. Qed.

Lemma Milliseconds_mono d1 d2 :
  0 <= d1 <= d2 -> Milliseconds d1 <= Milliseconds d2.
Proof.
  intros H. unfold Milliseconds, Millisecond.
  rewrite !Z.quot_div_nonneg by lia.
  apply Z.div_le_mono; lia.
Qed.

(* ------------------------------------------------------------------ *)
(** ** Verdict lists *)

Lemma judge_length typed target :
  length (judge typed target) = Nat.min (length typed) (length target).
Proof.
  revert target. induction typed as [|r typed IH]; intros [|t target]; simpl; auto.
Qed.

Lemma judge_snoc typed target r t :
  target !! length typed = Some t ->
  judge (typed ++ [r]) target = judge typed target ++ [verdict r t].
Proof.
  revert target. induction typed as [|r0 typed IH]; intros [|t0 target] H;
    simpl in *; try discriminate.
  - congruence.
  - f_equal. apply IH. exact H.
Qed.

Lemma count_if_app p l1 l2 :
  count_if p (l1 ++ l2) = (count_if p l1 + count_if p l2)%nat.
Proof. induction l1 as [|c l1 IH]; simpl; [reflexivity | rewrite IH; lia]. Qed.

Lemma count_if_replicate p n c :
  count_if p (replicate n c) = if p c then n else 0%nat.
Proof.
  induction n as [|n IH]; simpl; [destruct (p c); reflexivity|].
  rewrite IH. destruct (p c); reflexivity.
Qed.

Lemma count_if_le p l : (count_if p l <= length l)%nat.
Proof. induction l as [|c l IH]; simpl; [lia | destruct (p c); lia]. Qed.

Lemma attempted_judge typed target :
  count_if attempted (judge typed target) = length (judge typed target).
Proof.
  revert target. induction typed as [|r typed IH]; intros [|t target]; simpl; auto.
  rewrite IH. unfold verdict. destruct (r =? t); reflexivity.
Qed.

Lemma attempted_verdicts typed target :
  (length typed <= length target)%nat ->
  count_if attempted (verdicts typed target) = length typed.
Proof.
  intros H. unfold verdicts.
  rewrite count_if_app, attempted_judge, judge_length, count_if_replicate.
  simpl. lia.
Qed.

Lemma verdicts_length typed target :
  (length typed <= length target)%nat ->
  length (verdicts typed target) = length target.
Proof.
  intros H. unfold verdicts.
  rewrite length_app, judge_length, length_replicate. lia.
Qed.

Lemma verdicts_snoc typed target r t :
  target !! length typed = Some t ->
  <[length typed := verdict r t]> (verdicts typed target)
  = verdicts (typed ++ [r]) target.
Proof.
  intros Ht.
  assert (Hlt : (length typed < length target)%nat)
    by (apply lookup_lt_is_Some; eauto).
  unfold verdicts.
  rewrite (judge_snoc _ _ _ _ Ht), length_app. simpl.
  rewrite insert_app_r_alt by (rewrite judge_length; lia).
  rewrite judge_length.
  replace (length typed - length typed `min` length target)%nat with 0%nat by lia.
  replace (length target - length typed)%nat
    with (S (length target - (length typed + 1)))%nat by lia.
  simpl. rewrite <- app_assoc. reflexivity.
Qed.

Lemma verdicts_lookup_last typed target r t :
  target !! length typed = Some t ->
  verdicts (typed ++ [r]) target !! length typed = Some (verdict r t).
Proof.
  intros Ht. rewrite <- (verdicts_snoc _ _ _ _ Ht).
  apply list_lookup_insert_eq.
  rewrite verdicts_length; [|apply Nat.lt_le_incl];
    apply lookup_lt_is_Some; eauto.
Qed.

Lemma verdicts_unsnoc typed target r t :
  target !! length typed = Some t ->
  <[length typed := CharUnattempted]> (verdicts (typed ++ [r]) target)
  = verdicts typed target.
Proof.
  intros Ht.
  assert (Hlt : (length typed < length target)%nat)
    by (apply lookup_lt_is_Some; eauto).
  rewrite <- (verdicts_snoc _ _ _ _ Ht), list_insert_insert_eq.
  apply list_insert_id.
  unfold verdicts. rewrite lookup_app_r by (rewrite judge_length; lia).
  apply lookup_replicate_2. rewrite judge_length. lia.
Qed.

Lemma count_correct_snoc typed target r t :
  target !! length typed = Some t ->
  count_if is_correct (verdicts (typed ++ [r]) target)
  = ((if is_correct (verdict r t) then 1 else 0)
     + count_if is_correct (verdicts typed target))%nat.
Proof.
  intros Ht.
  assert (Hlt : (length typed < length target)%nat)
    by (apply lookup_lt_is_Some; eauto).
  unfold verdicts.
  rewrite (judge_snoc _ _ _ _ Ht), !count_if_app, !count_if_replicate.
  simpl. lia.
Qed.

Lemma count_correct_typed typed target :
  (count_if is_correct (verdicts typed target) <= length typed)%nat.
Proof.
  unfold verdicts. rewrite count_if_app, count_if_replicate. simpl.
  pose proof (count_if_le is_correct (judge typed target)) as H.
  rewrite judge_length in H. lia.
Qed.

(* ------------------------------------------------------------------ *)
(** ** The methods as functions on worlds

    Under the invariants no method panics, and each is a function from
    worlds to worlds.  The lemmas of this section give these functions;
    the invariants are then proved on them. *)

Lemma bind_Done {A B} (m : M A) (k : A -> M B) w a w1 :
  m w = Done (a, w1) -> bind m k w = k a w1.
Proof. intros H. unfold bind. rewrite H. reflexivity. Qed.

Lemma bind_inv {A B} (m : M A) (k : A -> M B) w b w' :
  bind m k w = Done (b, w') ->
  exists a w1, m w = Done (a, w1) /\ k a w1 = Done (b, w').
Proof.
  unfold bind. destruct (m w) as [[a w1]|f]; [|discriminate].
  intros H. exists a, w1. auto.
Qed.

Definition tail (c : Clock) : Clock := fun n => c (S n).

Definition started (now : Time) (s : Session) : Session :=
  mkSession
    (set_StartedAt now (state s))
    (set_samples (samples (metrics s) ++ [mkSample 0 0 0])
       (set_lastSampleTime now (metrics s)))
    (timerSeconds s)
    (if String.eqb (Target_Mode (State_Target (state s))) ModeTimer
        && (0 <? timerSeconds s)
     then ChanOpen else timerDone s).

Definition start_w (w : World) : World :=
  if IsZero (StartedAt (state (sess w)))
  then mkWorld (started (clock w O) (sess w)) (tail (clock w))
  else w.

Definition key_step (k : Z) (r : rune) (s : Session) : Session :=
  if k =? KeyTypeRune then
    if (length (TargetRunes (state s)) <=? length (TypedRunes (state s)))%nat
    then s else rune_step r s
  else if k =? KeyTypeBackspace then
    if (length (TypedRunes (state s)) =? 0)%nat then s else backspace_step s
  else s.

Definition key_w (k : Z) (r : rune) (w : World) : World :=
  mkWorld (key_step k r (sess w)) (clock w).

Definition complete (s : Session) : bool :=
  negb (String.eqb (Target_Mode (State_Target (state s))) ModeTimer)
  && (length (TargetRunes (state s)) <=? length (TypedRunes (state s)))%nat.

Definition ended (now : Time) (s : Session) : Session :=
  on_state (set_EndedAt now) (on_state (set_Finished true) s).

Definition finish_w (w : World) : World :=
  if complete (sess w)
  then mkWorld (ended (clock w O) (sess w)) (tail (clock w))
  else w.

Definition due (now : Time) (s : Session) : bool :=
  sampleInterval (metrics s) <=? Sub now (lastSampleTime (metrics s)).

Definition sampled (now : Time) (s : Session) : Session :=
  on_metrics (set_lastSampleTime now)
    (on_metrics
       (set_samples (samples (metrics s)
                     ++ [calculateSample s (Sub now (StartedAt (state s)))]))
       s).

Definition sample_w (w : World) : World :=
  if IsZero (StartedAt (state (sess w))) then w
  else if due (clock w O) (sess w)
       then mkWorld (sampled (clock w O) (sess w)) (tail (clock w))
       else mkWorld (sess w) (tail (clock w)).

Lemma handleRune_full r w :
  (length (TargetRunes (state (sess w))) <= length (TypedRunes (state (sess w))))%nat ->
  handleRune r w = Done (tt, w).
Proof.
  intros H. unfold handleRune, bind, get. simpl.
  apply Nat.leb_le in H. rewrite H. reflexivity.
Qed.

Lemma handleRune_room r s c :
  (length (TypedRunes (state s)) < length (TargetRunes (state s)))%nat ->
  length (CharStates (state s)) = length (TargetRunes (state s)) ->
  handleRune r (mkWorld s c) = Done (tt, mkWorld (rune_step r s) c).
Proof.
  intros Hroom Hlen.
  destruct s as [[tg target typed cs st en fin ab] [smp lst itv tot cor] secs td].
  simpl in *.
  destruct (lookup_lt_is_Some_2 target (length typed) Hroom) as [t Ht].
  assert (Hlt : (length typed <? length cs)%nat = true)
    by (apply Nat.ltb_lt; lia).
  unfold handleRune, rune_step, bind, get, index, store, modify, ret, verdict.
  cbn [sess state metrics TargetRunes TypedRunes CharStates].
  unfold rune in *. rewrite !Ht.
  destruct (Nat.leb_spec (length target) (length typed)) as [Hle|_]; [lia|].
  cbn [from_option id].
  destruct (r =? t); rewrite Hlt; reflexivity.
Qed.

Lemma handleBackspace_empty w :
  TypedRunes (state (sess w)) = [] -> handleBackspace w = Done (tt, w).
Proof.
  intros H. unfold handleBackspace, bind, get. simpl. rewrite H. reflexivity.
Qed.

Lemma handleBackspace_nonempty s c :
  TypedRunes (state s) <> [] ->
  (length (TypedRunes (state s)) <= length (CharStates (state s)))%nat ->
  handleBackspace (mkWorld s c) = Done (tt, mkWorld (backspace_step s) c).
Proof.
  intros Hne Hlen.
  destruct s as [[tg target typed cs st en fin ab] [smp lst itv tot cor] secs td].
  simpl in *.
  assert (Hpos : (0 < length typed)%nat) by (destruct typed; simpl; [congruence|lia]).
  assert (Hidx : (length typed - 1 < length cs)%nat) by lia.
  destruct (lookup_lt_is_Some_2 cs _ Hidx) as [v Hv].
  unfold handleBackspace, backspace_step, bind, get, index, store, modify, ret, when.
  cbn [sess state metrics TargetRunes TypedRunes CharStates].
  rewrite !Hv.
  destruct (Nat.eqb_spec (length typed) 0) as [H0|_]; [lia|].
  apply Nat.ltb_lt in Hidx. cbn [from_option id].
  destruct (CharState_eqb v CharCorrect); rewrite Hidx; reflexivity.
Qed.

Lemma Start_eq w :
  Start w = Done (tt, mkWorld (started (clock w O) (sess w)) (tail (clock w))).
Proof.
  destruct w as [[[tg target typed cs st en fin ab] [smp lst itv tot cor] secs td] c].
  unfold Start, started, bind, get, modify, timeNow, when, ret. simpl.
  destruct (String.eqb (Target_Mode tg) ModeTimer && (0 <? secs)); reflexivity.
Qed.

Lemma when_Start_eq w :
  when (IsZero (StartedAt (state (sess w)))) Start w = Done (tt, start_w w).
Proof.
  unfold when, start_w.
  destruct (IsZero (StartedAt (state (sess w)))); [apply Start_eq | reflexivity].
Qed.

Lemma key_eq k r w :
  shape (sess w) ->
  (if k =? KeyTypeRune then handleRune r
   else if k =? KeyTypeBackspace then handleBackspace
   else ret tt) w = Done (tt, key_w k r w).
Proof.
  intros [Hle Hcs]. destruct w as [s c]. unfold key_w, key_step. simpl in *.
  assert (Hlen : length (CharStates (state s)) = length (TargetRunes (state s)))
    by (rewrite Hcs; apply verdicts_length; exact Hle).
  destruct (k =? KeyTypeRune).
  - destruct (Nat.leb_spec (length (TargetRunes (state s)))
                           (length (TypedRunes (state s)))) as [H|H].
    + apply handleRune_full. exact H.
    + apply handleRune_room; assumption.
  - destruct (k =? KeyTypeBackspace); [|reflexivity].
    destruct (Nat.eqb_spec (length (TypedRunes (state s))) 0) as [H|H].
    + apply handleBackspace_empty. simpl.
      destruct (TypedRunes (state s)); [reflexivity | discriminate].
    + apply handleBackspace_nonempty; [|lia].
      intros E. rewrite E in H. apply H. reflexivity.
Qed.

Lemma finish_eq w :
  timerDone (sess w) = ChanNil ->
  finish w = Done (tt, mkWorld (ended (clock w O) (sess w)) (tail (clock w))).
Proof.
  destruct w as [[[tg target typed cs st en fin ab] [smp lst itv tot cor] secs td] c].
  simpl. intros ->. reflexivity.
Qed.

Lemma when_finish_eq w :
  chan_ok (sess w) ->
  (s <- get ;; when (complete s) finish) w = Done (tt, finish_w w).
Proof.
  intros Hok. unfold bind at 1, get, finish_w. simpl.
  destruct (complete (sess w)) eqn:Hc; [|reflexivity].
  simpl. apply finish_eq. apply Hok.
  unfold complete in Hc. apply andb_prop in Hc as [Hm _].
  intros E. rewrite E in Hm. discriminate.
Qed.

Lemma maybeTakeSample_eq w : maybeTakeSample w = Done (tt, sample_w w).
Proof.
  destruct w as [[[tg target typed cs st en fin ab] [smp lst itv tot cor] secs td] c].
  unfold maybeTakeSample, sample_w, due, bind, get, timeNow, modify, ret.
  cbn [sess clock state metrics StartedAt lastSampleTime sampleInterval samples].
  destruct (IsZero st); [reflexivity|].
  cbn [sess clock].
  destruct (itv <=? Sub (c O) lst); reflexivity.
Qed.

(* ------------------------------------------------------------------ *)
(** ** Preservation of the invariants *)

Lemma shape_typing s s' : typing s = typing s' -> shape s -> shape s'.
Proof. unfold typing, shape. intros E. injection E as _ -> -> -> _ _. auto. Qed.

Lemma counters_typing k s s' : typing s = typing s' -> counters k s -> counters k s'.
Proof. unfold typing, counters. intros E. injection E as _ _ -> -> -> ->. auto. Qed.

Lemma counters_weaken k k' s : k <= k' -> counters k s -> counters k' s.
Proof. unfold counters. intros Hk (H1 & H2 & H3). repeat split; auto. lia. Qed.

Lemma shape_new opts : shape (NewSession opts).
Proof.
  unfold shape, NewSession, verdicts. simpl. split; [lia|].
  rewrite Nat.sub_0_r. destruct (Text (Opt_Target opts)); reflexivity.
Qed.

Lemma counters_new opts : counters 0 (NewSession opts).
Proof.
  unfold counters, NewSession. simpl.
  rewrite count_if_replicate. simpl. lia.
Qed.

Lemma shape_rune_step r s :
  shape s ->
  (length (TypedRunes (state s)) < length (TargetRunes (state s)))%nat ->
  shape (rune_step r s).
Proof.
  intros [Hle Hcs] Hroom.
  destruct (lookup_lt_is_Some_2 _ _ Hroom) as [t Ht].
  unfold shape, rune_step. simpl. unfold rune in *. rewrite Ht, Hcs. simpl.
  split; [rewrite length_app; simpl; lia|].
  apply verdicts_snoc. exact Ht.
Qed.

Lemma counters_rune_step k r s :
  shape s -> counters k s -> k < 2 ^ 63 - 1 ->
  (length (TypedRunes (state s)) < length (TargetRunes (state s)))%nat ->
  counters (k + 1) (rune_step r s).
Proof.
  intros [Hle Hcs] (Hc & Hty & Hk) Hbound Hroom.
  destruct (lookup_lt_is_Some_2 _ _ Hroom) as [t Ht].
  pose proof (count_correct_typed (TypedRunes (state s)) (TargetRunes (state s))) as Hcc.
  rewrite <- Hcs in Hcc.
  unfold counters, rune_step. simpl. unfold rune in *. rewrite Ht, Hcs. simpl.
  rewrite (verdicts_snoc _ _ _ _ Ht), (count_correct_snoc _ _ _ _ Ht), <- Hcs.
  rewrite length_app. simpl.
  rewrite (incr_small (totalTyped (metrics s))) by lia.
  change (CharState_eqb (verdict r t) CharCorrect) with (is_correct (verdict r t)).
  destruct (is_correct (verdict r t)).
  - rewrite incr_small by lia. lia.
  - lia.
Qed.

Lemma nonempty_snoc {A} (l : list A) :
  l <> [] -> exists l' a, l = l' ++ [a].
Proof.
  destruct l as [|x l] using rev_ind; [congruence|]. eauto.
Qed.

Lemma shape_backspace_step s :
  shape s -> TypedRunes (state s) <> [] -> shape (backspace_step s).
Proof.
  intros [Hle Hcs] Hne.
  destruct (nonempty_snoc _ Hne) as (typed & r & E).
  unfold shape, backspace_step. simpl. rewrite Hcs, E in *.
  rewrite length_app in *. simpl in *.
  replace (length typed + 1 - 1)%nat with (length typed) by lia.
  rewrite take_app_length.
  split; [lia|].
  assert (Hlt : (length typed < length (TargetRunes (state s)))%nat) by lia.
  destruct (lookup_lt_is_Some_2 _ _ Hlt) as [t Ht].
  apply (verdicts_unsnoc _ _ _ _ Ht).
Qed.

Lemma counters_backspace_step k s :
  shape s -> counters k s -> k < 2 ^ 63 ->
  TypedRunes (state s) <> [] -> counters k (backspace_step s).
Proof.
  intros [Hle Hcs] (Hc & Hty & Hk) Hbound Hne.
  destruct (nonempty_snoc _ Hne) as (typed & r & E).
  unfold counters, backspace_step. simpl. rewrite Hc, Hcs, E in *.
  rewrite length_app in *. simpl in *.
  replace (length typed + 1 - 1)%nat with (length typed) by lia.
  rewrite take_app_length.
  assert (Hlt : (length typed < length (TargetRunes (state s)))%nat) by lia.
  destruct (lookup_lt_is_Some_2 _ _ Hlt) as [t Ht].
  pose proof (count_correct_typed typed (TargetRunes (state s))) as Hcc.
  rewrite (verdicts_lookup_last _ _ _ _ Ht), (verdicts_unsnoc _ _ _ _ Ht).
  rewrite (count_correct_snoc _ _ _ _ Ht). simpl.
  change (CharState_eqb (verdict r t) CharCorrect) with (is_correct (verdict r t)).
  destruct (is_correct (verdict r t)).
  - rewrite decr_small by lia. lia.
  - lia.
Qed.

Lemma typing_key_step_target k r s :
  State_Target (state (key_step k r s)) = State_Target (state s)
  /\ TargetRunes (state (key_step k r s)) = TargetRunes (state s).
Proof.
  unfold key_step.
  repeat match goal with |- context [if ?b then _ else _] => destruct b end;
    auto.
Qed.

Lemma frame_key_step k r s : frame (key_step k r s) = frame s.
Proof.
  unfold key_step.
  repeat match goal with |- context [if ?b then _ else _] => destruct b end;
    reflexivity.
Qed.

Lemma shape_key_step k r s : shape s -> shape (key_step k r s).
Proof.
  intros H. unfold key_step.
  destruct (k =? KeyTypeRune).
  - destruct (Nat.leb_spec (length (TargetRunes (state s)))
                           (length (TypedRunes (state s)))); auto.
    apply shape_rune_step; auto.
  - destruct (k =? KeyTypeBackspace); auto.
    destruct (Nat.eqb_spec (length (TypedRunes (state s))) 0); auto.
    apply shape_backspace_step; auto.
    intros E. rewrite E in *. simpl in *. congruence.
Qed.

Lemma counters_key_step n k r s :
  shape s -> counters n s -> n < 2 ^ 63 - 1 -> counters (n + 1) (key_step k r s).
Proof.
  intros Hs Hc Hn. unfold key_step.
  destruct (k =? KeyTypeRune).
  - destruct (Nat.leb_spec (length (TargetRunes (state s)))
                           (length (TypedRunes (state s)))).
    + apply (counters_weaken n); [lia | auto].
    + apply counters_rune_step; auto.
  - apply (counters_weaken n); [lia|].
    destruct (k =? KeyTypeBackspace); auto.
    destruct (Nat.eqb_spec (length (TypedRunes (state s))) 0); auto.
    apply counters_backspace_step; auto; [lia|].
    intros E. rewrite E in *. simpl in *. congruence.
Qed.

Lemma typing_start_w w : typing (sess (start_w w)) = typing (sess w).
Proof. unfold start_w. destruct (IsZero _); reflexivity. Qed.

Lemma typing_finish_w w : typing (sess (finish_w w)) = typing (sess w).
Proof. unfold finish_w. destruct (complete _); reflexivity. Qed.

Lemma typing_sample_w w : typing (sess (sample_w w)) = typing (sess w).
Proof.
  unfold sample_w. destruct (IsZero _); [reflexivity|].
  destruct (due _ _); reflexivity.
Qed.

Lemma chan_ok_new opts : chan_ok (NewSession opts).
Proof. intros _. reflexivity. Qed.

Lemma chan_ok_start_w w : chan_ok (sess w) -> chan_ok (sess (start_w w)).
Proof.
  unfold start_w, chan_ok. destruct (IsZero _); [|auto].
  simpl. intros Hok Hm.
  destruct (String.eqb_spec (Target_Mode (State_Target (state (sess w)))) ModeTimer);
    [contradiction|]. simpl. auto.
Qed.

Lemma chan_ok_frame s s' :
  frame s = frame s' -> chan_ok s -> chan_ok s'.
Proof.
  unfold frame, chan_ok. intros E.
  injection E as -> _ _ _ _ _ _ _ _ _ ->. auto.
Qed.

Lemma chan_ok_finish_w w : chan_ok (sess w) -> chan_ok (sess (finish_w w)).
Proof. unfold finish_w. destruct (complete _); auto. Qed.

Lemma chan_ok_sample_w w : chan_ok (sess w) -> chan_ok (sess (sample_w w)).
Proof.
  unfold sample_w. destruct (IsZero _); auto. destruct (due _ _); auto.
Qed.

(** [HandleKey] as a function on worlds. *)
Definition key_world (k : Z) (r : rune) (w : World) : World :=
  if IsFinished (sess w) then w
  else sample_w (finish_w (key_w k r (start_w w))).

Lemma HandleKey_terminal k r w :
  IsFinished (sess w) = true -> HandleKey k r w = Done (tt, w).
Proof.
  unfold IsFinished, HandleKey, bind, get. intros ->. reflexivity.
Qed.

Lemma HandleKey_eq k r w :
  shape (sess w) -> chan_ok (sess w) ->
  HandleKey k r w = Done (tt, key_world k r w).
Proof.
  intros Hs Hok. unfold key_world.
  destruct (IsFinished (sess w)) eqn:Hfin; [apply HandleKey_terminal; exact Hfin|].
  unfold HandleKey. unfold bind at 1, get.
  unfold IsFinished in Hfin. rewrite Hfin.
  rewrite (bind_Done _ _ _ _ _ (when_Start_eq w)).
  assert (Hs1 : shape (sess (start_w w)))
    by (apply (shape_typing (sess w)); [symmetry; apply typing_start_w | exact Hs]).
  rewrite (bind_Done _ _ _ _ _ (key_eq k r _ Hs1)).
  assert (Hok2 : chan_ok (sess (key_w k r (start_w w)))).
  { apply (chan_ok_frame (sess (start_w w)));
      [symmetry; apply frame_key_step | apply chan_ok_start_w; exact Hok]. }
  pose proof (when_finish_eq _ Hok2) as Hf.
  unfold bind at 1. unfold bind at 1 in Hf. unfold get in *.
  unfold complete in Hf. unfold bind at 1.
  destruct (when _ finish (key_w k r (start_w w))) as [[[] w3]|f] eqn:Hw;
    [|discriminate].
  injection Hf as ->. apply maybeTakeSample_eq.
Qed.

(** The other events as functions on worlds. *)
Definition tick_w (w : World) : World :=
  if IsZero (StartedAt (state (sess w)))
     || Finished (state (sess w)) || Aborted (state (sess w))
  then w else sample_w w.

Definition timer_w (w : World) : World :=
  match timerDone (sess w) with
  | ChanOpen =>
      mkWorld (on_state (set_EndedAt (clock w O))
                 (on_state (set_Finished true) (sess w)))
              (tail (clock w))
  | _ => w
  end.

Definition abort_w (w : World) : World :=
  let s := on_state (set_EndedAt (clock w O))
             (on_state (set_Aborted true) (sess w)) in
  mkWorld (match timerDone s with
           | ChanNil => s
           | _ => set_timerDone ChanClosed s
           end)
          (tail (clock w)).

Definition event_w (e : Event) (w : World) : World :=
  match e with
  | EvKey k r => key_world k r w
  | EvTick => tick_w w
  | EvAbort => abort_w w
  | EvTimer => timer_w w
  end.

Lemma TakeSample_eq w : TakeSample w = Done (tt, tick_w w).
Proof.
  unfold TakeSample, tick_w, bind, get.
  destruct (_ || _ || _); [reflexivity | apply maybeTakeSample_eq].
Qed.

Lemma timerExpires_eq w : timerExpires w = Done (tt, timer_w w).
Proof.
  destruct w as [[[tg target typed cs st en fin ab] [smp lst itv tot cor] secs td] c].
  unfold timerExpires, timer_w, bind, get. simpl. destruct td; reflexivity.
Qed.

Lemma Abort_eq w :
  timerDone (sess w) <> ChanClosed -> Abort w = Done (tt, abort_w w).
Proof.
  destruct w as [[[tg target typed cs st en fin ab] [smp lst itv tot cor] secs td] c].
  simpl. intros H. destruct td; [reflexivity | reflexivity | congruence].
Qed.

Lemma Abort_closed w :
  timerDone (sess w) = ChanClosed -> Abort w = Panic CloseOfClosedChannel.
Proof.
  destruct w as [[[tg target typed cs st en fin ab] [smp lst itv tot cor] secs td] c].
  simpl. intros ->. reflexivity.
Qed.

(** The correct-counter is a machine integer. *)
Definition ranged (s : Session) : Prop :=
  - 2 ^ 63 <= correctChars (metrics s) < 2 ^ 63.

Lemma wrap64_range z : - 2 ^ 63 <= wrap64 z < 2 ^ 63.
Proof.
  unfold wrap64.
  pose proof (Z.mod_pos_bound (z + 2 ^ 63) (2 ^ 64) ltac:(lia)). lia.
Qed.

Lemma ranged_typing s s' : typing s = typing s' -> ranged s -> ranged s'.
Proof. unfold typing, ranged. intros E. injection E as _ _ _ _ _ ->. auto. Qed.

Lemma ranged_key_step k r s : ranged s -> ranged (key_step k r s).
Proof.
  unfold ranged, key_step, rune_step, backspace_step, incr, decr. intros H.
  repeat match goal with |- context [if ?b then _ else _] => destruct b end;
    cbn [metrics correctChars set_correctChars set_totalTyped];
    first [exact H | apply wrap64_range].
Qed.

(** The invariant of every reachable session. *)
Definition inv (s : Session) : Prop := shape s /\ chan_ok s /\ ranged s.

Lemma inv_new opts : inv (NewSession opts).
Proof.
  split; [apply shape_new|]. split; [apply chan_ok_new|].
  unfold ranged. simpl. lia.
Qed.

Lemma typing_key_world k r w :
  typing (sess (key_world k r w)) =
  typing (if IsFinished (sess w) then sess w else key_step k r (sess (start_w w))).
Proof.
  unfold key_world. destruct (IsFinished (sess w)); [reflexivity|].
  rewrite typing_sample_w, typing_finish_w. reflexivity.
Qed.

Lemma typing_key_step_start k r w :
  typing (key_step k r (sess (start_w w))) = typing (key_step k r (sess w)).
Proof.
  unfold start_w. destruct (IsZero _); [|reflexivity].
  unfold key_step. simpl.
  repeat match goal with |- context [if ?b then _ else _] => destruct b end;
    reflexivity.
Qed.

Lemma typing_tick_w w : typing (sess (tick_w w)) = typing (sess w).
Proof. unfold tick_w. destruct (_ || _ || _); [reflexivity | apply typing_sample_w]. Qed.

Lemma typing_timer_w w : typing (sess (timer_w w)) = typing (sess w).
Proof. unfold timer_w. destruct (timerDone (sess w)); reflexivity. Qed.

Lemma typing_abort_w w : typing (sess (abort_w w)) = typing (sess w).
Proof. unfold abort_w. simpl. destruct (timerDone (sess w)); reflexivity. Qed.

Lemma inv_key_world k r w : inv (sess w) -> inv (sess (key_world k r w)).
Proof.
  intros (Hs & Hok & Hr). unfold key_world.
  destruct (IsFinished (sess w)); [exact (conj Hs (conj Hok Hr))|].
  assert (T : typing (key_step k r (sess (start_w w)))
              = typing (sess (sample_w (finish_w (key_w k r (start_w w)))))).
  { rewrite typing_sample_w, typing_finish_w. reflexivity. }
  assert (Hs1 : shape (sess (start_w w)))
    by (apply (shape_typing (sess w)); [symmetry; apply typing_start_w | exact Hs]).
  assert (Hr1 : ranged (sess (start_w w)))
    by (apply (ranged_typing (sess w)); [symmetry; apply typing_start_w | exact Hr]).
  split; [|split].
  - apply (shape_typing _ _ T). apply shape_key_step. exact Hs1.
  - apply chan_ok_sample_w, chan_ok_finish_w.
    apply (chan_ok_frame (sess (start_w w)));
      [symmetry; apply frame_key_step | apply chan_ok_start_w; exact Hok].
  - apply (ranged_typing _ _ T). apply ranged_key_step. exact Hr1.
Qed.

Lemma chan_ok_tick_w w : chan_ok (sess w) -> chan_ok (sess (tick_w w)).
Proof. unfold tick_w. destruct (_ || _ || _); auto using chan_ok_sample_w. Qed.

Lemma chan_ok_timer_w w : chan_ok (sess w) -> chan_ok (sess (timer_w w)).
Proof.
  unfold timer_w, chan_ok. destruct (timerDone (sess w)) eqn:E;
    simpl; intros H Hm; rewrite ?E; auto.
Qed.

Lemma chan_ok_abort_w w : chan_ok (sess w) -> chan_ok (sess (abort_w w)).
Proof.
  unfold abort_w, chan_ok. simpl. intros H.
  destruct (timerDone (sess w)) eqn:E; simpl; intros Hm;
    [exact E | discriminate (H Hm) | discriminate (H Hm)].
Qed.

Lemma inv_event_w e w : inv (sess w) -> inv (sess (event_w e w)).
Proof.
  destruct e as [k r| | |]; simpl; [apply inv_key_world| | |];
    intros (Hs & Hok & Hr); (split; [|split]).
  - apply (shape_typing (sess w)); [symmetry; apply typing_tick_w | exact Hs].
  - apply chan_ok_tick_w, Hok.
  - apply (ranged_typing (sess w)); [symmetry; apply typing_tick_w | exact Hr].
  - apply (shape_typing (sess w)); [symmetry; apply typing_abort_w | exact Hs].
  - apply chan_ok_abort_w, Hok.
  - apply (ranged_typing (sess w)); [symmetry; apply typing_abort_w | exact Hr].
  - apply (shape_typing (sess w)); [symmetry; apply typing_timer_w | exact Hs].
  - apply chan_ok_timer_w, Hok.
  - apply (ranged_typing (sess w)); [symmetry; apply typing_timer_w | exact Hr].
Qed.

(** Under the invariant an event either runs to [event_w] or is an
    [Abort] that closes the closed channel. *)
Lemma apply_cases e w :
  inv (sess w) ->
  apply e w = Done (tt, event_w e w)
  \/ (e = EvAbort /\ timerDone (sess w) = ChanClosed
      /\ apply e w = Panic CloseOfClosedChannel).
Proof.
  intros (Hs & Hok & _). destruct e as [k r| | |]; simpl.
  - left. apply HandleKey_eq; assumption.
  - left. apply TakeSample_eq.
  - destruct (timerDone (sess w)) eqn:E.
    + left. apply Abort_eq. congruence.
    + left. apply Abort_eq. congruence.
    + right. auto using Abort_closed.
  - left. apply timerExpires_eq.
Qed.

Lemma apply_Done e w w' :
  inv (sess w) -> apply e w = Done (tt, w') -> w' = event_w e w.
Proof.
  intros Hi H. destruct (apply_cases e w Hi) as [E|(_ & _ & E)];
    rewrite E in H; congruence.
Qed.

Lemma run_cons e evs w :
  run (e :: evs) w = match apply e w with
                     | Done (_, w1) => run evs w1
                     | Panic f => Panic f
                     end.
Proof. reflexivity. Qed.

Lemma run_inv evs : forall w w',
  inv (sess w) -> run evs w = Done (tt, w') -> inv (sess w').
Proof.
  induction evs as [|e evs IH]; intros w w' Hi H.
  - injection H as <-. exact Hi.
  - rewrite run_cons in H.
    destruct (apply e w) as [[[] w1]|f] eqn:E; [|discriminate].
    apply (IH w1 w'); [|exact H].
    rewrite (apply_Done _ _ _ Hi E). apply inv_event_w, Hi.
Qed.

Lemma run_no_index_fault evs : forall w,
  inv (sess w) -> run evs w <> Panic IndexOutOfRange.
Proof.
  induction evs as [|e evs IH]; intros w Hi; [discriminate|].
  rewrite run_cons.
  destruct (apply_cases e w Hi) as [E|(_ & _ & E)]; rewrite E; [|discriminate].
  apply IH, inv_event_w, Hi.
Qed.

(** The worlds that executions of a fresh session reach. *)
Definition reachable (w : World) : Prop :=
  exists opts c evs, run evs (fresh opts c) = Done (tt, w).

Lemma reachable_inv w : reachable w -> inv (sess w).
Proof.
  intros (opts & c & evs & H).
  apply (run_inv evs (fresh opts c)); [apply inv_new | exact H].
Qed.

(* ------------------------------------------------------------------ *)
(** ** Typing and erasing *)

(** The two editing events of the claims about the buffers. *)
Inductive Edit := Rune (r : rune) | Backspace.

Definition edit_event (e : Edit) : Event :=
  match e with
  | Rune r => EvRune r
  | Backspace => EvBackspace
  end.

Definition edit_method (e : Edit) : M unit :=
  match e with
  | Rune r => handleRune r
  | Backspace => handleBackspace
  end.

Fixpoint edits (es : list Edit) : M unit :=
  match es with
  | [] => ret tt
  | e :: es' => edit_method e ;;; edits es'
  end.

Definition no_abort (e : Event) : bool :=
  match e with EvAbort => false | _ => true end.

Lemma run_total evs : forall w,
  inv (sess w) -> forallb no_abort evs = true ->
  exists w', run evs w = Done (tt, w').
Proof.
  induction evs as [|e evs IH]; intros w Hi Hna.
  - exists w. reflexivity.
  - simpl in Hna. apply andb_prop in Hna as [He Hna].
    rewrite run_cons.
    destruct (apply_cases e w Hi) as [E|(-> & _)]; [|discriminate].
    rewrite E. apply IH; [apply inv_event_w, Hi | exact Hna].
Qed.

Lemma no_abort_edits es : forallb no_abort (map edit_event es) = true.
Proof. induction es as [|[r|] es IH]; simpl; auto. Qed.

Lemma edit_method_eq e w :
  shape (sess w) ->
  exists k r, edit_method e w = Done (tt, key_w k r w).
Proof.
  intros Hs. destruct e as [r|].
  - exists KeyTypeRune, r. apply (key_eq KeyTypeRune r w Hs).
  - exists KeyTypeBackspace, 0. apply (key_eq KeyTypeBackspace 0 w Hs).
Qed.

Lemma edits_total es : forall w,
  shape (sess w) ->
  exists w', edits es w = Done (tt, w') /\ shape (sess w').
Proof.
  induction es as [|e es IH]; intros w Hs.
  - exists w. split; [reflexivity | exact Hs].
  - destruct (edit_method_eq e w Hs) as (k & r & E).
    simpl. rewrite (bind_Done _ _ _ _ _ E).
    apply IH. apply shape_key_step, Hs.
Qed.

Lemma shape_counts s :
  shape s ->
  length (TypedRunes (state s)) = count_if attempted (CharStates (state s))
  /\ length (CharStates (state s)) = length (TargetRunes (state s)).
Proof.
  intros [Hle Hcs]. rewrite Hcs. split.
  - symmetry. apply attempted_verdicts, Hle.
  - apply verdicts_length, Hle.
Qed.

(** C4. For every sequence of rune and backspace events applied to a fresh
    session -- delivered through [HandleKey], or as direct calls of
    [handleRune] and [handleBackspace] -- the run completes, the number of
    typed runes equals the number of verdicts that are not Unattempted, and
    there is one verdict per target rune.  Every prefix of a sequence is a
    sequence, so this holds after every event. *)
Theorem C4_typed_matches_verdicts (opts : SessionOptions) (c : Clock) (es : list Edit) :
  (exists w',
      run (map edit_event es) (fresh opts c) = Done (tt, w')
      /\ length (TypedRunes (state (sess w')))
         = count_if attempted (CharStates (state (sess w')))
      /\ length (CharStates (state (sess w')))
         = length (TargetRunes (state (sess w'))))
  /\ (exists w',
      edits es (fresh opts c) = Done (tt, w')
      /\ length (TypedRunes (state (sess w')))
         = count_if attempted (CharStates (state (sess w')))
      /\ length (CharStates (state (sess w')))
         = length (TargetRunes (state (sess w')))).
Proof.
  split.
  - destruct (run_total (map edit_event es) (fresh opts c)
                (inv_new opts) (no_abort_edits es)) as [w' E].
    exists w'. split; [exact E|].
    apply shape_counts.
    apply (run_inv _ (fresh opts c) _ (inv_new opts) E).
  - destruct (edits_total es (fresh opts c) (shape_new opts)) as (w' & E & Hs).
    exists w'. split; [exact E | apply shape_counts, Hs].
Qed.

Lemma decr_incr c : - 2 ^ 63 <= c < 2 ^ 63 -> decr (incr c) = c.
Proof.
  intros H. destruct (Z.eq_dec c (2 ^ 63 - 1)) as [->|Hne].
  - reflexivity.
  - unfold decr. rewrite incr_small by lia. rewrite wrap64_small; lia.
Qed.

Lemma verdicts_lookup_next typed target :
  (length typed < length target)%nat ->
  verdicts typed target !! length typed = Some CharUnattempted.
Proof.
  intros H. unfold verdicts.
  rewrite lookup_app_r by (rewrite judge_length; lia).
  apply lookup_replicate_2. rewrite judge_length. lia.
Qed.

Lemma backspace_rune_step r s :
  shape s -> ranged s ->
  (length (TypedRunes (state s)) < length (TargetRunes (state s)))%nat ->
  TypedRunes (state (backspace_step (rune_step r s))) = TypedRunes (state s)
  /\ CharStates (state (backspace_step (rune_step r s))) = CharStates (state s)
  /\ correctChars (metrics (backspace_step (rune_step r s)))
     = correctChars (metrics s)
  /\ frame (backspace_step (rune_step r s)) = frame s.
Proof.
  intros [Hle Hcs] Hr Hroom.
  destruct s as [[tg target typed cs st en fin ab] [smp lst itv tot cor] secs td].
  unfold ranged in Hr. simpl in *.
  assert (Hlen : length cs = length target)
    by (rewrite Hcs; apply verdicts_length; exact Hle).
  unfold backspace_step, rune_step, frame. simpl.
  rewrite length_app. simpl.
  replace (length typed + 1 - 1)%nat with (length typed) by lia.
  rewrite take_app_length.
  rewrite list_lookup_insert_eq by lia. simpl.
  rewrite list_insert_insert_eq.
  rewrite list_insert_id by (rewrite Hcs; apply verdicts_lookup_next; exact Hroom).
  repeat split.
  destruct (CharState_eqb _ CharCorrect); [apply decr_incr; exact Hr | reflexivity].
Qed.

(** C5. In every reachable state: [handleBackspace] changes nothing when
    the typed buffer is empty; otherwise it removes exactly the last typed
    rune, sets the verdict of that position to Unattempted and leaves every
    other verdict alone, decrements [correctChars] exactly when that
    verdict was Correct, and touches nothing else; and when there is room,
    [handleRune] followed by [handleBackspace] restores the typed buffer,
    the verdicts and [correctChars]. *)
Theorem C5_backspace_undoes_rune (w : World) (Hreach : reachable w) :
  (TypedRunes (state (sess w)) = [] -> handleBackspace w = Done (tt, w))
  /\ (forall typed r,
        TypedRunes (state (sess w)) = typed ++ [r] ->
        exists w',
          handleBackspace w = Done (tt, w')
          /\ TypedRunes (state (sess w')) = typed
          /\ CharStates (state (sess w'))
             = <[length typed := CharUnattempted]> (CharStates (state (sess w)))
          /\ CharStates (state (sess w')) !! length typed = Some CharUnattempted
          /\ (forall i, i <> length typed ->
                CharStates (state (sess w')) !! i = CharStates (state (sess w)) !! i)
          /\ correctChars (metrics (sess w'))
             = match CharStates (state (sess w)) !! length typed with
               | Some CharCorrect => decr (correctChars (metrics (sess w)))
               | _ => correctChars (metrics (sess w))
               end
          /\ totalTyped (metrics (sess w')) = totalTyped (metrics (sess w))
          /\ frame (sess w') = frame (sess w)
          /\ clock w' = clock w)
  /\ ((length (TypedRunes (state (sess w))) < length (TargetRunes (state (sess w))))%nat ->
      forall r,
        exists w1 w2,
          handleRune r w = Done (tt, w1)
          /\ handleBackspace w1 = Done (tt, w2)
          /\ TypedRunes (state (sess w2)) = TypedRunes (state (sess w))
          /\ CharStates (state (sess w2)) = CharStates (state (sess w))
          /\ correctChars (metrics (sess w2)) = correctChars (metrics (sess w))
          /\ frame (sess w2) = frame (sess w)).
Proof.
  destruct (reachable_inv w Hreach) as (Hs & _ & Hr).
  destruct (shape_counts _ Hs) as [_ Hlen].
  pose proof Hs as [Hle Hcs].
  destruct w as [s c]. simpl in *.
  split; [|split].
  - intros E. apply handleBackspace_empty. exact E.
  - intros typed r E.
    assert (Hidx : (length typed < length (CharStates (state s)))%nat).
    { rewrite Hlen. rewrite E, length_app in Hle. simpl in Hle. lia. }
    exists (mkWorld (backspace_step s) c).
    split.
    { apply handleBackspace_nonempty.
      - rewrite E. destruct typed; discriminate.
      - rewrite Hlen. exact Hle. }
    unfold backspace_step. simpl. rewrite E, length_app. simpl.
    replace (length typed + 1 - 1)%nat with (length typed) by lia.
    rewrite take_app_length.
    split; [reflexivity|]. split; [reflexivity|].
    split; [apply list_lookup_insert_eq; exact Hidx|].
    split; [intros i Hi; apply list_lookup_insert_ne; congruence|].
    split; [|repeat split].
    destruct (CharStates (state s) !! length typed) as [[| |]|]; reflexivity.
  - intros Hroom r.
    exists (mkWorld (rune_step r s) c), (mkWorld (backspace_step (rune_step r s)) c).
    split; [apply handleRune_room; [exact Hroom | exact Hlen]|].
    split.
    { apply handleBackspace_nonempty.
      - unfold rune_step. simpl. destruct (TypedRunes (state s)); discriminate.
      - unfold rune_step. simpl. rewrite length_app, length_insert. simpl. lia. }
    simpl. apply backspace_rune_step; assumption.
Qed.

Definition world_C5 : World := fresh (words [99; 97; 116]) (steady 1000).

Lemma C5_backspace_undoes_rune_witness :
  reachable world_C5
  /\ exists w1 w2,
       handleRune 99 world_C5 = Done (tt, w1)
       /\ handleBackspace w1 = Done (tt, w2)
       /\ TypedRunes (state (sess w2)) = TypedRunes (state (sess world_C5))
       /\ CharStates (state (sess w2)) = CharStates (state (sess world_C5))
       /\ correctChars (metrics (sess w2)) = correctChars (metrics (sess world_C5))
       /\ frame (sess w2) = frame (sess world_C5).
Proof.
  assert (R : reachable world_C5).
  { exists (words [99; 97; 116]), (steady 1000), []. reflexivity. }
  split; [exact R|].
  apply (proj2 (proj2 (C5_backspace_undoes_rune world_C5 R))).
  simpl. lia.
Defined.

(* ------------------------------------------------------------------ *)
(** ** Typing against a full buffer *)

Definition timed (text : list rune) (secs : Z) : SessionOptions :=
  mkSessionOptions
    (mkTarget text ModeTimer (mkTargetMetadata 0 secs EmptyString EmptyString))
    secs.

(** C8. In every state, of every mode, whose typed buffer is as long as the
    target, [handleRune] returns with the whole session unchanged: typed
    buffer, verdicts and both counters.  In consequence no execution of a
    fresh session ends in an index fault, and in every reachable state
    [handleRune] and [handleBackspace] run to completion. *)
Theorem C8_full_buffer_stalls (w : World) (r : rune)
  (Hfull : (length (TargetRunes (state (sess w)))
            <= length (TypedRunes (state (sess w))))%nat) :
  handleRune r w = Done (tt, w)
  /\ (forall opts c evs, run evs (fresh opts c) <> Panic IndexOutOfRange)
  /\ (forall w0 r0, reachable w0 ->
        (exists w1, handleRune r0 w0 = Done (tt, w1))
        /\ (exists w1, handleBackspace w0 = Done (tt, w1))).
Proof.
  split; [apply handleRune_full, Hfull|]. split.
  - intros opts c evs. apply run_no_index_fault, inv_new.
  - intros w0 r0 Hreach.
    destruct (reachable_inv w0 Hreach) as (Hs & _ & _).
    split.
    + exists (key_w KeyTypeRune r0 w0). apply (key_eq KeyTypeRune r0 w0 Hs).
    + exists (key_w KeyTypeBackspace 0 w0). apply (key_eq KeyTypeBackspace 0 w0 Hs).
Qed.

Definition world_C8 : World :=
  key_world KeyTypeRune 97 (fresh (timed [97] 15) (steady 1000)).

Lemma C8_full_buffer_stalls_witness :
  (length (TargetRunes (state (sess world_C8)))
   <= length (TypedRunes (state (sess world_C8))))%nat
  /\ handleRune 98 world_C8 = Done (tt, world_C8).
Proof.
  assert (H : (length (TargetRunes (state (sess world_C8)))
               <= length (TypedRunes (state (sess world_C8))))%nat)
    by (vm_compute; lia).
  split; [exact H | apply (C8_full_buffer_stalls world_C8 98 H)].
Defined.

(* ------------------------------------------------------------------ *)
(** ** Executions as functions on worlds *)

Fixpoint play (evs : list Event) (w : World) : World :=
  match evs with
  | [] => w
  | e :: evs' => play evs' (event_w e w)
  end.

Lemma run_play evs : forall w,
  inv (sess w) -> forallb no_abort evs = true ->
  run evs w = Done (tt, play evs w).
Proof.
  induction evs as [|e evs IH]; intros w Hi Hna; [reflexivity|].
  simpl in Hna. apply andb_prop in Hna as [He Hna].
  rewrite run_cons.
  destruct (apply_cases e w Hi) as [E|(-> & _)]; [|discriminate].
  rewrite E. simpl. apply IH; [apply inv_event_w, Hi | exact Hna].
Qed.

Lemma run_Done_play evs : forall w w',
  inv (sess w) -> run evs w = Done (tt, w') -> w' = play evs w.
Proof.
  induction evs as [|e evs IH]; intros w w' Hi H.
  - injection H as <-. reflexivity.
  - rewrite run_cons in H.
    destruct (apply e w) as [[[] w1]|f] eqn:E; [|discriminate].
    rewrite (apply_Done _ _ _ Hi E) in H.
    simpl. apply IH; [apply inv_event_w, Hi | exact H].
Qed.

(** [GetResult] as a function on worlds. *)
Definition final_w (w : World) : World :=
  let s := sess w in
  if negb (IsZero (StartedAt (state s))) && negb (IsZero (EndedAt (state s)))
  then mkWorld
         (on_metrics
            (set_samples
               (samples (metrics s)
                ++ [calculateSample s (Sub (EndedAt (state s)) (StartedAt (state s)))]))
            s)
         (clock w)
  else w.

Definition floor_minutes (d : Duration) : Q :=
  if Qle_bool (1 # 1000) (Minutes d) then Minutes d else (1 # 1000)%Q.

Definition result_of (s : Session) : SessionResult :=
  let duration := Sub (EndedAt (state s)) (StartedAt (state s)) in
  let minutes := floor_minutes duration in
  mkSessionResult
    (Target_Mode (State_Target (state s)))
    (StartedAt (state s))
    duration
    (Z.of_nat (length (TargetRunes (state s))))
    (totalTyped (metrics s))
    (correctChars (metrics s))
    ((inject_Z (correctChars (metrics s)) / 5) / minutes)%Q
    ((inject_Z (totalTyped (metrics s)) / 5) / minutes)%Q
    (if 0 <? totalTyped (metrics s)
     then (inject_Z (correctChars (metrics s))
           / inject_Z (totalTyped (metrics s)) * 100)%Q
     else 0%Q)
    (samples (metrics s))
    (Target_Metadata (State_Target (state s))).

Lemma GetResult_eq w :
  GetResult w = Done (result_of (sess (final_w w)), final_w w).
Proof.
  destruct w as [[[tg target typed cs st en fin ab] [smp lst itv tot cor] secs td] c].
  unfold GetResult, final_w, result_of, floor_minutes, bind, get, when, modify, ret.
  cbn [sess state metrics StartedAt EndedAt].
  destruct (negb (IsZero st) && negb (IsZero en)); reflexivity.
Qed.

Lemma typing_final_w w : typing (sess (final_w w)) = typing (sess w).
Proof.
  unfold final_w. destruct (_ && _); reflexivity.
Qed.

(* ------------------------------------------------------------------ *)
(** ** Events after the end of a session *)

(** C3 (the code departs from the claim).  [HandleKey] returns at once on a
    finished or aborted session, but [Abort] has no such guard.  In Timer
    mode, when the duration timer has fired and the abort key arrives
    before the event loop looks at the session again, [Abort] runs on a
    finished session: both [Finished] and [Aborted] are then true and
    [EndedAt] is overwritten.  The same happens when [Abort] follows a
    session finished by typing, and a second [Abort] in Timer mode closes
    the closed channel. *)
Theorem C3_abort_after_finish :
  (exists w1 w2,
      run [EvRune 97; EvTimer] (fresh (timed [97; 98] 15) (steady 1000))
      = Done (tt, w1)
      /\ Finished (state (sess w1)) = true
      /\ Aborted (state (sess w1)) = false
      /\ Abort w1 = Done (tt, w2)
      /\ Finished (state (sess w2)) = true
      /\ Aborted (state (sess w2)) = true
      /\ EndedAt (state (sess w2)) <> EndedAt (state (sess w1)))
  /\ (exists w1 w2,
      run [EvRune 97] (fresh (words [97]) (steady 1000)) = Done (tt, w1)
      /\ Finished (state (sess w1)) = true
      /\ Aborted (state (sess w1)) = false
      /\ Abort w1 = Done (tt, w2)
      /\ Finished (state (sess w2)) = true
      /\ Aborted (state (sess w2)) = true
      /\ EndedAt (state (sess w2)) <> EndedAt (state (sess w1)))
  /\ run [EvRune 97; EvAbort; EvAbort] (fresh (timed [97; 98] 15) (steady 1000))
     = Panic CloseOfClosedChannel.
Proof.
  split; [|split].
  - exists (play [EvRune 97; EvTimer] (fresh (timed [97; 98] 15) (steady 1000))).
    exists (abort_w (play [EvRune 97; EvTimer]
                       (fresh (timed [97; 98] 15) (steady 1000)))).
    split; [apply run_play; [apply inv_new | reflexivity]|].
    split; [vm_compute; reflexivity|].
    split; [vm_compute; reflexivity|].
    split; [apply Abort_eq; vm_compute; discriminate|].
    split; [vm_compute; reflexivity|].
    split; [vm_compute; reflexivity|].
    vm_compute. discriminate.
  - exists (play [EvRune 97] (fresh (words [97]) (steady 1000))).
    exists (abort_w (play [EvRune 97] (fresh (words [97]) (steady 1000)))).
    split; [apply run_play; [apply inv_new | reflexivity]|].
    split; [vm_compute; reflexivity|].
    split; [vm_compute; reflexivity|].
    split; [apply Abort_eq; vm_compute; discriminate|].
    split; [vm_compute; reflexivity|].
    split; [vm_compute; reflexivity|].
    vm_compute. discriminate.
  - vm_compute. reflexivity.
Qed.

(* ------------------------------------------------------------------ *)
(** ** The order of the samples *)

(** A clock given by its first readings; later readings repeat the last. *)
Definition readings (l : list Time) : Clock := fun n => nth n l (List.last l 0).

(** One second after the zero time, plus [ns] nanoseconds. *)
Definition at_ns (ns : Z) : Time := Second + ns.

(** A session of two runes with the ticker running: the first key starts
    the session, five ticks follow at 150, 350, 550, 750 and 950 ms (the
    third takes a sample), and the finishing key arrives 1100 ms after the
    start.  [finish] reads the clock one nanosecond before the millisecond
    1101 begins, [maybeTakeSample] one nanosecond after. *)
Definition clock_C2 : Clock :=
  readings [at_ns 0; at_ns 1000;
            at_ns 150000000; at_ns 350000000; at_ns 550000000;
            at_ns 750000000; at_ns 950000000;
            at_ns 1100999999; at_ns 1101000001].

Definition events_C2 : list Event :=
  [EvRune 97; EvTick; EvTick; EvTick; EvTick; EvTick; EvRune 98].

(** C2 (the code departs from the claim).  The readings of [clock_C2] never
    decrease, yet the samples of the result are not ordered by time: the
    key that finishes the session stamps [EndedAt] and then
    [maybeTakeSample] reads the clock again and records a sample at 1101
    ms, after which [GetResult] appends the final sample at
    [EndedAt - StartedAt], 1100 ms. *)
Theorem C2_final_sample_before_last :
  (forall n, clock_C2 n <= clock_C2 (S n))
  /\ exists res w',
       (run events_C2 ;;; GetResult) (fresh (words [97; 98]) clock_C2)
       = Done (res, w')
       /\ Finished (state (sess w')) = true
       /\ map TimeMs (Result_Samples res) = [0; 550; 1101; 1100]
       /\ Milliseconds (Sub (EndedAt (state (sess w'))) (StartedAt (state (sess w'))))
          = 1100.
Proof.
  split.
  - intros n. do 9 (destruct n as [|n]; [vm_compute; discriminate|]).
    unfold clock_C2, readings. cbn [nth]. destruct n; apply Z.le_refl.
  - exists (result_of (sess (final_w (play events_C2 (fresh (words [97; 98]) clock_C2))))).
    exists (final_w (play events_C2 (fresh (words [97; 98]) clock_C2))).
    split.
    { rewrite (bind_Done _ _ _ _ _
                 (run_play events_C2 (fresh (words [97; 98]) clock_C2)
                    (inv_new _) eq_refl)).
      apply GetResult_eq. }
    split; [vm_compute; reflexivity|].
    split; vm_compute; reflexivity.
Qed.

(* ------------------------------------------------------------------ *)
(** ** The phases of a session *)

Definition NotStarted (s : Session) : bool :=
  IsZero (StartedAt (state s)) && negb (IsFinished s).

Definition Running (s : Session) : bool :=
  negb (IsZero (StartedAt (state s))) && negb (IsFinished s).

(** What the sampling and finishing steps of [HandleKey] leave alone. *)
Definition header (s : Session) :=
  (State_Target (state s), TargetRunes (state s), StartedAt (state s),
   Aborted (state s), timerSeconds s, timerDone s).

Lemma header_key_step k r s : header (key_step k r s) = header s.
Proof.
  pose proof (frame_key_step k r s) as E. unfold frame in E. unfold header.
  injection E as -> -> -> _ _ -> _ _ _ -> ->. reflexivity.
Qed.

Lemma header_finish_w w : header (sess (finish_w w)) = header (sess w).
Proof. unfold finish_w. destruct (complete _); reflexivity. Qed.

Lemma header_sample_w w : header (sess (sample_w w)) = header (sess w).
Proof.
  unfold sample_w. destruct (IsZero _); [reflexivity|].
  destruct (due _ _); reflexivity.
Qed.

Lemma complete_typing s s' : typing s = typing s' -> complete s = complete s'.
Proof.
  unfold typing, complete. intros E. injection E as -> -> -> _ _ _. reflexivity.
Qed.

Lemma Finished_sample_w w :
  Finished (state (sess (sample_w w))) = Finished (state (sess w)).
Proof.
  unfold sample_w. destruct (IsZero _); [reflexivity|].
  destruct (due _ _); reflexivity.
Qed.

Lemma Finished_finish_w w :
  Finished (state (sess (finish_w w)))
  = complete (sess w) || Finished (state (sess w)).
Proof. unfold finish_w. destruct (complete _); reflexivity. Qed.

Lemma samples_finish_w w :
  samples (metrics (sess (finish_w w))) = samples (metrics (sess w)).
Proof. unfold finish_w. destruct (complete _); reflexivity. Qed.

Lemma samples_sample_w w :
  exists more,
    samples (metrics (sess (sample_w w))) = samples (metrics (sess w)) ++ more.
Proof.
  unfold sample_w. destruct (IsZero _); [exists []; symmetry; apply app_nil_r|].
  destruct (due _ _); [|exists []; symmetry; apply app_nil_r].
  eexists. reflexivity.
Qed.

Lemma samples_key_step k r s :
  samples (metrics (key_step k r s)) = samples (metrics s).
Proof.
  pose proof (frame_key_step k r s) as E. unfold frame in E.
  injection E as _ _ _ _ _ _ -> _ _ _ _. reflexivity.
Qed.

Lemma Finished_key_step k r s :
  Finished (state (key_step k r s)) = Finished (state s).
Proof.
  pose proof (frame_key_step k r s) as E. unfold frame in E.
  injection E as _ _ _ _ -> _ _ _ _ _ _. reflexivity.
Qed.

(** A key on a live session: the session is neither aborted nor, unless the
    key completes the target, finished. *)
Lemma key_world_live k r w :
  IsFinished (sess w) = false ->
  let w' := key_world k r w in
  typing (sess w') = typing (key_step k r (sess w))
  /\ Aborted (state (sess w')) = false
  /\ Finished (state (sess w')) = complete (sess w')
  /\ TargetRunes (state (sess w')) = TargetRunes (state (sess w)).
Proof.
  intros Hlive. cbv zeta.
  assert (T : typing (sess (key_world k r w)) = typing (key_step k r (sess w))).
  { rewrite typing_key_world, Hlive. apply typing_key_step_start. }
  split; [exact T|].
  unfold IsFinished in Hlive. apply orb_false_elim in Hlive as [Hf Ha].
  assert (H1 : header (sess (key_world k r w)) = header (sess (start_w w))).
  { unfold key_world, IsFinished. rewrite Hf, Ha. simpl.
    rewrite header_sample_w, header_finish_w. apply header_key_step. }
  assert (H0 : Aborted (state (sess (start_w w))) = Aborted (state (sess w))
               /\ Finished (state (sess (start_w w))) = Finished (state (sess w))).
  { unfold start_w. destruct (IsZero _); split; reflexivity. }
  destruct H0 as [Hab Hfi].
  split; [|split].
  - unfold header in H1. injection H1 as _ _ _ -> _ _. rewrite Hab. exact Ha.
  - rewrite (complete_typing _ _ T).
    unfold key_world, IsFinished. rewrite Hf, Ha. simpl.
    rewrite Finished_sample_w, Finished_finish_w. simpl.
    rewrite Finished_key_step, Hfi, Hf, orb_false_r.
    apply complete_typing. apply typing_key_step_start.
  - unfold typing in T. injection T as _ -> _ _ _ _.
    apply typing_key_step_target.
Qed.

(** C10, as the code has it.  The first [HandleKey] call on a fresh
    session, of whatever key type (a Backspace on the empty buffer
    included), returns and has started the session: [StartedAt] holds the
    clock reading, the sample [{0, 0, 0}] is the first sample, and the
    duration timer is armed exactly in Timer mode with a positive
    duration.  The session is not aborted, and it is Running unless this
    same call completed the target in a mode other than Timer, in which
    case it is Finished. *)
Theorem C10_first_key_starts (opts : SessionOptions) (c : Clock) (k : Z) (r : rune)
  (Hclock : IsZero (c O) = false) :
  exists w',
    HandleKey k r (fresh opts c) = Done (tt, w')
    /\ StartedAt (state (sess w')) = c O
    /\ (exists more, samples (metrics (sess w')) = mkSample 0 0 0 :: more)
    /\ timerDone (sess w')
       = (if String.eqb (Target_Mode (Opt_Target opts)) ModeTimer
             && (0 <? Opt_TimerSeconds opts)
          then ChanOpen else ChanNil)
    /\ Aborted (state (sess w')) = false
    /\ Finished (state (sess w')) = complete (sess w')
    /\ Running (sess w') = negb (complete (sess w')).
Proof.
  exists (key_world k r (fresh opts c)).
  split; [apply HandleKey_eq; [apply shape_new | apply chan_ok_new]|].
  assert (Hlive : IsFinished (sess (fresh opts c)) = false) by reflexivity.
  destruct (key_world_live k r _ Hlive) as (_ & Hab & Hfin & _).
  assert (H1 : header (sess (key_world k r (fresh opts c)))
               = header (started (c O) (NewSession opts))).
  { unfold key_world. rewrite Hlive.
    rewrite header_sample_w, header_finish_w. apply header_key_step. }
  assert (Hst : StartedAt (state (sess (key_world k r (fresh opts c)))) = c O).
  { unfold header in H1. injection H1 as _ _ -> _ _ _. reflexivity. }
  split; [exact Hst|]. split; [|split; [|split; [exact Hab|split; [exact Hfin|]]]].
  - unfold key_world. rewrite Hlive.
    destruct (samples_sample_w (finish_w (key_w k r (start_w (fresh opts c)))))
      as [more ->].
    rewrite samples_finish_w. unfold key_w. cbn [sess].
    rewrite samples_key_step. exists more. reflexivity.
  - unfold header in H1. injection H1 as _ _ _ _ _ ->. reflexivity.
  - unfold Running, IsFinished. rewrite Hst, Hclock, Hab, Hfin, orb_false_r.
    reflexivity.
Qed.

Lemma C10_first_key_starts_witness :
  IsZero (steady 1000 O) = false
  /\ exists w',
       HandleKey KeyTypeBackspace 0 (fresh (timed [97; 98] 15) (steady 1000))
       = Done (tt, w')
       /\ StartedAt (state (sess w')) = steady 1000 O
       /\ (exists more, samples (metrics (sess w')) = mkSample 0 0 0 :: more)
       /\ timerDone (sess w') = ChanOpen
       /\ Aborted (state (sess w')) = false
       /\ Finished (state (sess w')) = complete (sess w')
       /\ Running (sess w') = negb (complete (sess w')).
Proof.
  split; [reflexivity|].
  apply (C10_first_key_starts (timed [97; 98] 15) (steady 1000) KeyTypeBackspace 0).
  reflexivity.
Defined.

(** C10 as stated fails: on a one-rune target in Words mode the first key,
    when it is that rune, starts the session and finishes it in the same
    call; the session is Finished, not Running. *)
Lemma C10_first_key_may_finish :
  exists w',
    HandleKey KeyTypeRune 97 (fresh (words [97]) (steady 1000)) = Done (tt, w')
    /\ NotStarted (NewSession (words [97])) = true
    /\ Finished (state (sess w')) = true
    /\ Running (sess w') = false.
Proof.
  exists (key_world KeyTypeRune 97 (fresh (words [97]) (steady 1000))).
  split; [apply HandleKey_eq; [apply shape_new | apply chan_ok_new]|].
  repeat split; vm_compute; reflexivity.
Qed.

(* ------------------------------------------------------------------ *)
(** ** The counters along an execution *)

Lemma typing_event_w e w :
  typing (sess (event_w e w))
  = typing (match e with
            | EvKey k r => if IsFinished (sess w) then sess w
                           else key_step k r (sess w)
            | _ => sess w
            end).
Proof.
  destruct e as [k r| | |]; simpl.
  - rewrite typing_key_world. destruct (IsFinished (sess w)); [reflexivity|].
    apply typing_key_step_start.
  - apply typing_tick_w.
  - apply typing_abort_w.
  - apply typing_timer_w.
Qed.

Lemma counters_event_w n e w :
  inv (sess w) -> counters n (sess w) -> n < 2 ^ 63 - 1 ->
  counters (n + 1) (sess (event_w e w)).
Proof.
  intros (Hs & _ & _) Hc Hn.
  apply (counters_typing _ _ _ (eq_sym (typing_event_w e w))).
  destruct e as [k r| | |]; try (apply (counters_weaken n); [lia | exact Hc]).
  destruct (IsFinished (sess w)).
  - apply (counters_weaken n); [lia | exact Hc].
  - apply counters_key_step; assumption.
Qed.

Lemma counters_play evs : forall n w,
  inv (sess w) -> counters n (sess w) ->
  n + Z.of_nat (length evs) < 2 ^ 63 ->
  counters (n + Z.of_nat (length evs)) (sess (play evs w)).
Proof.
  induction evs as [|e evs IH]; intros n w Hi Hc Hn.
  - simpl. rewrite Z.add_0_r. exact Hc.
  - cbn [play length] in *. rewrite Nat2Z.inj_succ in *.
    replace (n + Z.succ (Z.of_nat (length evs)))
      with ((n + 1) + Z.of_nat (length evs)) by lia.
    apply IH; [apply inv_event_w, Hi | | lia].
    apply counters_event_w; [exact Hi | exact Hc | lia].
Qed.

Lemma target_play evs : forall w,
  TargetRunes (state (sess (play evs w))) = TargetRunes (state (sess w))
  /\ State_Target (state (sess (play evs w))) = State_Target (state (sess w)).
Proof.
  induction evs as [|e evs IH]; intros w; [split; reflexivity|].
  cbn [play]. destruct (IH (event_w e w)) as [-> ->].
  pose proof (typing_event_w e w) as T. unfold typing in T.
  injection T as -> -> _ _ _ _.
  destruct e as [k r| | |]; try (split; reflexivity).
  destruct (IsFinished (sess w)); [split; reflexivity|].
  destruct (typing_key_step_target k r (sess w)) as [-> ->]. split; reflexivity.
Qed.

(* ------------------------------------------------------------------ *)
(** ** The arithmetic of the result *)

Lemma floor_minutes_pos d : (0 < floor_minutes d)%Q.
Proof.
  unfold floor_minutes.
  destruct (Qle_bool (1 # 1000) (Minutes d)) eqn:E; [|reflexivity].
  apply Qle_bool_iff in E.
  apply (Qlt_le_trans _ (1 # 1000)); [reflexivity | exact E].
Qed.

Lemma inject_Z_nonneg z : 0 <= z -> (0 <= inject_Z z)%Q.
Proof. intros H. change 0%Q with (inject_Z 0). rewrite <- Zle_Qle. exact H. Qed.

Lemma wpm_nonneg z m : 0 <= z -> (0 < m)%Q -> (0 <= inject_Z z / 5 / m)%Q.
Proof.
  intros Hz Hm.
  apply Qle_shift_div_l; [exact Hm|]. rewrite Qmult_0_l.
  apply Qle_shift_div_l; [reflexivity|]. rewrite Qmult_0_l.
  apply inject_Z_nonneg, Hz.
Qed.

Lemma wpm_mono a b m :
  a <= b -> (0 < m)%Q -> (inject_Z a / 5 / m <= inject_Z b / 5 / m)%Q.
Proof.
  intros Hab Hm. unfold Qdiv.
  apply Qmult_le_compat_r; [|apply Qinv_le_0_compat, Qlt_le_weak, Hm].
  apply Qmult_le_compat_r; [|discriminate].
  rewrite <- Zle_Qle. exact Hab.
Qed.

Lemma accuracy_bounds c t :
  0 <= c <= t -> 0 < t ->
  (0 <= inject_Z c / inject_Z t * 100 /\ inject_Z c / inject_Z t * 100 <= 100)%Q.
Proof.
  intros Hc Ht.
  assert (Hq : (0 < inject_Z t)%Q)
    by (change 0%Q with (inject_Z 0); rewrite <- Zlt_Qlt; exact Ht).
  split.
  - apply Qmult_le_0_compat; [|discriminate].
    apply Qle_shift_div_l; [exact Hq|]. rewrite Qmult_0_l.
    apply inject_Z_nonneg. lia.
  - rewrite <- (Qmult_1_l 100) at 2.
    apply Qmult_le_compat_r; [|discriminate].
    apply Qle_shift_div_r; [exact Hq|]. rewrite Qmult_1_l.
    rewrite <- Zle_Qle. lia.
Qed.

Lemma accuracy_100_iff c t :
  0 < t -> (inject_Z c / inject_Z t * 100 == 100)%Q <-> c = t.
Proof.
  intros Ht. destruct t as [|p|p]; try lia.
  unfold Qeq, Qdiv, Qmult, Qinv, inject_Z. simpl. lia.
Qed.

Lemma accuracy_full t :
  0 < t -> (inject_Z t / inject_Z t * 100 == 100)%Q.
Proof.
  intros Ht. unfold Qdiv. rewrite Qmult_inv_r; [reflexivity|].
  intros E. unfold Qeq in E. simpl in E. lia.
Qed.

Lemma result_bounds n s :
  shape s -> counters n s ->
  (0 <= Result_Accuracy (result_of s))%Q
  /\ (Result_Accuracy (result_of s) <= 100)%Q
  /\ (0 <= Result_WPM (result_of s))%Q
  /\ (0 <= Result_RawWPM (result_of s))%Q
  /\ (Result_WPM (result_of s) <= Result_RawWPM (result_of s))%Q
  /\ 0 <= Result_CorrectChars (result_of s) <= Result_TotalTyped (result_of s).
Proof.
  intros [Hle Hcs] (Hc & Hty & _).
  pose proof (count_correct_typed (TypedRunes (state s)) (TargetRunes (state s))) as Hcc.
  rewrite <- Hcs in Hcc.
  assert (Hrange : 0 <= correctChars (metrics s) <= totalTyped (metrics s)) by lia.
  pose proof (floor_minutes_pos
                (Sub (EndedAt (state s)) (StartedAt (state s)))) as Hm.
  unfold result_of. cbn [Result_Accuracy Result_WPM Result_RawWPM
                         Result_CorrectChars Result_TotalTyped].
  assert (Hacc : (0 <= (if 0 <? totalTyped (metrics s)
                        then inject_Z (correctChars (metrics s))
                             / inject_Z (totalTyped (metrics s)) * 100
                        else 0)
                  /\ (if 0 <? totalTyped (metrics s)
                      then inject_Z (correctChars (metrics s))
                           / inject_Z (totalTyped (metrics s)) * 100
                      else 0) <= 100)%Q).
  { destruct (Z.ltb_spec 0 (totalTyped (metrics s))) as [Hpos|_].
    - apply accuracy_bounds; [exact Hrange | exact Hpos].
    - split; discriminate. }
  destruct Hacc as [Ha0 Ha1].
  split; [exact Ha0|]. split; [exact Ha1|].
  split; [apply wpm_nonneg; [lia | exact Hm]|].
  split; [apply wpm_nonneg; [lia | exact Hm]|].
  split; [apply wpm_mono; [lia | exact Hm]|].
  exact Hrange.
Qed.

Lemma run_result_inv evs w res w' :
  inv (sess w) ->
  (run evs ;;; GetResult) w = Done (res, w') ->
  run evs w = Done (tt, play evs w)
  /\ w' = final_w (play evs w)
  /\ res = result_of (sess w').
Proof.
  intros Hi H. apply bind_inv in H as ([] & w1 & Hrun & Hres).
  pose proof (run_Done_play _ _ _ Hi Hrun) as ->.
  rewrite GetResult_eq in Hres. injection Hres as <- <-.
  split; [exact Hrun|]. split; reflexivity.
Qed.

(** C7. For every session and every sequence of events (fewer than [2^63]
    of them, the range of the counters), [GetResult] returns a result
    whenever the events do not abort the session, and every result it
    returns has [0 <= Accuracy <= 100], [WPM >= 0], [RawWPM >= 0],
    [RawWPM >= WPM] and [0 <= CorrectChars <= TotalTyped]. *)
Theorem C7_result_bounds (opts : SessionOptions) (c : Clock) (evs : list Event)
  (Hbound : Z.of_nat (length evs) < 2 ^ 63) :
  (forallb no_abort evs = true ->
   exists res w', (run evs ;;; GetResult) (fresh opts c) = Done (res, w'))
  /\ (forall res w',
        (run evs ;;; GetResult) (fresh opts c) = Done (res, w') ->
        (0 <= Result_Accuracy res)%Q
        /\ (Result_Accuracy res <= 100)%Q
        /\ (0 <= Result_WPM res)%Q
        /\ (0 <= Result_RawWPM res)%Q
        /\ (Result_WPM res <= Result_RawWPM res)%Q
        /\ 0 <= Result_CorrectChars res <= Result_TotalTyped res).
Proof.
  split.
  - intros Hna.
    exists (result_of (sess (final_w (play evs (fresh opts c))))).
    exists (final_w (play evs (fresh opts c))).
    rewrite (bind_Done _ _ _ _ _ (run_play evs (fresh opts c) (inv_new opts) Hna)).
    apply GetResult_eq.
  - intros res w' H.
    destruct (run_result_inv evs (fresh opts c) res w' (inv_new opts) H)
      as (Hrun & -> & ->).
    pose proof (run_inv _ (fresh opts c) _ (inv_new opts) Hrun) as (Hs & _ & _).
    pose proof (counters_play evs 0 (fresh opts c) (inv_new opts)
                  (counters_new opts) ltac:(lia)) as Hc.
    apply (result_bounds (0 + Z.of_nat (length evs))).
    + apply (shape_typing _ _ (eq_sym (typing_final_w _)) Hs).
    + apply (counters_typing _ _ _ (eq_sym (typing_final_w _)) Hc).
Qed.

Definition events_C7 : list Event :=
  [EvRune 99; EvRune 98; EvBackspace; EvTick; EvRune 97; EvRune 116].

Lemma C7_result_bounds_witness :
  Z.of_nat (length events_C7) < 2 ^ 63
  /\ exists res w',
       (run events_C7 ;;; GetResult) (fresh (words [99; 97; 116]) (steady 400000000))
       = Done (res, w').
Proof.
  assert (H : Z.of_nat (length events_C7) < 2 ^ 63) by reflexivity.
  split; [exact H|].
  apply (proj1 (C7_result_bounds (words [99; 97; 116]) (steady 400000000)
                  events_C7 H)).
  reflexivity.
Defined.

(* ------------------------------------------------------------------ *)
(** ** Typing the target exactly *)

Lemma rune_step_match t s rest :
  TargetRunes (state s) = TypedRunes (state s) ++ t :: rest ->
  typing (rune_step t s)
  = (State_Target (state s), TargetRunes (state s), TypedRunes (state s) ++ [t],
     <[length (TypedRunes (state s)) := CharCorrect]> (CharStates (state s)),
     incr (totalTyped (metrics s)), incr (correctChars (metrics s))).
Proof.
  intros E. unfold rune in *.
  assert (L : TargetRunes (state s) !! length (TypedRunes (state s)) = Some t)
    by (rewrite E; apply list_lookup_middle; reflexivity).
  unfold typing, rune_step. simpl. rewrite L. simpl.
  unfold verdict. rewrite Z.eqb_refl. reflexivity.
Qed.

(** The runes of the rune keys of a sequence of events, in order. *)
Fixpoint runes_typed (evs : list Event) : list rune :=
  match evs with
  | [] => []
  | EvKey k r :: evs' =>
      if k =? KeyTypeRune then r :: runes_typed evs' else runes_typed evs'
  | _ :: evs' => runes_typed evs'
  end.

(** Events that neither erase nor abort: rune keys, keys that [HandleKey]
    ignores, sampling ticks and the duration timer. *)
Definition no_erasure (e : Event) : bool :=
  match e with
  | EvKey k _ => negb (k =? KeyTypeBackspace)
  | EvAbort => false
  | _ => true
  end.

(** A session in which [rest] is still to be typed and every rune typed
    so far was the right one. *)
Definition on_track (rest : list rune) (w : World) : Prop :=
  inv (sess w)
  /\ Target_Mode (State_Target (state (sess w))) <> ModeTimer
  /\ TargetRunes (state (sess w)) = TypedRunes (state (sess w)) ++ rest
  /\ totalTyped (metrics (sess w)) = Z.of_nat (length (TypedRunes (state (sess w))))
  /\ correctChars (metrics (sess w)) = Z.of_nat (length (TypedRunes (state (sess w))))
  /\ Aborted (state (sess w)) = false
  /\ Finished (state (sess w)) = match rest with [] => true | _ => false end.

Lemma on_track_key t rest w :
  Z.of_nat (length (TargetRunes (state (sess w)))) < 2 ^ 63 ->
  on_track (t :: rest) w -> on_track rest (key_world KeyTypeRune t w).
Proof.
  intros Hlen (Hi & Hmode & Htarget & Htot & Hcor & Hab0 & Hfin0).
  assert (Hlive : IsFinished (sess w) = false)
    by (unfold IsFinished; rewrite Hfin0, Hab0; reflexivity).
  destruct (key_world_live KeyTypeRune t w Hlive) as (T & Hab & Hfin & Htg).
  set (w1 := key_world KeyTypeRune t w) in *.
  assert (Hroom : (length (TypedRunes (state (sess w)))
                   < length (TargetRunes (state (sess w))))%nat).
  { rewrite Htarget, length_app. simpl. lia. }
  assert (Hstep : key_step KeyTypeRune t (sess w) = rune_step t (sess w)).
  { unfold key_step. simpl.
    destruct (Nat.leb_spec (length (TargetRunes (state (sess w))))
                           (length (TypedRunes (state (sess w))))); [lia|reflexivity]. }
  rewrite Hstep, (rune_step_match t (sess w) rest Htarget) in T.
  unfold typing in T. injection T as Ttg Ttarget Ttyped _ Ttot Tcor.
  assert (Hlen1 : length (TypedRunes (state (sess w1)))
                  = S (length (TypedRunes (state (sess w)))))
    by (rewrite Ttyped, length_app; simpl; lia).
  rewrite Htot, incr_small in Ttot by lia.
  rewrite Hcor, incr_small in Tcor by lia.
  assert (Hcomplete : complete (sess w1)
                      = (length (TargetRunes (state (sess w)))
                         <=? length (TypedRunes (state (sess w1))))%nat).
  { unfold complete. rewrite Ttg, Ttarget.
    destruct (String.eqb_spec (Target_Mode (State_Target (state (sess w)))) ModeTimer);
      [contradiction | reflexivity]. }
  split; [apply inv_key_world, Hi|]. split; [rewrite Ttg; exact Hmode|].
  split; [rewrite Ttarget, Ttyped, Htarget, <- app_assoc; reflexivity|].
  split; [rewrite Ttot, Hlen1; lia|]. split; [rewrite Tcor, Hlen1; lia|].
  split; [exact Hab|].
  rewrite Hfin, Hcomplete, Hlen1, Htarget, length_app.
  destruct rest as [|t' rest]; simpl.
  - apply Nat.leb_le. lia.
  - apply Nat.leb_gt. lia.
Qed.

(** An event that types nothing leaves the session on its track. *)
Lemma on_track_idle rest e w :
  no_erasure e = true ->
  match e with EvKey k _ => k <> KeyTypeRune | _ => True end ->
  on_track rest w -> on_track rest (event_w e w).
Proof.
  intros Hne Hidle (Hi & Hmode & Htarget & Htot & Hcor & Hab0 & Hfin0).
  assert (Hinv : inv (sess (event_w e w))) by (apply inv_event_w, Hi).
  destruct e as [k r| | |]; try discriminate; cbn [event_w] in *.
  - destruct (IsFinished (sess w)) eqn:Hlive.
    { unfold key_world. rewrite Hlive.
      exact (conj Hi (conj Hmode (conj Htarget (conj Htot (conj Hcor (conj Hab0 Hfin0)))))). }
    destruct (key_world_live k r w Hlive) as (T & Hab & Hfin & Htg).
    assert (Hstep : key_step k r (sess w) = sess w).
    { unfold key_step. apply Z.eqb_neq in Hidle. rewrite Hidle.
      simpl in Hne. apply negb_true_iff in Hne. rewrite Hne. reflexivity. }
    rewrite Hstep in T.
    assert (Hcomp : complete (sess (key_world k r w)) = complete (sess w))
      by (apply complete_typing, T).
    unfold typing in T. injection T as Ttg Ttarget Ttyped _ Ttot Tcor.
    split; [exact Hinv|]. split; [rewrite Ttg; exact Hmode|].
    split; [rewrite Ttarget, Ttyped; exact Htarget|].
    split; [rewrite Ttot, Ttyped; exact Htot|].
    split; [rewrite Tcor, Ttyped; exact Hcor|]. split; [exact Hab|].
    rewrite Hfin, Hcomp. unfold complete.
    destruct (String.eqb_spec (Target_Mode (State_Target (state (sess w)))) ModeTimer);
      [contradiction|].
    unfold IsFinished in Hlive. apply orb_false_elim in Hlive as [Hf _].
    rewrite Hf in Hfin0. destruct rest as [|t rest]; [discriminate|].
    simpl. apply Nat.leb_gt. rewrite Htarget, length_app. simpl. lia.
  - pose proof (typing_tick_w w) as T. unfold typing in T.
    injection T as Ttg Ttarget Ttyped _ Ttot Tcor.
    assert (Hflags : Aborted (state (sess (tick_w w))) = Aborted (state (sess w))
                     /\ Finished (state (sess (tick_w w))) = Finished (state (sess w))).
    { unfold tick_w. destruct (_ || _ || _); [split; reflexivity|].
      pose proof (header_sample_w w) as E. unfold header in E.
      injection E as _ _ _ E _ _. split; [exact E | apply Finished_sample_w]. }
    destruct Hflags as [Eab Efin].
    split; [exact Hinv|]. split; [rewrite Ttg; exact Hmode|].
    split; [rewrite Ttarget, Ttyped; exact Htarget|].
    split; [rewrite Ttot, Ttyped; exact Htot|].
    split; [rewrite Tcor, Ttyped; exact Hcor|].
    split; [rewrite Eab; exact Hab0 | rewrite Efin; exact Hfin0].
  - destruct Hi as (_ & Hok & _). unfold timer_w in *.
    rewrite (Hok Hmode) in *.
    exact (conj Hinv (conj Hmode (conj Htarget (conj Htot (conj Hcor (conj Hab0 Hfin0)))))).
Qed.

Lemma on_track_play evs : forall w,
  Z.of_nat (length (TargetRunes (state (sess w)))) < 2 ^ 63 ->
  forallb no_erasure evs = true ->
  on_track (runes_typed evs) w -> on_track [] (play evs w).
Proof.
  induction evs as [|e evs IH]; intros w Hlen Hne H; [exact H|].
  cbn [forallb] in Hne. apply andb_prop in Hne as [He Hne].
  cbn [play].
  assert (Htg : TargetRunes (state (sess (event_w e w))) = TargetRunes (state (sess w))).
  { pose proof (target_play [e] w) as [E _]. exact E. }
  apply IH; [rewrite Htg; exact Hlen | exact Hne|].
  destruct e as [k r| | |]; cbn [runes_typed] in H.
  - destruct (k =? KeyTypeRune) eqn:Ek.
    + apply Z.eqb_eq in Ek. subst k. apply on_track_key; assumption.
    + apply Z.eqb_neq in Ek. apply on_track_idle; assumption.
  - apply on_track_idle; [exact He | exact I | exact H].
  - discriminate He.
  - apply on_track_idle; [exact He | exact I | exact H].
Qed.

Lemma no_erasure_no_abort evs :
  forallb no_erasure evs = true -> forallb no_abort evs = true.
Proof.
  induction evs as [|e evs IH]; [reflexivity|]. cbn [forallb].
  intros H. apply andb_prop in H as [He H]. rewrite (IH H), andb_true_r.
  destruct e; try reflexivity. discriminate He.
Qed.

(** C6. In a session whose mode is not Timer and whose target is not empty
    (and, as every Go slice, shorter than [2^63]), every sequence of
    events whose rune keys spell the target exactly, interleaved in any
    way with sampling ticks, with keys that [HandleKey] ignores and with
    timer events, but without backspace or abort, runs to completion and
    leaves the session Finished and not Aborted; [GetResult] then reports
    [Accuracy == 100] and [TotalTyped = CorrectChars = len(target)]. *)
Theorem C6_exact_typing_finishes (opts : SessionOptions) (c : Clock)
  (evs : list Event)
  (Hmode : Target_Mode (Opt_Target opts) <> ModeTimer)
  (Hne : Text (Opt_Target opts) <> [])
  (Hlen : Z.of_nat (length (Text (Opt_Target opts))) < 2 ^ 63)
  (Hspell : runes_typed evs = Text (Opt_Target opts))
  (Hkeys : forallb no_erasure evs = true) :
  exists res w',
    (run evs ;;; GetResult) (fresh opts c) = Done (res, w')
    /\ Finished (state (sess w')) = true
    /\ Aborted (state (sess w')) = false
    /\ TypedRunes (state (sess w')) = Text (Opt_Target opts)
    /\ (Result_Accuracy res == 100)%Q
    /\ Result_TotalTyped res = Z.of_nat (length (Text (Opt_Target opts)))
    /\ Result_CorrectChars res = Z.of_nat (length (Text (Opt_Target opts)))
    /\ Result_TargetLen res = Z.of_nat (length (Text (Opt_Target opts))).
Proof.
  assert (Hna : forallb no_abort evs = true) by (apply no_erasure_no_abort, Hkeys).
  assert (H0 : on_track (runes_typed evs) (fresh opts c)).
  { rewrite Hspell. split; [apply inv_new|]. split; [exact Hmode|].
    split; [reflexivity|]. split; [reflexivity|]. split; [reflexivity|].
    split; [reflexivity|]. cbn [fresh sess NewSession state Finished].
    destruct (Text (Opt_Target opts)); [congruence | reflexivity]. }
  destruct (on_track_play evs (fresh opts c) Hlen Hkeys H0)
    as (_ & _ & Htarget & Htot & Hcor & Hab & Hfin).
  rewrite app_nil_r in Htarget.
  pose proof (typing_final_w (play evs (fresh opts c))) as T.
  pose proof (target_play evs (fresh opts c)) as [Htg _].
  cbn [fresh sess NewSession state TargetRunes] in Htg.
  exists (result_of (sess (final_w (play evs (fresh opts c))))).
  exists (final_w (play evs (fresh opts c))).
  split.
  { rewrite (bind_Done _ _ _ _ _ (run_play evs (fresh opts c) (inv_new opts) Hna)).
    apply GetResult_eq. }
  assert (F : Finished (state (sess (final_w (play evs (fresh opts c)))))
              = Finished (state (sess (play evs (fresh opts c))))
              /\ Aborted (state (sess (final_w (play evs (fresh opts c)))))
                 = Aborted (state (sess (play evs (fresh opts c))))).
  { unfold final_w. destruct (_ && _); split; reflexivity. }
  destruct F as [-> ->].
  unfold typing in T. injection T as _ Ttarget Ttyped _ Ttot Tcor.
  unfold result_of. cbn [Result_Accuracy Result_TotalTyped Result_CorrectChars
                         Result_TargetLen].
  rewrite Ttarget, Ttyped, Ttot, Tcor, Htot, Hcor, <- Htarget, Htg.
  assert (Hpos : 0 < Z.of_nat (length (Text (Opt_Target opts)))).
  { destruct (Text (Opt_Target opts)); [congruence | simpl; lia]. }
  split; [exact Hfin|]. split; [exact Hab|]. split; [reflexivity|].
  split; [|repeat split].
  destruct (Z.ltb_spec 0 (Z.of_nat (length (Text (Opt_Target opts))))); [|lia].
  apply accuracy_full. exact Hpos.
Qed.

(** The target "cat dog", typed with a tick after every key, an Enter key
    and a tick after the end. *)
Definition events_C6 : list Event :=
  [EvRune 99; EvTick; EvRune 97; EvTick; EvKey KeyTypeEnter 0; EvRune 116;
   EvTick; EvRune 32; EvTick; EvRune 100; EvTick; EvRune 111; EvTick;
   EvRune 103; EvTick; EvTimer].

Lemma C6_exact_typing_finishes_witness :
  Target_Mode (Opt_Target (words [99; 97; 116; 32; 100; 111; 103])) <> ModeTimer
  /\ Text (Opt_Target (words [99; 97; 116; 32; 100; 111; 103])) <> []
  /\ Z.of_nat (length (Text (Opt_Target (words [99; 97; 116; 32; 100; 111; 103])))) < 2 ^ 63
  /\ runes_typed events_C6 = Text (Opt_Target (words [99; 97; 116; 32; 100; 111; 103]))
  /\ forallb no_erasure events_C6 = true
  /\ exists res w',
       (run events_C6 ;;; GetResult)
         (fresh (words [99; 97; 116; 32; 100; 111; 103]) (steady 150000000))
       = Done (res, w')
       /\ Finished (state (sess w')) = true
       /\ Aborted (state (sess w')) = false
       /\ TypedRunes (state (sess w')) = [99; 97; 116; 32; 100; 111; 103]
       /\ (Result_Accuracy res == 100)%Q
       /\ Result_TotalTyped res = 7
       /\ Result_CorrectChars res = 7
       /\ Result_TargetLen res = 7.
Proof.
  assert (H1 : Target_Mode (Opt_Target (words [99; 97; 116; 32; 100; 111; 103]))
               <> ModeTimer) by discriminate.
  assert (H2 : Text (Opt_Target (words [99; 97; 116; 32; 100; 111; 103])) <> [])
    by discriminate.
  assert (H3 : Z.of_nat (length (Text (Opt_Target
                 (words [99; 97; 116; 32; 100; 111; 103])))) < 2 ^ 63)
    by reflexivity.
  split; [exact H1|]. split; [exact H2|]. split; [exact H3|].
  split; [reflexivity|]. split; [reflexivity|].
  exact (C6_exact_typing_finishes (words [99; 97; 116; 32; 100; 111; 103])
           (steady 150000000) events_C6 H1 H2 H3 eq_refl eq_refl).
Defined.

(* ------------------------------------------------------------------ *)
(** ** Accuracy and runes removed by backspace *)

(** Whether event [e], arriving in session [s], removes a typed rune: a
    Backspace key on a live session with a non-empty typed buffer. *)
Definition removes (e : Event) (s : Session) : nat :=
  match e with
  | EvKey k _ =>
      if negb (IsFinished s) && (k =? KeyTypeBackspace)
         && negb (length (TypedRunes (state s)) =? 0)%nat
      then 1 else 0
  | _ => 0
  end.

(** The number of typed runes that the events [evs], run from [w], remove. *)
Fixpoint removed (evs : list Event) (w : World) : nat :=
  match evs with
  | [] => 0
  | e :: evs' =>
      removes e (sess w)
      + match apply e w with
        | Done (_, w') => removed evs' w'
        | Panic _ => 0
        end
  end.

(** [totalTyped] minus the length of the typed buffer. *)
Definition surplus (s : Session) : Z :=
  totalTyped (metrics s) - Z.of_nat (length (TypedRunes (state s))).

Lemma surplus_typing s s' : typing s = typing s' -> surplus s = surplus s'.
Proof. unfold typing, surplus. intros E. injection E as _ _ -> _ -> _. reflexivity. Qed.

Lemma surplus_key_step n k r s :
  shape s -> counters n s -> n < 2 ^ 63 - 1 ->
  surplus (key_step k r s)
  = surplus s
    + Z.of_nat (if (k =? KeyTypeBackspace)
                   && negb (length (TypedRunes (state s)) =? 0)%nat
                then 1 else 0).
Proof.
  intros [Hle Hcs] (_ & Hty & Hk) Hn. unfold key_step, surplus.
  destruct (Z.eqb_spec k KeyTypeRune) as [->|Hk0].
  - simpl.
    destruct (Nat.leb_spec (length (TargetRunes (state s)))
                           (length (TypedRunes (state s)))); [lia|].
    unfold rune_step. simpl. rewrite length_app. simpl.
    rewrite incr_small by lia. lia.
  - destruct (k =? KeyTypeBackspace); simpl; [|lia].
    destruct (Nat.eqb_spec (length (TypedRunes (state s))) 0) as [E|E]; simpl; [lia|].
    unfold backspace_step. simpl. rewrite length_take. lia.
Qed.

Lemma surplus_event_w n e w :
  inv (sess w) -> counters n (sess w) -> n < 2 ^ 63 - 1 ->
  surplus (sess (event_w e w)) = surplus (sess w) + Z.of_nat (removes e (sess w)).
Proof.
  intros (Hs & _ & _) Hc Hn.
  rewrite (surplus_typing _ _ (typing_event_w e w)).
  destruct e as [k r| | |]; simpl; try lia.
  destruct (IsFinished (sess w)); simpl; [lia|].
  apply (surplus_key_step n); assumption.
Qed.

Lemma surplus_run evs : forall n w w',
  inv (sess w) -> counters n (sess w) ->
  n + Z.of_nat (length evs) < 2 ^ 63 ->
  run evs w = Done (tt, w') ->
  surplus (sess w') = surplus (sess w) + Z.of_nat (removed evs w).
Proof.
  induction evs as [|e evs IH]; intros n w w' Hi Hc Hn H.
  - injection H as <-. simpl. lia.
  - cbn [length] in Hn. rewrite Nat2Z.inj_succ in Hn.
    rewrite run_cons in H. cbn [removed].
    destruct (apply e w) as [[[] w1]|f] eqn:E; [|discriminate].
    pose proof (apply_Done _ _ _ Hi E) as ->.
    rewrite (IH (n + 1) (event_w e w) w'); [| | | |exact H].
    + rewrite (surplus_event_w n e w Hi Hc) by lia. lia.
    + apply inv_event_w, Hi.
    + apply counters_event_w; [exact Hi | exact Hc | lia].
    + lia.
Qed.

Lemma all_correct_counts cs :
  forallb is_correct cs = true ->
  count_if is_correct cs = length cs /\ count_if attempted cs = length cs.
Proof.
  induction cs as [|x cs IH]; simpl; [auto|].
  intros H. apply andb_prop in H as [Hx Hcs].
  destruct (IH Hcs) as [-> ->]. rewrite Hx.
  destruct x; try discriminate. auto.
Qed.

Lemma all_correct_typed typed : forall target,
  length typed = length target ->
  forallb is_correct (verdicts typed target) = true ->
  typed = target.
Proof.
  induction typed as [|r typed IH]; intros [|t target] Hl Hall;
    try discriminate; [reflexivity|].
  unfold verdicts in Hall. simpl in Hall, Hl.
  apply andb_prop in Hall as [Hv Hall].
  unfold verdict in Hv. destruct (Z.eqb_spec r t) as [->|]; [|discriminate].
  f_equal. apply IH; [lia | exact Hall].
Qed.

(** C1, as the code has it.  [totalTyped] counts every rune that
    [handleRune] accepts and no backspace lowers it, while [correctChars]
    follows the current verdicts.  So when a session ends with every
    verdict Correct, [GetResult] reports [CorrectChars = len(target)] and
    [TotalTyped = len(target) + removed], where [removed] is the number of
    typed runes that backspaces removed, and
    [Accuracy = len(target) / TotalTyped * 100]: for a non-empty target it
    is 100 exactly when no typed rune was removed. *)
Theorem C1_accuracy_counts_removed_runes
  (opts : SessionOptions) (c : Clock) (evs : list Event)
  (res : SessionResult) (w' : World)
  (Hbound : Z.of_nat (length evs) < 2 ^ 63)
  (Hrun : (run evs ;;; GetResult) (fresh opts c) = Done (res, w'))
  (Hall : forallb is_correct (CharStates (state (sess w'))) = true) :
  let len := Z.of_nat (length (Text (Opt_Target opts))) in
  let gone := Z.of_nat (removed evs (fresh opts c)) in
  TypedRunes (state (sess w')) = Text (Opt_Target opts)
  /\ Result_CorrectChars res = len
  /\ Result_TotalTyped res = len + gone
  /\ (Text (Opt_Target opts) <> [] ->
      (Result_Accuracy res == inject_Z len / inject_Z (len + gone) * 100)%Q
      /\ ((Result_Accuracy res == 100)%Q <-> gone = 0)).
Proof.
  cbv zeta.
  destruct (run_result_inv evs (fresh opts c) res w' (inv_new opts) Hrun)
    as (Hplay & Hw' & Hres).
  pose proof (run_inv _ (fresh opts c) _ (inv_new opts) Hplay) as (Hs & _ & _).
  pose proof (counters_play evs 0 (fresh opts c) (inv_new opts)
                (counters_new opts) ltac:(lia)) as Hc.
  pose proof (surplus_run evs 0 (fresh opts c) _ (inv_new opts)
                (counters_new opts) ltac:(lia) Hplay) as Hsur.
  pose proof (target_play evs (fresh opts c)) as [Htg _].
  pose proof (typing_final_w (play evs (fresh opts c))) as T.
  rewrite <- Hw' in T.
  assert (Hs' : shape (sess w')) by (apply (shape_typing _ _ (eq_sym T) Hs)).
  assert (Hc' : counters (0 + Z.of_nat (length evs)) (sess w'))
    by (apply (counters_typing _ _ _ (eq_sym T) Hc)).
  rewrite <- (surplus_typing _ _ T) in Hsur.
  unfold typing in T. injection T as _ Ttarget _ _ _ _.
  rewrite Htg in Ttarget. cbn [fresh sess NewSession state TargetRunes] in Ttarget.
  destruct (shape_counts _ Hs') as [Hatt Hlen].
  destruct (all_correct_counts _ Hall) as [Hcor Hatt'].
  destruct Hc' as (Hcc & _ & _).
  rewrite Hcor, Hlen, Ttarget in Hcc.
  rewrite Hatt', Hlen, Ttarget in Hatt.
  unfold surplus in Hsur. rewrite Hatt in Hsur.
  change (surplus (sess (fresh opts c))) with 0 in Hsur.
  change (totalTyped (metrics (sess (fresh opts c)))) with 0 in Hsur.
  cbn [fresh sess NewSession state TypedRunes length] in Hsur.
  assert (Htot : totalTyped (metrics (sess w'))
                 = Z.of_nat (length (Text (Opt_Target opts)))
                   + Z.of_nat (removed evs (fresh opts c))) by lia.
  assert (Htyped : TypedRunes (state (sess w')) = Text (Opt_Target opts)).
  { destruct Hs' as [_ Hcs]. rewrite Ttarget in Hcs. rewrite Hcs in Hall.
    apply all_correct_typed; [exact Hatt | exact Hall]. }
  split; [exact Htyped|].
  rewrite Hres. unfold result_of.
  cbn [Result_Accuracy Result_TotalTyped Result_CorrectChars].
  rewrite Hcc, Htot.
  split; [reflexivity|]. split; [reflexivity|].
  intros Hne.
  assert (Hpos : 0 < Z.of_nat (length (Text (Opt_Target opts))))
    by (destruct (Text (Opt_Target opts)); [congruence | simpl; lia]).
  set (len := Z.of_nat (length (Text (Opt_Target opts)))) in *.
  set (gone := Z.of_nat (removed evs (fresh opts c))) in *.
  assert (Hgone : 0 <= gone) by (unfold gone; lia).
  destruct (Z.ltb_spec 0 (len + gone)); [|lia].
  split; [reflexivity|].
  rewrite (accuracy_100_iff len (len + gone)) by lia. lia.
Qed.

(** Target "cat"; typed: c, b, backspace, a, t. *)
Definition events_C1 : list Event :=
  [EvRune 99; EvRune 98; EvBackspace; EvRune 97; EvRune 116].

Definition world_C1 : World :=
  final_w (play events_C1 (fresh (words [99; 97; 116]) (steady 1000))).

Lemma run_C1 :
  (run events_C1 ;;; GetResult) (fresh (words [99; 97; 116]) (steady 1000))
  = Done (result_of (sess world_C1), world_C1).
Proof.
  rewrite (bind_Done _ _ _ _ _
             (run_play events_C1 (fresh (words [99; 97; 116]) (steady 1000))
                (inv_new _) eq_refl)).
  apply GetResult_eq.
Qed.

Lemma C1_accuracy_counts_removed_runes_witness :
  Z.of_nat (length events_C1) < 2 ^ 63
  /\ forallb is_correct (CharStates (state (sess world_C1))) = true
  /\ Result_CorrectChars (result_of (sess world_C1)) = 3
  /\ Result_TotalTyped (result_of (sess world_C1)) = 4.
Proof.
  assert (H1 : Z.of_nat (length events_C1) < 2 ^ 63) by reflexivity.
  assert (H2 : forallb is_correct (CharStates (state (sess world_C1))) = true)
    by (vm_compute; reflexivity).
  split; [exact H1|]. split; [exact H2|].
  pose proof (C1_accuracy_counts_removed_runes (words [99; 97; 116]) (steady 1000)
                events_C1 (result_of (sess world_C1)) world_C1 H1 run_C1 H2)
    as (_ & Hc & Ht & _).
  split; [exact Hc|].
  rewrite Ht. vm_compute. reflexivity.
Defined.

(** C1 as stated fails.  Target "cat" in Words mode; the user types c, b,
    erases the b, and types a, t.  The one incorrect keystroke was removed
    by backspace, the session is Finished with every verdict Correct, and
    [GetResult] reports an accuracy of 75, not 100. *)
Lemma C1_corrected_error_lowers_accuracy :
  exists res w',
    (run events_C1 ;;; GetResult) (fresh (words [99; 97; 116]) (steady 1000))
    = Done (res, w')
    /\ Target_Mode (State_Target (state (sess w'))) <> ModeTimer
    /\ Finished (state (sess w')) = true
    /\ TypedRunes (state (sess w')) = [99; 97; 116]
    /\ CharStates (state (sess w')) = [CharCorrect; CharCorrect; CharCorrect]
    /\ (Result_Accuracy res == 75)%Q
    /\ ~ (Result_Accuracy res == 100)%Q.
Proof.
  exists (result_of (sess world_C1)), world_C1.
  split; [exact run_C1|].
  split; [vm_compute; discriminate|].
  split; [vm_compute; reflexivity|].
  split; [vm_compute; reflexivity|].
  split; [vm_compute; reflexivity|].
  split; [vm_compute; reflexivity|].
  vm_compute. discriminate.
Qed.

(* ------------------------------------------------------------------ *)
(** ** Further properties of the session *)

(** Keys and sampling ticks, the two events the session guards itself. *)
Definition quiet (e : Event) : bool :=
  match e with
  | EvKey _ _ | EvTick => true
  | _ => false
  end.

Lemma TakeSample_terminal w :
  IsFinished (sess w) = true -> TakeSample w = Done (tt, w).
Proof.
  unfold IsFinished, TakeSample, bind, get. intros H.
  rewrite <- orb_assoc, H, orb_true_r. reflexivity.
Qed.

(** Once a session is finished or aborted, keys and sampling ticks are
    discarded: any sequence of [HandleKey] and [TakeSample] calls returns
    with the session unchanged, and without reading the clock. *)
Theorem late_keys_and_ticks_are_ignored (w : World) (evs : list Event)
  (Hend : IsFinished (sess w) = true)
  (Hquiet : forallb quiet evs = true) :
  run evs w = Done (tt, w).
Proof.
  induction evs as [|e evs IH]; [reflexivity|].
  simpl in Hquiet. apply andb_prop in Hquiet as [He Hq].
  rewrite run_cons.
  destruct e as [k r| | |]; try discriminate; simpl.
  - rewrite (HandleKey_terminal k r w Hend). apply IH, Hq.
  - rewrite (TakeSample_terminal w Hend). apply IH, Hq.
Qed.

Definition world_ended : World :=
  play [EvRune 97] (fresh (words [97]) (steady 1000)).

Lemma late_keys_and_ticks_are_ignored_witness :
  IsFinished (sess world_ended) = true
  /\ run [EvRune 98; EvTick; EvBackspace] world_ended = Done (tt, world_ended).
Proof.
  assert (H : IsFinished (sess world_ended) = true) by (vm_compute; reflexivity).
  split; [exact H|].
  apply (late_keys_and_ticks_are_ignored world_ended
           [EvRune 98; EvTick; EvBackspace] H).
  reflexivity.
Defined.

(** Outside Timer mode a session is finished only with a full buffer. *)
Definition full_when_finished (s : Session) : Prop :=
  Target_Mode (State_Target (state s)) <> ModeTimer ->
  Finished (state s) = true ->
  (length (TargetRunes (state s)) <= length (TypedRunes (state s)))%nat.

Lemma Finished_tick_w w :
  Finished (state (sess (tick_w w))) = Finished (state (sess w)).
Proof. unfold tick_w. destruct (_ || _ || _); [reflexivity | apply Finished_sample_w]. Qed.

Lemma Finished_abort_w w :
  Finished (state (sess (abort_w w))) = Finished (state (sess w)).
Proof. unfold abort_w. simpl. destruct (timerDone (sess w)); reflexivity. Qed.

Lemma full_when_finished_typing s s' :
  typing s = typing s' -> Finished (state s) = Finished (state s') ->
  full_when_finished s -> full_when_finished s'.
Proof.
  unfold typing, full_when_finished. intros E F.
  injection E as -> -> -> _ _ _. rewrite F. auto.
Qed.

Lemma full_when_finished_event_w e w :
  inv (sess w) -> full_when_finished (sess w) ->
  full_when_finished (sess (event_w e w)).
Proof.
  intros (Hs & Hok & _) H.
  destruct e as [k r| | |]; simpl.
  - destruct (IsFinished (sess w)) eqn:Hlive.
    + unfold key_world. rewrite Hlive. exact H.
    + destruct (key_world_live k r w Hlive) as (_ & _ & Hfin & _).
      intros Hm Hf. rewrite Hfin in Hf. unfold complete in Hf.
      apply andb_prop in Hf as [_ Hf]. apply Nat.leb_le. exact Hf.
  - apply (full_when_finished_typing (sess w));
      [symmetry; apply typing_tick_w | symmetry; apply Finished_tick_w | exact H].
  - apply (full_when_finished_typing (sess w));
      [symmetry; apply typing_abort_w | symmetry; apply Finished_abort_w | exact H].
  - unfold timer_w. destruct (timerDone (sess w)) eqn:E; try exact H.
    intros Hm _. simpl in Hm. rewrite (Hok Hm) in E. discriminate.
Qed.

Lemma full_when_finished_play evs : forall w,
  inv (sess w) -> full_when_finished (sess w) ->
  full_when_finished (sess (play evs w)).
Proof.
  induction evs as [|e evs IH]; intros w Hi H; [exact H|].
  cbn [play]. apply IH; [apply inv_event_w, Hi|].
  apply full_when_finished_event_w; assumption.
Qed.

(** In a mode other than Timer, a reachable session is Finished only when
    the typed buffer has exactly the length of the target: nothing but the
    completion check of [HandleKey] ever finishes such a session. *)
Theorem finished_means_target_typed (w : World)
  (Hreach : reachable w)
  (Hmode : Target_Mode (State_Target (state (sess w))) <> ModeTimer)
  (Hfin : Finished (state (sess w)) = true) :
  length (TypedRunes (state (sess w))) = length (TargetRunes (state (sess w))).
Proof.
  destruct (reachable_inv w Hreach) as ([Hle _] & _ & _).
  destruct Hreach as (opts & c & evs & Hrun).
  pose proof (run_Done_play evs (fresh opts c) w (inv_new opts) Hrun) as ->.
  pose proof (full_when_finished_play evs (fresh opts c) (inv_new opts)) as H.
  assert (H0 : full_when_finished (sess (fresh opts c)))
    by (intros _ F; discriminate F).
  specialize (H H0 Hmode Hfin). lia.
Qed.

Lemma finished_means_target_typed_witness :
  reachable world_ended
  /\ length (TypedRunes (state (sess world_ended)))
     = length (TargetRunes (state (sess world_ended))).
Proof.
  assert (R : reachable world_ended).
  { exists (words [97]), (steady 1000), [EvRune 97].
    apply run_play; [apply inv_new | reflexivity]. }
  split; [exact R|].
  apply (finished_means_target_typed world_ended R).
  - vm_compute. discriminate.
  - vm_compute. reflexivity.
Defined.

Lemma IsFinished_sample_w w :
  IsFinished (sess (sample_w w)) = IsFinished (sess w).
Proof.
  unfold IsFinished, sample_w. destruct (IsZero _); [reflexivity|].
  destruct (due _ _); reflexivity.
Qed.

Lemma timer_mode_event_live e w :
  quiet e = true ->
  Target_Mode (State_Target (state (sess w))) = ModeTimer ->
  IsFinished (sess w) = false ->
  Target_Mode (State_Target (state (sess (event_w e w)))) = ModeTimer
  /\ IsFinished (sess (event_w e w)) = false.
Proof.
  intros Hq Hmode Hlive. destruct e as [k r| | |]; try discriminate; simpl.
  - destruct (key_world_live k r w Hlive) as (T & Hab & Hfin & _).
    assert (Hm : Target_Mode (State_Target (state (sess (key_world k r w))))
                 = ModeTimer).
    { unfold typing in T. injection T as -> _ _ _ _ _.
      destruct (typing_key_step_target k r (sess w)) as [-> _]. exact Hmode. }
    split; [exact Hm|].
    unfold IsFinished. rewrite Hfin, Hab. unfold complete. rewrite Hm. reflexivity.
  - unfold tick_w. destruct (_ || _ || _); [split; assumption|].
    rewrite IsFinished_sample_w. split; [|exact Hlive].
    pose proof (typing_sample_w w) as T. unfold typing in T.
    injection T as -> _ _ _ _ _. exact Hmode.
Qed.

(** In Timer mode no sequence of keys and sampling ticks ends the session,
    however much of the target has been typed: the session stays neither
    Finished nor Aborted until the duration timer fires or [Abort] is
    called. *)
Theorem timer_mode_keys_never_finish (opts : SessionOptions) (c : Clock)
  (evs : list Event)
  (Hmode : Target_Mode (Opt_Target opts) = ModeTimer)
  (Hquiet : forallb quiet evs = true) :
  exists w',
    run evs (fresh opts c) = Done (tt, w')
    /\ Finished (state (sess w')) = false
    /\ Aborted (state (sess w')) = false.
Proof.
  exists (play evs (fresh opts c)).
  split.
  { apply run_play; [apply inv_new|].
    clear Hmode. induction evs as [|e evs IH]; [reflexivity|].
    simpl in *. apply andb_prop in Hquiet as [He Hq].
    rewrite (IH Hq), andb_true_r. destruct e; auto; discriminate. }
  assert (H : Target_Mode (State_Target (state (sess (play evs (fresh opts c)))))
              = ModeTimer
              /\ IsFinished (sess (play evs (fresh opts c))) = false).
  { assert (H0 : Target_Mode (State_Target (state (sess (fresh opts c)))) = ModeTimer
                 /\ IsFinished (sess (fresh opts c)) = false)
      by (split; [exact Hmode | reflexivity]).
    revert H0. generalize (fresh opts c).
    induction evs as [|e evs IH]; intros w [Hm Hl]; [split; assumption|].
    simpl in Hquiet. apply andb_prop in Hquiet as [He Hq].
    cbn [play]. apply (IH Hq). apply timer_mode_event_live; assumption. }
  destruct H as [_ H]. unfold IsFinished in H.
  apply orb_false_elim in H. exact H.
Qed.

Lemma timer_mode_keys_never_finish_witness :
  Target_Mode (Opt_Target (timed [97] 15)) = ModeTimer
  /\ exists w',
       run [EvRune 97; EvRune 98; EvTick] (fresh (timed [97] 15) (steady 1000))
       = Done (tt, w')
       /\ Finished (state (sess w')) = false
       /\ Aborted (state (sess w')) = false.
Proof.
  split; [reflexivity|].
  apply (timer_mode_keys_never_finish (timed [97] 15) (steady 1000)
           [EvRune 97; EvRune 98; EvTick]); reflexivity.
Defined.

Lemma verdicts_lookup typed : forall target i,
  (length typed <= length target)%nat ->
  verdicts typed target !! i
  = match target !! i with
    | None => None
    | Some t => Some match typed !! i with
                     | Some r => verdict r t
                     | None => CharUnattempted
                     end
    end.
Proof.
  induction typed as [|r typed IH]; intros target i Hle.
  - unfold verdicts. simpl. rewrite Nat.sub_0_r.
    destruct (target !! i) as [t|] eqn:E.
    + apply lookup_replicate_2. apply lookup_lt_is_Some. eauto.
    + apply lookup_replicate_None. apply lookup_ge_None. exact E.
  - destruct target as [|t target]; [simpl in Hle; lia|].
    destruct i as [|i]; [reflexivity|].
    simpl in Hle. apply (IH target i). lia.
Qed.

(** In every reachable state the verdict at each target position is
    decided by exact comparison of the rune typed there with the target
    rune: Correct when they are equal, Incorrect when they differ, and
    Unattempted at the positions not yet typed. *)
Theorem verdicts_compare_runes (w : World) (i : nat) (Hreach : reachable w) :
  CharStates (state (sess w)) !! i
  = match TargetRunes (state (sess w)) !! i with
    | None => None
    | Some t =>
        Some match TypedRunes (state (sess w)) !! i with
             | Some r => if r =? t then CharCorrect else CharIncorrect
             | None => CharUnattempted
             end
    end.
Proof.
  destruct (reachable_inv w Hreach) as ([Hle Hcs] & _ & _).
  rewrite Hcs. apply verdicts_lookup. exact Hle.
Qed.

Definition world_cb : World :=
  play [EvRune 99; EvRune 98] (fresh (words [99; 97; 116]) (steady 1000)).

Lemma verdicts_compare_runes_witness :
  reachable world_cb
  /\ CharStates (state (sess world_cb)) !! 1%nat = Some CharIncorrect.
Proof.
  assert (R : reachable world_cb).
  { exists (words [99; 97; 116]), (steady 1000), [EvRune 99; EvRune 98].
    apply run_play; [apply inv_new | reflexivity]. }
  split; [exact R|].
  rewrite (verdicts_compare_runes world_cb 1 R). vm_compute. reflexivity.
Defined.

(** Along every execution of fewer than [2^63] events, [correctChars] is
    the number of verdicts that are currently Correct, and [totalTyped]
    lies between the length of the typed buffer and the number of events. *)
Theorem counters_follow_verdicts (opts : SessionOptions) (c : Clock)
  (evs : list Event) (w' : World)
  (Hbound : Z.of_nat (length evs) < 2 ^ 63)
  (Hrun : run evs (fresh opts c) = Done (tt, w')) :
  correctChars (metrics (sess w'))
  = Z.of_nat (count_if is_correct (CharStates (state (sess w'))))
  /\ Z.of_nat (length (TypedRunes (state (sess w')))) <= totalTyped (metrics (sess w'))
  /\ totalTyped (metrics (sess w')) <= Z.of_nat (length evs).
Proof.
  pose proof (run_Done_play evs (fresh opts c) w' (inv_new opts) Hrun) as ->.
  exact (counters_play evs 0 (fresh opts c) (inv_new opts)
           (counters_new opts) ltac:(lia)).
Qed.

Lemma counters_follow_verdicts_witness :
  Z.of_nat (length [EvRune 99; EvRune 98]) < 2 ^ 63
  /\ correctChars (metrics (sess world_cb)) = 1.
Proof.
  assert (H : Z.of_nat (length [EvRune 99; EvRune 98]) < 2 ^ 63) by reflexivity.
  split; [exact H|].
  rewrite (proj1 (counters_follow_verdicts (words [99; 97; 116]) (steady 1000)
                    [EvRune 99; EvRune 98] world_cb H
                    (run_play [EvRune 99; EvRune 98]
                       (fresh (words [99; 97; 116]) (steady 1000))
                       (inv_new _) eq_refl))).
  vm_compute. reflexivity.
Defined.

(* ------------------------------------------------------------------ *)
(** ** The time line of the samples *)

(** Clocks whose readings never go back, and never are the zero time. *)
Definition monotone (c : Clock) : Prop := forall n, c n <= c (S n).
Definition nonzero (c : Clock) : Prop := forall n, IsZero (c n) = false.

Definition ascending (l : list Z) : Prop :=
  forall i j x y, (i <= j)%nat -> l !! i = Some x -> l !! j = Some y -> x <= y.

Definition times (w : World) : list Z := map TimeMs (samples (metrics (sess w))).

Definition elapsed_ms (w : World) : Z :=
  Milliseconds (Sub (clock w O) (StartedAt (state (sess w)))).

(** Before the start there is no sample; after it the first sample is the
    initial one, the samples ascend, and none lies after the next reading
    of the clock. *)
Definition timeline (w : World) : Prop :=
  monotone (clock w) /\ nonzero (clock w)
  /\ if IsZero (StartedAt (state (sess w)))
     then samples (metrics (sess w)) = []
     else StartedAt (state (sess w)) <= clock w O
          /\ (exists more, samples (metrics (sess w)) = mkSample 0 0 0 :: more)
          /\ ascending (times w)
          /\ Forall (fun t => t <= elapsed_ms w) (times w).

Lemma monotone_tail c : monotone c -> monotone (tail c).
Proof. intros H n. apply H. Qed.

Lemma nonzero_tail c : nonzero c -> nonzero (tail c).
Proof. intros H n. apply H. Qed.

Lemma ascending_snoc l x :
  ascending l -> Forall (fun y => y <= x) l -> ascending (l ++ [x]).
Proof.
  intros Hl Hx i j a b Hij Hi Hj.
  rewrite Forall_lookup in Hx.
  apply lookup_app_Some in Hj as [Hj|[Hjl Hj]].
  - assert (Hil : (i < length l)%nat)
      by (apply lookup_lt_Some in Hj; lia).
    rewrite lookup_app_l in Hi by exact Hil.
    apply (Hl i j); assumption.
  - apply list_lookup_singleton_Some in Hj as [_ <-].
    apply lookup_app_Some in Hi as [Hi|[_ Hi]].
    + apply (Hx i). exact Hi.
    + apply list_lookup_singleton_Some in Hi as [_ <-]. lia.
Qed.

Lemma Sub_nonneg t u : u <= t -> 0 <= Sub t u.
Proof. unfold Sub, minDuration, maxDuration. lia. Qed.

Lemma Milliseconds_nonneg d : 0 <= d -> 0 <= Milliseconds d.
Proof.
  intros H. unfold Milliseconds, Millisecond.
  rewrite Z.quot_div_nonneg by lia. apply Z.div_pos; lia.
Qed.

Lemma elapsed_mono st t1 t2 :
  st <= t1 -> t1 <= t2 ->
  Milliseconds (Sub t1 st) <= Milliseconds (Sub t2 st).
Proof.
  intros H1 H2. apply Milliseconds_mono. split.
  - apply Sub_nonneg, H1.
  - apply Sub_mono, H2.
Qed.

(** A step that keeps start and samples and reads the clock at most once. *)
Lemma timeline_advance w w' :
  timeline w ->
  StartedAt (state (sess w')) = StartedAt (state (sess w)) ->
  samples (metrics (sess w')) = samples (metrics (sess w)) ->
  clock w' = clock w \/ clock w' = tail (clock w) ->
  timeline w'.
Proof.
  intros (Hm & Hz & H) Hst Hsm Hc. unfold timeline, times, elapsed_ms in *.
  rewrite Hst, Hsm.
  destruct Hc as [->| ->]; [auto|].
  split; [apply monotone_tail, Hm|]. split; [apply nonzero_tail, Hz|].
  destruct (IsZero (StartedAt (state (sess w)))); [exact H|].
  destruct H as (Hle & Hfirst & Hasc & Hall).
  split; [specialize (Hm O); unfold tail; lia|].
  split; [exact Hfirst|]. split; [exact Hasc|].
  eapply Forall_impl; [exact Hall|]. intros t Ht. simpl in Ht.
  pose proof (elapsed_mono (StartedAt (state (sess w))) (clock w O) (tail (clock w) O)
                Hle (Hm O)).
  lia.
Qed.

Lemma timeline_start_w w : timeline w -> timeline (start_w w).
Proof.
  intros H. unfold start_w.
  destruct (IsZero (StartedAt (state (sess w)))) eqn:E; [|exact H].
  destruct H as (Hm & Hz & H). rewrite E in H.
  unfold timeline, times, elapsed_ms, started. cbn [sess clock state metrics
    StartedAt samples set_StartedAt set_samples set_lastSampleTime].
  rewrite H, (Hz O). simpl.
  split; [apply monotone_tail, Hm|]. split; [apply nonzero_tail, Hz|].
  split; [apply (Hm O)|]. split; [exists []; reflexivity|].
  split.
  - intros i j x y _ Hi Hj.
    apply list_lookup_singleton_Some in Hi as [_ <-].
    apply list_lookup_singleton_Some in Hj as [_ <-]. lia.
  - constructor; [|constructor].
    apply Milliseconds_nonneg, Sub_nonneg, (Hm O).
Qed.

Lemma timeline_sample_w w : timeline w -> timeline (sample_w w).
Proof.
  intros H. unfold sample_w.
  destruct (IsZero (StartedAt (state (sess w)))) eqn:E; [exact H|].
  destruct (due (clock w O) (sess w)).
  - destruct H as (Hm & Hz & H). rewrite E in H.
    destruct H as (Hle & [more Hfirst] & Hasc & Hall).
    unfold timeline, times, elapsed_ms in *.
    cbn [sess clock sampled on_metrics state metrics StartedAt samples
         set_samples set_lastSampleTime].
    rewrite E, map_app. simpl.
    split; [apply monotone_tail, Hm|]. split; [apply nonzero_tail, Hz|].
    split; [specialize (Hm O); unfold tail; lia|].
    split; [exists (more ++ [calculateSample (sess w)
                      (Sub (clock w O) (StartedAt (state (sess w))))]);
            rewrite Hfirst; reflexivity|].
    pose proof (elapsed_mono (StartedAt (state (sess w))) (clock w O)
                  (tail (clock w) O) Hle (Hm O)) as Hstep.
    split.
    + apply ascending_snoc; assumption.
    + apply Forall_app. split.
      * eapply Forall_impl; [exact Hall|]. intros t Ht. simpl in Ht. lia.
      * constructor; [exact Hstep | constructor].
  - apply (timeline_advance w); auto.
Qed.

Lemma clock_key_w k r w : clock (key_w k r w) = clock w.
Proof. reflexivity. Qed.

Lemma timeline_event_w e w : timeline w -> timeline (event_w e w).
Proof.
  intros H. destruct e as [k r| | |]; simpl.
  - unfold key_world. destruct (IsFinished (sess w)); [exact H|].
    apply timeline_sample_w.
    assert (H1 : timeline (key_w k r (start_w w))).
    { apply (timeline_advance (start_w w)); [apply timeline_start_w, H | | |auto].
      - pose proof (header_key_step k r (sess (start_w w))) as E.
        unfold header in E. injection E as _ _ E _ _ _. exact E.
      - apply samples_key_step. }
    unfold finish_w. destruct (complete _); [|exact H1].
    apply (timeline_advance (key_w k r (start_w w))); auto.
  - unfold tick_w. destruct (_ || _ || _); [exact H | apply timeline_sample_w, H].
  - apply (timeline_advance w); [exact H | | |right; reflexivity];
      unfold abort_w; simpl; destruct (timerDone (sess w)); reflexivity.
  - unfold timer_w. destruct (timerDone (sess w)); try exact H.
    apply (timeline_advance w); auto.
Qed.

Lemma timeline_play evs : forall w, timeline w -> timeline (play evs w).
Proof.
  induction evs as [|e evs IH]; intros w H; [exact H|].
  cbn [play]. apply IH, timeline_event_w, H.
Qed.

Lemma timeline_fresh opts c : monotone c -> nonzero c -> timeline (fresh opts c).
Proof. intros Hm Hz. split; [exact Hm|]. split; [exact Hz|]. reflexivity. Qed.

(** With a clock that never goes back and never reads the zero time, the
    samples a session holds (before [GetResult] adds the final one) are in
    non-decreasing order of [TimeMs] and none is negative; there is none
    before the start, and from the start on the first is [{0, 0, 0}]. *)
Theorem recorded_samples_ascend (opts : SessionOptions) (c : Clock)
  (evs : list Event) (w' : World)
  (Hmono : monotone c) (Hnonzero : nonzero c)
  (Hrun : run evs (fresh opts c) = Done (tt, w')) :
  ascending (map TimeMs (samples (metrics (sess w'))))
  /\ Forall (fun s => 0 <= TimeMs s) (samples (metrics (sess w')))
  /\ (IsZero (StartedAt (state (sess w'))) = true ->
      samples (metrics (sess w')) = [])
  /\ (IsZero (StartedAt (state (sess w'))) = false ->
      exists more, samples (metrics (sess w')) = mkSample 0 0 0 :: more).
Proof.
  pose proof (run_Done_play evs (fresh opts c) w' (inv_new opts) Hrun) as ->.
  pose proof (timeline_play evs _ (timeline_fresh opts c Hmono Hnonzero))
    as (_ & _ & H).
  destruct (IsZero (StartedAt (state (sess (play evs (fresh opts c)))))).
  - rewrite H. split; [intros i j x y _ Hi; discriminate Hi|].
    split; [constructor|]. split; [reflexivity | discriminate].
  - destruct H as (_ & [more Hfirst] & Hasc & _).
    split; [exact Hasc|]. split; [|split; [discriminate | eauto]].
    apply Forall_lookup. intros i s Hs.
    unfold times in Hasc.
    apply (Hasc O i 0 (TimeMs s)); [lia | rewrite Hfirst; reflexivity|].
    rewrite list_lookup_fmap, Hs. reflexivity.
Qed.

Lemma steady_monotone step : 0 <= step -> monotone (steady step).
Proof. intros H n. unfold steady. nia. Qed.

Lemma steady_nonzero step : 0 <= step -> nonzero (steady step).
Proof.
  intros H n. unfold steady, IsZero, Second, Millisecond.
  apply Z.eqb_neq. nia.
Qed.

Lemma recorded_samples_ascend_witness :
  monotone (steady 300000000) /\ nonzero (steady 300000000)
  /\ ascending
       (map TimeMs
          (samples (metrics (sess
             (play [EvRune 99; EvTick; EvTick; EvRune 97]
                (fresh (words [99; 97; 116]) (steady 300000000))))))).
Proof.
  assert (Hm : monotone (steady 300000000)) by (apply steady_monotone; lia).
  assert (Hz : nonzero (steady 300000000)) by (apply steady_nonzero; lia).
  split; [exact Hm|]. split; [exact Hz|].
  apply (recorded_samples_ascend (words [99; 97; 116]) (steady 300000000)
           [EvRune 99; EvTick; EvTick; EvRune 97] _ Hm Hz).
  apply run_play; [apply inv_new | reflexivity].
Defined.

(* ------------------------------------------------------------------ *)
(** ** The final sample *)

(** [GetResult] always returns.  It changes nothing but the samples; when
    the session has both started and ended it appends exactly one sample,
    whose time is the duration in milliseconds and whose speeds are the
    [WPM] and [RawWPM] of the result, and otherwise it appends none.  The
    result carries the samples so extended. *)
Theorem final_sample_matches_result (w : World) :
  exists res w',
    GetResult w = Done (res, w')
    /\ state (sess w') = state (sess w)
    /\ totalTyped (metrics (sess w')) = totalTyped (metrics (sess w))
    /\ correctChars (metrics (sess w')) = correctChars (metrics (sess w))
    /\ clock w' = clock w
    /\ Result_Samples res = samples (metrics (sess w'))
    /\ Result_Duration res
       = Sub (EndedAt (state (sess w))) (StartedAt (state (sess w)))
    /\ samples (metrics (sess w'))
       = samples (metrics (sess w))
         ++ (if negb (IsZero (StartedAt (state (sess w))))
                && negb (IsZero (EndedAt (state (sess w))))
             then [mkSample (Milliseconds (Result_Duration res))
                            (Result_WPM res) (Result_RawWPM res)]
             else []).
Proof.
  exists (result_of (sess (final_w w))), (final_w w).
  split; [apply GetResult_eq|].
  destruct w as [[[tg target typed cs st en fin ab] [smp lst itv tot cor] secs td] c].
  unfold final_w, result_of, calculateSample, floor_minutes. simpl.
  destruct (negb (IsZero st) && negb (IsZero en)); simpl;
    rewrite ?app_nil_r; repeat split; reflexivity.
Qed.

(* ------------------------------------------------------------------ *)
(** ** Results of Timer-mode sessions *)

(** Once [EndedAt] is stamped the session is finished or aborted, and no
    recorded sample lies after the end. *)
Definition closing (w : World) : Prop :=
  IsZero (EndedAt (state (sess w))) = false ->
  IsFinished (sess w) = true
  /\ (IsZero (StartedAt (state (sess w))) = false ->
      Forall (fun t => t <= Milliseconds (Sub (EndedAt (state (sess w)))
                                              (StartedAt (state (sess w)))))
             (times w)).

Definition in_timer_mode (w : World) : Prop :=
  Target_Mode (State_Target (state (sess w))) = ModeTimer.

Lemma EndedAt_sample_w w :
  EndedAt (state (sess (sample_w w))) = EndedAt (state (sess w)).
Proof.
  unfold sample_w. destruct (IsZero _); [reflexivity|].
  destruct (due _ _); reflexivity.
Qed.

Lemma EndedAt_key_step k r s : EndedAt (state (key_step k r s)) = EndedAt (state s).
Proof.
  pose proof (frame_key_step k r s) as E. unfold frame in E.
  injection E as _ _ _ E _ _ _ _ _ _ _. exact E.
Qed.

Lemma EndedAt_start_w w :
  EndedAt (state (sess (start_w w))) = EndedAt (state (sess w)).
Proof. unfold start_w. destruct (IsZero _); reflexivity. Qed.

Lemma live_not_ended w :
  closing w -> IsFinished (sess w) = false ->
  IsZero (EndedAt (state (sess w))) = true.
Proof.
  intros H Hlive. destruct (IsZero (EndedAt (state (sess w)))) eqn:E; [reflexivity|].
  destruct (H E) as [Hf _]. congruence.
Qed.

Lemma closing_stamp w w' :
  timeline w ->
  StartedAt (state (sess w')) = StartedAt (state (sess w)) ->
  samples (metrics (sess w')) = samples (metrics (sess w)) ->
  EndedAt (state (sess w')) = clock w O ->
  IsFinished (sess w') = true ->
  closing w'.
Proof.
  intros (_ & _ & H) Hst Hsm Hen Hfin _. split; [exact Hfin|].
  unfold times. rewrite Hst, Hsm, Hen. intros E. rewrite E in H.
  destruct H as (_ & _ & _ & Hall). exact Hall.
Qed.

Lemma closing_event_w e w :
  in_timer_mode w -> timeline w -> closing w ->
  in_timer_mode (event_w e w) /\ closing (event_w e w).
Proof.
  intros Hmode Ht Hc.
  assert (Hm : in_timer_mode (event_w e w)).
  { unfold in_timer_mode in *.
    pose proof (target_play [e] w) as [_ E]. cbn [play] in E. rewrite E. exact Hmode. }
  split; [exact Hm|].
  destruct e as [k r| | |]; simpl in *.
  - destruct (IsFinished (sess w)) eqn:Hlive.
    + unfold key_world. rewrite Hlive. exact Hc.
    + destruct (timer_mode_event_live (EvKey k r) w eq_refl Hmode Hlive) as [_ Hl].
      simpl in Hl. intros E. exfalso.
      assert (E0 : EndedAt (state (sess (key_world k r w))) = EndedAt (state (sess w))).
      { unfold key_world. rewrite Hlive, EndedAt_sample_w.
        unfold finish_w.
        assert (Hcomp : complete (sess (key_w k r (start_w w))) = false).
        { unfold complete, key_w. cbn [sess].
          destruct (typing_key_step_target k r (sess (start_w w))) as [-> _].
          pose proof (typing_start_w w) as T. unfold typing in T.
          injection T as -> _ _ _ _ _. unfold in_timer_mode in Hmode.
          rewrite Hmode. reflexivity. }
        rewrite Hcomp. unfold key_w. cbn [sess].
        rewrite EndedAt_key_step. apply EndedAt_start_w. }
      rewrite E0, (live_not_ended w Hc Hlive) in E. discriminate.
  - unfold tick_w.
    destruct (IsZero (StartedAt (state (sess w))) || Finished (state (sess w))
              || Aborted (state (sess w))) eqn:G; [exact Hc|].
    apply orb_false_elim in G as [G Hab]. apply orb_false_elim in G as [_ Hfi].
    assert (Hlive : IsFinished (sess w) = false)
      by (unfold IsFinished; rewrite Hfi, Hab; reflexivity).
    intros E. rewrite EndedAt_sample_w, (live_not_ended w Hc Hlive) in E.
    discriminate.
  - apply (closing_stamp w); [exact Ht | | | |];
      unfold abort_w, IsFinished; simpl; destruct (timerDone (sess w));
      simpl; rewrite ?orb_true_r; reflexivity.
  - unfold timer_w. destruct (timerDone (sess w)); try exact Hc.
    apply (closing_stamp w); [exact Ht | | | |]; reflexivity.
Qed.

(* ------------------------------------------------------------------ *)
(** ** The live speed *)

(** [Session.GetElapsed]; [time.Since(t)] is [time.Now().Sub(t)]. *)
Definition GetElapsed : M Duration :=
  s <- get ;;
  if IsZero (StartedAt (state s)) then ret 0
  else if negb (IsZero (EndedAt (state s)))
  then ret (Sub (EndedAt (state s)) (StartedAt (state s)))
  else now <- timeNow ;; ret (Sub now (StartedAt (state s))).

(** [Session.GetLiveWPM]. *)
Definition GetLiveWPM : M Q :=
  elapsed <- GetElapsed ;;
  if elapsed <? Second then ret 0%Q
  else
    s <- get ;;
    let minutes := Minutes elapsed in
    ret ((inject_Z (correctChars (metrics s)) / 5) / minutes)%Q.

Lemma Minutes_eq d : (Minutes d == inject_Z d / inject_Z 60000000000)%Q.
Proof.
  unfold Minutes, Minute, Second, Millisecond.
  change (60 * (1000 * 1000000)) with 60000000000.
  pose proof (Z.quot_rem' d 60000000000) as E.
  set (q := Z.quot d 60000000000) in *. set (r := Z.rem d 60000000000) in *.
  clearbody q r. subst d.
  unfold Qeq, Qdiv, Qplus, Qmult, Qinv, inject_Z. simpl. lia.
Qed.

Lemma floor_minutes_long d : Second <= d -> floor_minutes d = Minutes d.
Proof.
  intros H. unfold floor_minutes.
  destruct (Qle_bool (1 # 1000) (Minutes d)) eqn:E; [reflexivity|].
  exfalso. enough (Hle : (1 # 1000 <= Minutes d)%Q).
  { apply Qle_bool_iff in Hle. congruence. }
  rewrite Minutes_eq. unfold Second, Millisecond in H.
  unfold Qle, Qdiv, Qmult, Qinv, inject_Z. simpl. lia.
Qed.

(** [GetLiveWPM] always returns and leaves the session as it is.  It reads
    the clock only while the session runs (started, not ended), and then
    once.  Before the start it reports [0]. *)
Theorem live_wpm_only_reads (w : World) :
  exists v w',
    GetLiveWPM w = Done (v, w')
    /\ sess w' = sess w
    /\ clock w'
       = (if negb (IsZero (StartedAt (state (sess w))))
             && IsZero (EndedAt (state (sess w)))
          then fun n => clock w (S n) else clock w)
    /\ (IsZero (StartedAt (state (sess w))) = true -> v = 0%Q).
Proof.
  destruct w as [[[tg target typed cs st en fin ab] [smp lst itv tot cor] secs td] c].
  unfold GetLiveWPM, GetElapsed, bind, get, ret, timeNow.
  cbn [sess clock state metrics StartedAt EndedAt correctChars].
  destruct (IsZero st) eqn:Est; cbn [negb andb].
  - change (0 <? Second) with true. cbn iota.
    eexists _, _. split; [reflexivity|]. repeat split.
  - destruct (IsZero en) eqn:Een; cbn [negb].
    + cbn [sess clock state metrics StartedAt EndedAt correctChars].
      destruct (Sub (c O) st <? Second);
        (eexists _, _; split; [reflexivity|]); repeat split; discriminate.
    + cbn [sess clock state metrics StartedAt EndedAt correctChars].
      destruct (Sub en st <? Second);
        (eexists _, _; split; [reflexivity|]); repeat split; discriminate.
Qed.

(** After the end of a session that lasted a second or more, the live
    speed is the [WPM] of the result. Under a second the live speed is [0],
    whatever the result says. *)
Theorem live_wpm_agrees_with_result (w : World)
  (Hstarted : IsZero (StartedAt (state (sess w))) = false)
  (Hended : IsZero (EndedAt (state (sess w))) = false) :
  exists res w1,
    GetResult w = Done (res, w1)
    /\ GetLiveWPM w
       = Done (if Result_Duration res <? Second then 0%Q else Result_WPM res, w).
Proof.
  exists (result_of (sess (final_w w))), (final_w w).
  split; [apply GetResult_eq|].
  destruct w as [[[tg target typed cs st en fin ab] [smp lst itv tot cor] secs td] c].
  cbn [sess state StartedAt EndedAt] in Hstarted, Hended.
  unfold GetLiveWPM, GetElapsed, bind, get, ret, final_w, result_of.
  cbn [sess clock state metrics StartedAt EndedAt correctChars].
  rewrite Hstarted, Hended. cbn [negb andb].
  cbn [sess clock state metrics StartedAt EndedAt correctChars on_metrics
       set_samples Result_Duration Result_WPM].
  destruct (Sub en st <? Second) eqn:E; [reflexivity|].
  apply Z.ltb_ge in E. rewrite (floor_minutes_long _ E). reflexivity.
Qed.

Lemma live_wpm_agrees_with_result_witness :
  exists res w1,
    GetResult world_ended = Done (res, w1)
    /\ GetLiveWPM world_ended
       = Done (if Result_Duration res <? Second then 0%Q else Result_WPM res,
               world_ended).
Proof.
  apply (live_wpm_agrees_with_result world_ended); reflexivity.
Defined.

(* ================================================================== *)
(** * The chart renderer ([internal/charts]) *)

(** How a call of the chart code or of the text generator ends when it
    does not return: with the panic of an index out of range
    ([IndexRange]); with the panic of a [make] whose length is negative or
    beyond the limit of the runtime ([MakeLen], "makeslice: len out of
    range"); with the fatal error of the runtime when the memory asked for
    is not obtained ([OutOfMemory]); at a conversion [int(f)] whose
    operand lies outside [int] ([ConvRange]); or with the panic of
    [rand.Intn] on an argument that is not positive ([IntnArg]).
    [ConvRange] is no panic: the language leaves the result of such a
    conversion to the implementation, and on it depends whether the loop
    of [connectPoints] is skipped or never ends, so the model follows the
    call no further. *)
Inductive Crash := IndexRange | MakeLen | OutOfMemory | ConvRange | IntnArg.

Inductive Try (A : Type) :=
| Ok (a : A)
| Crashed (c : Crash).
Arguments Ok {A} a.
Arguments Crashed {A} c.

Definition andThen {A B} (m : Try A) (k : A -> Try B) : Try B :=
  match m with
  | Ok a => k a
  | Crashed c => Crashed c
  end.

Notation "x <~ m ;; k" := (andThen m (fun x => k))
  (at level 63, m at next level, right associativity).

(** A [for ... range] loop whose body may panic. *)
Fixpoint foldTry {A S} (body : S -> A -> Try S) (l : list A) (s : S) : Try S :=
  match l with
  | [] => Ok s
  | a :: l' => s' <~ body s a ;; foldTry body l' s'
  end.

Record DataPoint := mkDataPoint {
  Point_TimeMs : Z;
  Value : Q
}.


(** The glyphs: [' '], ['█'], ['░'], ['·'], ['│'], ['└'], ['─'] and the
    newline. *)
Definition blank : rune := 32.
Definition solid : rune := 9608.
Definition light : rune := 9617.
Definition dot : rune := 183.
Definition newline : rune := 10.



(** [float64] comparisons and the [math] functions on exact rationals;
    [Round x] is [int(math.Round(x))] (halves away from zero) and [trunc x]
    is [int(x)]. *)
Definition Qltb (a b : Q) : bool := negb (Qle_bool b a).
Definition fmax (a b : Q) : Q := if Qltb a b then b else a.
Definition fabs (a : Q) : Q := if Qltb a 0 then (- a)%Q else a.
Definition Round (x : Q) : Z :=
  if Qle_bool 0 x then Qfloor (x + (1 # 2)) else - Qfloor (- x + (1 # 2)).
Definition trunc (x : Q) : Z := Z.quot (Qnum x) (Zpos (Qden x)).

(** [int(x)] where the loop that follows depends on the result: defined
    when the truncated operand is an [int]. *)
Definition toInt (x : Q) : Try Z :=
  let n := trunc x in
  if (n <? - 2 ^ 63) || (2 ^ 63 <=? n) then Crashed ConvRange else Ok n.


Abbreviation Grid := (list (list rune)).

(** [grid[y][x]] and [grid[y][x] = c]. *)
Definition getCell (grid : Grid) (y x : Z) : Try rune :=
  if (y <? 0) || (x <? 0) then Crashed IndexRange
  else match grid !! Z.to_nat y with
       | None => Crashed IndexRange
       | Some row =>
           match row !! Z.to_nat x with
           | None => Crashed IndexRange
           | Some c => Ok c
           end
       end.

Definition setCell (grid : Grid) (y x : Z) (c : rune) : Try Grid :=
  if (y <? 0) || (x <? 0) then Crashed IndexRange
  else match grid !! Z.to_nat y with
       | None => Crashed IndexRange
       | Some row =>
           if (Z.to_nat x <? length row)%nat
           then Ok (<[Z.to_nat y := <[Z.to_nat x := c]> row]> grid)
           else Crashed IndexRange
       end.

(** The grid of blanks: [make([][]rune, height)], each row a
    [make([]rune, chartWidth)] filled with [' '].  The callers pass a
    [chartWidth] of at least 10.  This is the grid once its memory is
    there: the limit of [make] and the memory of the runtime are the matter
    of [allocGrid], which the two renderers pass first. *)
Definition newGrid (height chartWidth : Z) : Try Grid :=
  if height <? 0 then Crashed MakeLen
  else Ok (replicate (Z.to_nat height) (replicate (Z.to_nat chartWidth) blank)).

(** [points[len(points)-1]], used where [points] is not empty. *)
Definition lastPoint (points : list DataPoint) : DataPoint :=
  List.last points (mkDataPoint 0 0).

Definition findMinMax (points : list DataPoint) : Q * Q :=
  match points with
  | [] => (0, 100)%Q
  | p0 :: _ =>
      fold_left
        (fun '(min, max) p =>
           let min := if Qltb (Value p) min then Value p else min in
           let max := if Qltb max (Value p) then Value p else max in
           (min, max))
        points (Value p0, Value p0)
  end.

Definition mapToRange (value inMin inMax outMin outMax : Q) : Q :=
  if Qeq_bool (inMax - inMin) 0 then outMin
  else ((value - inMin) / (inMax - inMin) * (outMax - outMin) + outMin)%Q.

Definition clampInt (val min max : Z) : Z :=
  if val <? min then min
  else if max <? val then max
  else val.

(** One iteration of the inner loop of [connectPoints]. *)
Definition drawStep (x1 y1 x2 y2 : Q) (steps width height : Z)
  (grid : Grid) (s : Z) : Try Grid :=
  let t := (inject_Z s / inject_Z steps)%Q in
  let x := (x1 + t * (x2 - x1))%Q in
  let y := (y1 + t * (y2 - y1))%Q in
  let xIdx := clampInt (Round x) 0 (decr width) in
  let yIdx := clampInt (Round y) 0 (decr height) in
  c <~ getCell grid yIdx xIdx ;;
  if c =? blank then setCell grid yIdx xIdx dot else Ok grid.

(** One iteration of the outer loop: the line from [p] to [q]. *)
Definition drawSegment (maxTime minVal maxVal : Q) (width height : Z)
  (grid : Grid) (p q : DataPoint) : Try Grid :=
  let x1 := mapToRange (inject_Z (Point_TimeMs p)) 0 maxTime 0 (inject_Z (decr width)) in
  let y1 := mapToRange (Value p) minVal maxVal (inject_Z (decr height)) 0 in
  let x2 := mapToRange (inject_Z (Point_TimeMs q)) 0 maxTime 0 (inject_Z (decr width)) in
  let y2 := mapToRange (Value q) minVal maxVal (inject_Z (decr height)) 0 in
  steps <~ toInt (fmax (fabs (x2 - x1)) (fabs (y2 - y1))) ;;
  if steps =? 0 then Ok grid
  else foldTry (drawStep x1 y1 x2 y2 steps width height)
               (map Z.of_nat (seq 0 (S (Z.to_nat steps)))) grid.

(** The loop over [i], from [points[i]] to [points[i+1]]. *)
Fixpoint segments (body : Grid -> DataPoint -> DataPoint -> Try Grid)
  (points : list DataPoint) (grid : Grid) : Try Grid :=
  match points with
  | p :: (q :: _) as rest => g <~ body grid p q ;; segments body rest g
  | _ => Ok grid
  end.

Definition connectPoints (grid : Grid) (points : list DataPoint)
  (minVal maxVal : Q) (width height : Z) : Try Grid :=
  if (length points <? 2)%nat then Ok grid
  else
    let maxTime := inject_Z (Point_TimeMs (lastPoint points)) in
    let maxTime := if Qeq_bool maxTime 0 then 1%Q else maxTime in
    segments (drawSegment maxTime minVal maxVal width height) points grid.


(** The body of the plotting loop of [RenderChart]. *)
Definition plotPoint (points : list DataPoint) (minVal maxVal : Q)
  (chartWidth height : Z) (grid : Grid) (point : DataPoint) : Try Grid :=
  let x := mapToRange (inject_Z (Point_TimeMs point)) 0
             (inject_Z (Point_TimeMs (lastPoint points))) 0
             (inject_Z (decr chartWidth)) in
  let xIdx := Round x in
  let xIdx := if xIdx <? 0 then 0 else xIdx in
  let xIdx := if chartWidth <=? xIdx then decr chartWidth else xIdx in
  let y := mapToRange (Value point) minVal maxVal (inject_Z (decr height)) 0 in
  let yIdx := Round y in
  let yIdx := if yIdx <? 0 then 0 else yIdx in
  let yIdx := if height <=? yIdx then decr height else yIdx in
  setCell grid yIdx xIdx solid.

(** The grid of [RenderChart] once the points are plotted and connected,
    for dimensions already raised to their minimum. *)
Definition chartGrid (points : list DataPoint) (minVal maxVal : Q)
  (chartWidth height : Z) : Try Grid :=
  grid <~ newGrid height chartWidth ;;
  grid <~ foldTry (plotPoint points minVal maxVal chartWidth height) points grid ;;
  connectPoints grid points minVal maxVal chartWidth height.

(** The bodies of the two plotting loops of [RenderDualChart]. *)
Definition plotSecondary (maxTime minVal maxVal : Q) (chartWidth height : Z)
  (grid : Grid) (point : DataPoint) : Try Grid :=
  let x := mapToRange (inject_Z (Point_TimeMs point)) 0 maxTime 0
             (inject_Z (decr chartWidth)) in
  let y := mapToRange (Value point) minVal maxVal (inject_Z (decr height)) 0 in
  let xIdx := clampInt (Round x) 0 (decr chartWidth) in
  let yIdx := clampInt (Round y) 0 (decr height) in
  c <~ getCell grid yIdx xIdx ;;
  if c =? blank then setCell grid yIdx xIdx light else Ok grid.

Definition plotPrimary (maxTime minVal maxVal : Q) (chartWidth height : Z)
  (grid : Grid) (point : DataPoint) : Try Grid :=
  let x := mapToRange (inject_Z (Point_TimeMs point)) 0 maxTime 0
             (inject_Z (decr chartWidth)) in
  let y := mapToRange (Value point) minVal maxVal (inject_Z (decr height)) 0 in
  let xIdx := clampInt (Round x) 0 (decr chartWidth) in
  let yIdx := clampInt (Round y) 0 (decr height) in
  setCell grid yIdx xIdx solid.

(** [maxTime] of [RenderDualChart]. *)
Definition dualMaxTime (primary secondary : list DataPoint) : Z :=
  let maxTime := 0 in
  let maxTime :=
    if (0 <? length primary)%nat then Point_TimeMs (lastPoint primary)
    else maxTime in
  let maxTime :=
    if (0 <? length secondary)%nat
       && (maxTime <? Point_TimeMs (lastPoint secondary))
    then Point_TimeMs (lastPoint secondary) else maxTime in
  if maxTime =? 0 then 1 else maxTime.

Definition dualGrid (primary secondary : list DataPoint) (minVal maxVal : Q)
  (chartWidth height : Z) : Try Grid :=
  grid <~ newGrid height chartWidth ;;
  let maxTime := inject_Z (dualMaxTime primary secondary) in
  grid <~ foldTry (plotSecondary maxTime minVal maxVal chartWidth height)
                  secondary grid ;;
  foldTry (plotPrimary maxTime minVal maxVal chartWidth height) primary grid.

Section Text.

(** The two formatters of the [fmt] package that the renderers use:
    [fmt.Sprintf("%5.0f│", val)] and [fmt.Sprintf("%ds", n)]. *)
Variable Sprintf_5_0f_bar : Q -> list rune.
Variable Sprintf_ds : Z -> list rune.

(** Whether the runtime obtains a block of so many bytes when the chart
    asks for it. *)
Variable obtains : Z -> bool.







End Text.

(** The eight levels of a sparkline, ['▁'] to ['█']. *)
Definition chars : list rune :=
  [9601; 9602; 9603; 9604; 9605; 9606; 9607; 9608].

(** The loop of [SparklineFromSamples]: [fuel] bounds the iterations that
    the test [i < width] allows. *)
Fixpoint sparkLoop (samples : list DataPoint) (minVal valRange step : Q)
  (fuel : nat) (i : Z) (result : list rune) : Try (list rune) :=
  match fuel with
  | O => Ok result
  | S fuel' =>
      let idx := trunc (inject_Z i * step) in
      if idx <? Z.of_nat (length samples) then
        if idx <? 0 then Crashed IndexRange
        else match samples !! Z.to_nat idx with
             | None => Crashed IndexRange
             | Some sample =>
                 let normalized := ((Value sample - minVal) / valRange)%Q in
                 let charIdx :=
                   trunc (normalized * inject_Z (Z.of_nat (length chars) - 1)) in
                 let charIdx := if charIdx <? 0 then 0 else charIdx in
                 let charIdx :=
                   if Z.of_nat (length chars) <=? charIdx
                   then Z.of_nat (length chars) - 1 else charIdx in
                 match chars !! Z.to_nat charIdx with
                 | None => Crashed IndexRange
                 | Some c =>
                     sparkLoop samples minVal valRange step fuel' (i + 1)
                               (result ++ [c])
                 end
             end
      else Ok result
  end.

(** When [width] is zero or negative the loop does not run, whatever
    [step] is. *)
Definition SparklineFromSamples (samples : list DataPoint) (width : Z)
  : Try (list rune) :=
  if (length samples =? 0)%nat then Ok []
  else
    let '(minVal, maxVal) := findMinMax samples in
    let valRange := (maxVal - minVal)%Q in
    let valRange := if Qltb valRange 1 then 1%Q else valRange in
    let step := (inject_Z (Z.of_nat (length samples)) / inject_Z width)%Q in
    let step := if Qltb step 1 then 1%Q else step in
    sparkLoop samples minVal valRange step (Z.to_nat width) 0 [].

(* ------------------------------------------------------------------ *)
(** ** Comparisons and rounding *)

Lemma Qltb_lt a b : Qltb a b = true <-> (a < b)%Q.
Proof.
  unfold Qltb. rewrite negb_true_iff. split.
  - intros H. apply Qnot_le_lt. intros Hle.
    apply Qle_bool_iff in Hle. congruence.
  - intros H. destruct (Qle_bool b a) eqn:E; [|reflexivity].
    apply Qle_bool_iff in E. exfalso. exact (Qlt_not_le _ _ H E).
Qed.

Lemma Qltb_ge a b : Qltb a b = false <-> (b <= a)%Q.
Proof.
  unfold Qltb. rewrite negb_false_iff. apply Qle_bool_iff.
Qed.


Lemma trunc_nonneg x : (0 <= x)%Q -> trunc x = Qfloor x.
Proof.
  intros H. destruct x as [n d]. unfold trunc, Qfloor. cbn [Qnum Qden].
  apply Z.quot_div_nonneg; [|reflexivity].
  unfold Qle in H. simpl in H. lia.
Qed.

Lemma clampInt_range val min max :
  min <= max -> min <= clampInt val min max <= max.
Proof. unfold clampInt. intros H. destruct (val <? min) eqn:E1;
  [lia|]. destruct (max <? val) eqn:E2; lia. Qed.

(* ------------------------------------------------------------------ *)
(** ** The extremes of a series *)

Lemma findMinMax_fold (l : list DataPoint) : forall a b mn mx,
  (a <= b)%Q ->
  fold_left
    (fun '(min, max) p =>
       let min := if Qltb (Value p) min then Value p else min in
       let max := if Qltb max (Value p) then Value p else max in
       (min, max)) l (a, b) = (mn, mx) ->
  (mn <= a)%Q /\ (b <= mx)%Q
  /\ Forall (fun p => (mn <= Value p)%Q /\ (Value p <= mx)%Q) l
  /\ In mn (a :: map Value l) /\ In mx (b :: map Value l).
Proof.
  induction l as [|p l IH]; intros a b mn mx Hab H.
  - injection H as <- <-. simpl.
    split; [apply Qle_refl|]. split; [apply Qle_refl|]. split; [constructor | auto].
  - cbn [fold_left] in H.
    set (a' := if Qltb (Value p) a then Value p else a) in H.
    set (b' := if Qltb b (Value p) then Value p else b) in H.
    assert (Ha : (a' <= a)%Q /\ (a' <= Value p)%Q /\ (a' = a \/ a' = Value p)).
    { subst a'. destruct (Qltb (Value p) a) eqn:E.
      - apply Qltb_lt in E. split; [apply Qlt_le_weak, E|].
        split; [apply Qle_refl | auto].
      - apply Qltb_ge in E. split; [apply Qle_refl|]. split; [exact E | auto]. }
    assert (Hb : (b <= b')%Q /\ (Value p <= b')%Q /\ (b' = b \/ b' = Value p)).
    { subst b'. destruct (Qltb b (Value p)) eqn:E.
      - apply Qltb_lt in E. split; [apply Qlt_le_weak, E|].
        split; [apply Qle_refl | auto].
      - apply Qltb_ge in E. split; [apply Qle_refl|]. split; [exact E | auto]. }
    destruct Ha as (Ha1 & Ha2 & Ha3). destruct Hb as (Hb1 & Hb2 & Hb3).
    assert (Hab' : (a' <= b')%Q).
    { apply (Qle_trans _ a); [exact Ha1|]. apply (Qle_trans _ b); assumption. }
    destruct (IH a' b' mn mx Hab' H) as (H1 & H2 & H3 & H4 & H5).
    split; [apply (Qle_trans _ a'); assumption|].
    split; [apply (Qle_trans _ b'); assumption|].
    split.
    { constructor; [|exact H3].
      split; [apply (Qle_trans _ a') | apply (Qle_trans _ b')]; assumption. }
    split.
    + destruct H4 as [<-|H4]; [|right; right; exact H4].
      destruct Ha3 as [->| ->]; [left | right; left]; reflexivity.
    + destruct H5 as [<-|H5]; [|right; right; exact H5].
      destruct Hb3 as [->| ->]; [left | right; left]; reflexivity.
Qed.

Lemma findMinMax_cons (p0 : DataPoint) (l : list DataPoint) :
  In (fst (findMinMax (p0 :: l))) (map Value (p0 :: l))
  /\ In (snd (findMinMax (p0 :: l))) (map Value (p0 :: l))
  /\ Forall (fun p => (fst (findMinMax (p0 :: l)) <= Value p)%Q
                      /\ (Value p <= snd (findMinMax (p0 :: l)))%Q) (p0 :: l).
Proof.
  unfold findMinMax.
  destruct (fold_left _ (p0 :: l) (Value p0, Value p0)) as [mn mx] eqn:E.
  destruct (findMinMax_fold (p0 :: l) _ _ mn mx (Qle_refl _) E)
    as (_ & _ & H3 & H4 & H5).
  cbn [fst snd]. split; [|split; [|exact H3]].
  - destruct H4 as [<-|H4]; [left; reflexivity | exact H4].
  - destruct H5 as [<-|H5]; [left; reflexivity | exact H5].
Qed.

(** [findMinMax] of a series that is not empty returns two of its values,
    the first no greater and the second no smaller than any value of the
    series; of the empty series it returns [(0, 100)]. *)
Theorem findMinMax_extremes (points : list DataPoint) :
  match points with
  | [] => findMinMax points = (0, 100)%Q
  | _ :: _ =>
      In (fst (findMinMax points)) (map Value points)
      /\ In (snd (findMinMax points)) (map Value points)
      /\ Forall (fun p => (fst (findMinMax points) <= Value p)%Q
                          /\ (Value p <= snd (findMinMax points))%Q) points
  end.
Proof.
  destruct points as [|p0 l].
  - reflexivity.
  - apply findMinMax_cons.
Qed.

(* ------------------------------------------------------------------ *)
(** ** Linear interpolation *)


Lemma mapToRange_steep v a b c d :
  ~ (b == a)%Q ->
  mapToRange v a b c d = ((v - a) / (b - a) * (d - c) + c)%Q.
Proof.
  intros H. unfold mapToRange.
  destruct (Qeq_bool (b - a) 0) eqn:E; [|reflexivity].
  apply Qeq_bool_iff in E. exfalso. apply H. lra.
Qed.







(* ------------------------------------------------------------------ *)
(** ** The padded value range *)

Lemma Round_range (y : Q) (n : Z) :
  (0 <= y)%Q -> (y <= inject_Z n)%Q -> 0 <= Round y <= n.
Proof.
  intros H0 Hn. unfold Round.
  assert (E : Qle_bool 0 y = true) by (apply Qle_bool_iff, H0). rewrite E.
  split.
  - change 0 with (Qfloor 0). apply Qfloor_resp_le. lra.
  - apply Z.lt_succ_r. rewrite Zlt_Qlt.
    apply (Qle_lt_trans _ (y + (1 # 2))); [apply Qfloor_le|].
    unfold Z.succ. rewrite inject_Z_plus. change (inject_Z 1) with 1%Q. lra.
Qed.




(* ------------------------------------------------------------------ *)
(** ** Grids *)

Definition dims (g : Grid) (h w : nat) : Prop :=
  length g = h /\ Forall (fun row => length row = w) g.

Definition cell (g : Grid) (i j : nat) : option rune :=
  match g !! i with
  | Some row => row !! j
  | None => None
  end.

Lemma dims_row g h w i row : dims g h w -> g !! i = Some row -> length row = w.
Proof.
  intros [_ H] E. rewrite Forall_lookup in H. exact (H i row E).
Qed.

Lemma newGrid_blank height chartWidth :
  0 <= height ->
  newGrid height chartWidth
  = Ok (replicate (Z.to_nat height) (replicate (Z.to_nat chartWidth) blank))
  /\ dims (replicate (Z.to_nat height) (replicate (Z.to_nat chartWidth) blank))
          (Z.to_nat height) (Z.to_nat chartWidth).
Proof.
  intros H. unfold newGrid.
  destruct (height <? 0) eqn:E; [lia|]. split; [reflexivity|].
  split; [apply length_replicate|].
  apply Forall_replicate, length_replicate.
Qed.

Lemma cell_blank h w i j :
  (i < h)%nat -> (j < w)%nat ->
  cell (replicate h (replicate w blank)) i j = Some blank.
Proof.
  intros Hi Hj. unfold cell.
  destruct (replicate h (replicate w blank) !! i) as [row|] eqn:E.
  - apply lookup_replicate in E as [-> _]. apply lookup_replicate_2, Hj.
  - apply lookup_replicate_None in E. lia.
Qed.

Lemma getCell_inside g h w y x :
  dims g h w -> 0 <= y < Z.of_nat h -> 0 <= x < Z.of_nat w ->
  exists c, getCell g y x = Ok c /\ cell g (Z.to_nat y) (Z.to_nat x) = Some c.
Proof.
  intros Hd Hy Hx. unfold getCell, cell.
  destruct ((y <? 0) || (x <? 0)) eqn:E; [lia|].
  destruct (lookup_lt_is_Some_2 g (Z.to_nat y)) as [row Hrow];
    [destruct Hd as [-> _]; lia|].
  rewrite Hrow.
  destruct (lookup_lt_is_Some_2 row (Z.to_nat x)) as [c Hc];
    [rewrite (dims_row g h w _ row Hd Hrow); lia|].
  rewrite Hc. eauto.
Qed.

Lemma setCell_inside g h w y x c :
  dims g h w -> 0 <= y < Z.of_nat h -> 0 <= x < Z.of_nat w ->
  exists g',
    setCell g y x c = Ok g' /\ dims g' h w
    /\ cell g' (Z.to_nat y) (Z.to_nat x) = Some c
    /\ forall i j, (i, j) <> (Z.to_nat y, Z.to_nat x) -> cell g' i j = cell g i j.
Proof.
  intros Hd Hy Hx. unfold setCell.
  destruct ((y <? 0) || (x <? 0)) eqn:E; [lia|].
  destruct (lookup_lt_is_Some_2 g (Z.to_nat y)) as [row Hrow];
    [destruct Hd as [-> _]; lia|].
  rewrite Hrow.
  pose proof (dims_row g h w _ row Hd Hrow) as Hlen.
  assert (Hlt : (Z.to_nat x <? length row)%nat = true)
    by (apply Nat.ltb_lt; lia).
  rewrite Hlt. eexists. split; [reflexivity|].
  assert (Hy' : (Z.to_nat y < length g)%nat) by (destruct Hd as [-> _]; lia).
  split; [|split].
  - destruct Hd as [Hh Hw]. split; [rewrite length_insert; exact Hh|].
    apply Forall_insert; [exact Hw|]. rewrite length_insert. exact Hlen.
  - unfold cell. rewrite list_lookup_insert_eq by exact Hy'.
    apply list_lookup_insert_eq. lia.
  - intros i j Hij. unfold cell.
    destruct (decide (i = Z.to_nat y)) as [->|Hi].
    + rewrite list_lookup_insert_eq by exact Hy'. rewrite Hrow.
      apply list_lookup_insert_ne. congruence.
    + rewrite list_lookup_insert_ne by congruence. reflexivity.
Qed.






(* ------------------------------------------------------------------ *)
(** ** Connecting lines *)


















(* ------------------------------------------------------------------ *)
(** ** [RenderChart] *)











Section TextFacts.

Variable Sprintf_5_0f_bar : Q -> list rune.
Variable Sprintf_ds : Z -> list rune.
Variable obtains : Z -> bool.













End TextFacts.


Lemma Round_comp x y : (x == y)%Q -> Round x = Round y.
Proof.
  intros E. unfold Round.
  assert (Hb : Qle_bool 0 x = Qle_bool 0 y).
  { destruct (Qle_bool 0 x) eqn:Ex; destruct (Qle_bool 0 y) eqn:Ey;
      try reflexivity.
    - apply Qle_bool_iff in Ex. rewrite E in Ex. apply Qle_bool_iff in Ex.
      congruence.
    - apply Qle_bool_iff in Ey. rewrite <- E in Ey. apply Qle_bool_iff in Ey.
      congruence. }
  rewrite Hb. destruct (Qle_bool 0 y).
  - apply Qfloor_comp. rewrite E. reflexivity.
  - f_equal. apply Qfloor_comp. rewrite E. reflexivity.
Qed.

Lemma Round_inject_Z n : 0 <= n -> Round (inject_Z n) = n.
Proof.
  intros H.
  pose proof (Round_range (inject_Z n) n (inject_Z_nonneg n H) (Qle_refl _)) as [_ Hle].
  enough (n <= Round (inject_Z n)) by lia.
  unfold Round.
  assert (E : Qle_bool 0 (inject_Z n) = true)
    by (apply Qle_bool_iff, inject_Z_nonneg, H).
  rewrite E. rewrite <- (Qfloor_Z n) at 1. apply Qfloor_resp_le. lra.
Qed.

(** The column of the only point of a one-point series: the time range is
    empty when the point is at time zero, and is the point's own time
    otherwise. *)
Lemma single_point_column (t chartWidth : Z) :
  1 <= chartWidth ->
  Round (mapToRange (inject_Z t) 0 (inject_Z t) 0 (inject_Z (chartWidth - 1)))
  = if t =? 0 then 0 else chartWidth - 1.
Proof.
  intros Hw. destruct (t =? 0) eqn:E.
  - apply Z.eqb_eq in E. subst t. reflexivity.
  - apply Z.eqb_neq in E.
    assert (Hne : ~ (inject_Z t == 0)%Q).
    { intros H. apply E. unfold Qeq in H. simpl in H. lia. }
    rewrite mapToRange_steep by exact Hne.
    rewrite <- (Round_inject_Z (chartWidth - 1)) at 2 by lia.
    apply Round_comp. field. lra.
Qed.

(** For a series of one point, the grid of [RenderChart] holds exactly one
    plotted cell and no connecting dot: every other cell is blank.  The
    plotted cell is in the first column when the point is at time zero and
    in the last column otherwise. *)
Theorem single_point_is_one_cell (p : DataPoint) (minVal maxVal : Q)
  (chartWidth height : Z)
  (Hwidth : 1 <= chartWidth < 2 ^ 63) (Hheight : 1 <= height < 2 ^ 63) :
  exists g y,
    chartGrid [p] minVal maxVal chartWidth height = Ok g
    /\ 0 <= y < height
    /\ forall i j, (i < Z.to_nat height)%nat -> (j < Z.to_nat chartWidth)%nat ->
         cell g i j
         = Some (if decide ((i, j)
                            = (Z.to_nat y,
                               Z.to_nat (if Point_TimeMs p =? 0 then 0
                                         else chartWidth - 1)))
                 then solid else blank).
Proof.
  unfold chartGrid.
  destruct (newGrid_blank height chartWidth) as [-> Hd0]; [lia|].
  cbn [andThen foldTry]. unfold plotPoint.
  rewrite !decr_small by lia.
  change (lastPoint [p]) with p.
  rewrite (single_point_column (Point_TimeMs p) chartWidth) by lia.
  set (x := if Point_TimeMs p =? 0 then 0 else chartWidth - 1).
  assert (Hx : 0 <= x < chartWidth)
    by (subst x; destruct (Point_TimeMs p =? 0); lia).
  assert (Ex : (if chartWidth <=? (if x <? 0 then 0 else x)
                then chartWidth - 1 else if x <? 0 then 0 else x) = x).
  { destruct (x <? 0) eqn:E1; [lia|]. destruct (chartWidth <=? x) eqn:E2; lia. }
  rewrite Ex.
  set (y0 := Round (mapToRange (Value p) _ _ _ _)). clearbody y0.
  set (y := if height <=? (if y0 <? 0 then 0 else y0)
            then height - 1 else if y0 <? 0 then 0 else y0).
  assert (Hy : 0 <= y < height).
  { subst y. destruct (y0 <? 0) eqn:E1; destruct (height <=? _) eqn:E2; lia. }
  clearbody y.
  destruct (setCell_inside _ _ _ y x solid Hd0) as (g & -> & Hd & Hset & Hrest);
    [lia | lia|].
  exists g, y. cbn [andThen connectPoints length Nat.ltb Nat.leb].
  split; [reflexivity|]. split; [exact Hy|].
  intros i j Hi Hj. destruct (decide _) as [E|E].
  - injection E as -> ->. exact Hset.
  - rewrite (Hrest i j E). apply cell_blank; assumption.
Qed.

Lemma single_point_is_one_cell_witness :
  exists g y,
    chartGrid [mkDataPoint 1000 40] 0 44 14 5 = Ok g
    /\ 0 <= y < 5
    /\ cell g (Z.to_nat y) 13 = Some solid.
Proof.
  destruct (single_point_is_one_cell (mkDataPoint 1000 40) 0 44 14 5)
    as (g & y & E & Hy & Hcell); [lia | lia|].
  exists g, y. split; [exact E|]. split; [exact Hy|].
  rewrite (Hcell (Z.to_nat y) 13%nat) by lia.
  destruct (decide _) as [_|Hne]; [reflexivity|].
  exfalso. apply Hne. reflexivity.
Defined.

(* ------------------------------------------------------------------ *)
(** ** [RenderDualChart] *)

(** The cell of a point in the dual chart: row and column. *)
Definition spot (maxTime minVal maxVal : Q) (chartWidth height : Z)
  (point : DataPoint) : Z * Z :=
  (clampInt
     (Round (mapToRange (Value point) minVal maxVal (inject_Z (decr height)) 0))
     0 (decr height),
   clampInt
     (Round (mapToRange (inject_Z (Point_TimeMs point)) 0 maxTime 0
               (inject_Z (decr chartWidth))))
     0 (decr chartWidth)).

Definition at_spot (g : Grid) (yx : Z * Z) : option rune :=
  cell g (Z.to_nat (fst yx)) (Z.to_nat (snd yx)).

Lemma spot_inside maxTime minVal maxVal chartWidth height point :
  1 <= chartWidth < 2 ^ 63 -> 1 <= height < 2 ^ 63 ->
  0 <= fst (spot maxTime minVal maxVal chartWidth height point) < height
  /\ 0 <= snd (spot maxTime minVal maxVal chartWidth height point) < chartWidth.
Proof.
  intros Hw Hh. unfold spot. cbn [fst snd]. rewrite !decr_small by lia.
  split.
  - pose proof (clampInt_range
                  (Round (mapToRange (Value point) minVal maxVal
                            (inject_Z (height - 1)) 0)) 0 (height - 1)). lia.
  - pose proof (clampInt_range
                  (Round (mapToRange (inject_Z (Point_TimeMs point)) 0 maxTime 0
                            (inject_Z (chartWidth - 1)))) 0 (chartWidth - 1)). lia.
Qed.

Lemma setCell_same g h w y x c :
  dims g h w -> 0 <= y < Z.of_nat h -> 0 <= x < Z.of_nat w ->
  cell g (Z.to_nat y) (Z.to_nat x) = Some c -> setCell g y x c = Ok g.
Proof.
  intros Hd Hy Hx Hc. unfold setCell, cell in *.
  destruct ((y <? 0) || (x <? 0)) eqn:E; [lia|].
  destruct (g !! Z.to_nat y) as [row|] eqn:Hrow; [|discriminate].
  pose proof (dims_row g h w _ row Hd Hrow) as Hlen.
  assert (Hlt : (Z.to_nat x <? length row)%nat = true)
    by (apply Nat.ltb_lt; lia).
  rewrite Hlt. f_equal.
  rewrite (list_insert_id row _ c Hc). apply list_insert_id, Hrow.
Qed.

(** The cells of a dual chart hold a blank, the light glyph or the solid
    glyph. *)
Definition palette (g : Grid) : Prop :=
  forall i j c, cell g i j = Some c -> c = blank \/ c = light \/ c = solid.

Definition shown (g : Grid) (yx : Z * Z) : Prop :=
  at_spot g yx = Some light \/ at_spot g yx = Some solid.

Lemma plotSecondary_shown maxTime minVal maxVal chartWidth height g point :
  1 <= chartWidth < 2 ^ 63 -> 1 <= height < 2 ^ 63 ->
  dims g (Z.to_nat height) (Z.to_nat chartWidth) -> palette g ->
  exists g',
    plotSecondary maxTime minVal maxVal chartWidth height g point = Ok g'
    /\ dims g' (Z.to_nat height) (Z.to_nat chartWidth) /\ palette g'
    /\ shown g' (spot maxTime minVal maxVal chartWidth height point)
    /\ forall yx, shown g yx -> shown g' yx.
Proof.
  intros Hw Hh Hd Hp.
  destruct (spot_inside maxTime minVal maxVal chartWidth height point Hw Hh)
    as [Hy Hx].
  unfold plotSecondary.
  change (clampInt (Round (mapToRange (Value point) minVal maxVal
                             (inject_Z (decr height)) 0)) 0 (decr height))
    with (fst (spot maxTime minVal maxVal chartWidth height point)).
  change (clampInt (Round (mapToRange (inject_Z (Point_TimeMs point)) 0 maxTime 0
                             (inject_Z (decr chartWidth)))) 0 (decr chartWidth))
    with (snd (spot maxTime minVal maxVal chartWidth height point)).
  set (yx := spot maxTime minVal maxVal chartWidth height point) in *.
  clearbody yx. destruct yx as [y x]. cbn [fst snd] in *.
  destruct (getCell_inside g _ _ y x Hd) as (c & -> & Hc); [lia | lia|].
  cbn [andThen]. destruct (c =? blank) eqn:E.
  - destruct (setCell_inside g _ _ y x light Hd) as (g' & -> & Hd' & Hset & Hrest);
      [lia | lia|].
    exists g'. split; [reflexivity|]. split; [exact Hd'|].
    split; [|split].
    + intros i j c' Hc'.
      destruct (decide ((i, j) = (Z.to_nat y, Z.to_nat x))) as [Eq|Ne].
      * injection Eq as -> ->. rewrite Hset in Hc'. injection Hc' as <-. auto.
      * rewrite (Hrest i j Ne) in Hc'. exact (Hp i j c' Hc').
    + left. exact Hset.
    + intros [y' x'] Hs. unfold shown, at_spot in *. cbn [fst snd] in *.
      destruct (decide ((Z.to_nat y', Z.to_nat x') = (Z.to_nat y, Z.to_nat x)))
        as [Eq|Ne].
      * injection Eq as -> ->. left. exact Hset.
      * rewrite (Hrest _ _ Ne). exact Hs.
  - exists g. split; [reflexivity|]. split; [exact Hd|]. split; [exact Hp|].
    split; [|auto].
    unfold shown, at_spot. cbn [fst snd]. rewrite Hc.
    destruct (Hp _ _ c Hc) as [->|[->| ->]]; [discriminate E | auto | auto].
Qed.

Lemma plotPrimary_solid maxTime minVal maxVal chartWidth height g point :
  1 <= chartWidth < 2 ^ 63 -> 1 <= height < 2 ^ 63 ->
  dims g (Z.to_nat height) (Z.to_nat chartWidth) -> palette g ->
  exists g',
    plotPrimary maxTime minVal maxVal chartWidth height g point = Ok g'
    /\ dims g' (Z.to_nat height) (Z.to_nat chartWidth) /\ palette g'
    /\ at_spot g' (spot maxTime minVal maxVal chartWidth height point) = Some solid
    /\ (forall yx, at_spot g yx = Some solid -> at_spot g' yx = Some solid)
    /\ (forall yx, shown g yx -> shown g' yx).
Proof.
  intros Hw Hh Hd Hp.
  destruct (spot_inside maxTime minVal maxVal chartWidth height point Hw Hh)
    as [Hy Hx].
  unfold plotPrimary.
  change (clampInt (Round (mapToRange (Value point) minVal maxVal
                             (inject_Z (decr height)) 0)) 0 (decr height))
    with (fst (spot maxTime minVal maxVal chartWidth height point)).
  change (clampInt (Round (mapToRange (inject_Z (Point_TimeMs point)) 0 maxTime 0
                             (inject_Z (decr chartWidth)))) 0 (decr chartWidth))
    with (snd (spot maxTime minVal maxVal chartWidth height point)).
  set (yx := spot maxTime minVal maxVal chartWidth height point) in *.
  clearbody yx. destruct yx as [y x]. cbn [fst snd] in *.
  destruct (setCell_inside g _ _ y x solid Hd) as (g' & -> & Hd' & Hset & Hrest);
    [lia | lia|].
  exists g'. split; [reflexivity|]. split; [exact Hd'|].
  assert (Hkeep : forall y' x',
             (Z.to_nat y', Z.to_nat x') <> (Z.to_nat y, Z.to_nat x) ->
             at_spot g' (y', x') = at_spot g (y', x')).
  { intros y' x' Ne. unfold at_spot. cbn [fst snd]. apply Hrest, Ne. }
  split; [|split; [|split]].
  - intros i j c' Hc'.
    destruct (decide ((i, j) = (Z.to_nat y, Z.to_nat x))) as [Eq|Ne].
    + injection Eq as -> ->. rewrite Hset in Hc'. injection Hc' as <-. auto.
    + rewrite (Hrest i j Ne) in Hc'. exact (Hp i j c' Hc').
  - exact Hset.
  - intros [y' x'] Hs.
    destruct (decide ((Z.to_nat y', Z.to_nat x') = (Z.to_nat y, Z.to_nat x)))
      as [Eq|Ne].
    + unfold at_spot. cbn [fst snd]. injection Eq as -> ->. exact Hset.
    + rewrite (Hkeep _ _ Ne). exact Hs.
  - intros [y' x'] Hs. unfold shown in *.
    destruct (decide ((Z.to_nat y', Z.to_nat x') = (Z.to_nat y, Z.to_nat x)))
      as [Eq|Ne].
    + right. unfold at_spot. cbn [fst snd]. injection Eq as -> ->. exact Hset.
    + rewrite (Hkeep _ _ Ne). exact Hs.
Qed.

(** A loop that keeps [P], establishes [E a] when it handles [a] and never
    undoes an [E b]. *)
Lemma foldTry_each {A S} (P : S -> Prop) (E : A -> S -> Prop)
  (body : S -> A -> Try S) (l : list A) :
  (forall s a, P s ->
     exists s', body s a = Ok s' /\ P s' /\ E a s' /\ forall b, E b s -> E b s') ->
  forall s, P s ->
  exists s', foldTry body l s = Ok s' /\ P s'
             /\ (forall a, In a l -> E a s') /\ forall b, E b s -> E b s'.
Proof.
  intros Hbody. induction l as [|a l IH]; intros s Hs.
  - exists s. split; [reflexivity|]. split; [exact Hs|].
    split; [intros a []| auto].
  - destruct (Hbody s a Hs) as (s1 & E1 & P1 & Ea & K1).
    destruct (IH s1 P1) as (s2 & E2 & P2 & Eall & K2).
    exists s2. simpl. rewrite E1. simpl. split; [exact E2|].
    split; [exact P2|]. split; [|auto].
    intros b [<-|Hb]; [apply K2, Ea | apply Eall, Hb].
Qed.

Lemma palette_blank h w : palette (replicate h (replicate w blank)).
Proof.
  intros i j c Hc. unfold cell in Hc.
  destruct (replicate h (replicate w blank) !! i) as [row|] eqn:E; [|discriminate].
  apply lookup_replicate in E as [-> _].
  apply lookup_replicate in Hc as [-> _]. auto.
Qed.

Lemma dualGrid_loops (primary secondary : list DataPoint)
  (minVal maxVal : Q) (chartWidth height : Z) :
  1 <= chartWidth < 2 ^ 63 -> 1 <= height < 2 ^ 63 ->
  exists g,
    dualGrid primary secondary minVal maxVal chartWidth height = Ok g
    /\ dims g (Z.to_nat height) (Z.to_nat chartWidth)
    /\ palette g
    /\ (forall p, In p primary ->
          at_spot g (spot (inject_Z (dualMaxTime primary secondary)) minVal maxVal
                       chartWidth height p) = Some solid)
    /\ (forall p, In p secondary ->
          shown g (spot (inject_Z (dualMaxTime primary secondary)) minVal maxVal
                     chartWidth height p)).
Proof.
  intros Hwidth Hheight. unfold dualGrid.
  destruct (newGrid_blank height chartWidth) as [-> Hd0]; [lia|].
  cbn [andThen].
  set (maxTime := inject_Z (dualMaxTime primary secondary)).
  set (sp := spot maxTime minVal maxVal chartWidth height).
  destruct (foldTry_each
              (fun g => dims g (Z.to_nat height) (Z.to_nat chartWidth) /\ palette g)
              (fun p g => shown g (sp p))
              (plotSecondary maxTime minVal maxVal chartWidth height) secondary)
    with (s := replicate (Z.to_nat height) (replicate (Z.to_nat chartWidth) blank))
    as (g1 & -> & [Hd1 Hp1] & Hsec & _).
  { intros s a [Hd Hp].
    destruct (plotSecondary_shown maxTime minVal maxVal chartWidth height s a
                Hwidth Hheight Hd Hp) as (g' & E & Hd' & Hp' & Hs & Hk).
    exists g'. split; [exact E|]. split; [split; assumption|].
    split; [exact Hs|]. intros b. apply Hk. }
  { split; [exact Hd0 | apply palette_blank]. }
  cbn [andThen].
  destruct (foldTry_each
              (fun g => dims g (Z.to_nat height) (Z.to_nat chartWidth) /\ palette g
                        /\ forall p, In p secondary -> shown g (sp p))
              (fun p g => at_spot g (sp p) = Some solid)
              (plotPrimary maxTime minVal maxVal chartWidth height) primary)
    with (s := g1) as (g2 & -> & (Hd2 & Hp2 & Hsec2) & Hprim & _).
  { intros s a (Hd & Hp & Hs).
    destruct (plotPrimary_solid maxTime minVal maxVal chartWidth height s a
                Hwidth Hheight Hd Hp) as (g' & E & Hd' & Hp' & Ha & Hk & Hk').
    exists g'. split; [exact E|]. split.
    { split; [exact Hd'|]. split; [exact Hp'|]. intros p Hin. apply Hk', Hs, Hin. }
    split; [exact Ha|]. intros b. apply Hk. }
  { split; [exact Hd1|]. split; [exact Hp1 | exact Hsec]. }
  exists g2. split; [reflexivity|]. split; [exact Hd2|]. split; [exact Hp2|].
  split; assumption.
Qed.

(** On a grid of at least one row, both plotting loops of
    [RenderDualChart] return, and in the grid they leave every point of
    either series is visible: the cell of each primary point holds the
    solid glyph, where the primary series overwrites the secondary one, and
    the cell of each secondary point holds the light or the solid glyph.
    Plotting any of the points once more changes nothing. *)
Theorem dual_chart_shows_every_point (primary secondary : list DataPoint)
  (minVal maxVal : Q) (chartWidth height : Z)
  (Hwidth : 1 <= chartWidth < 2 ^ 63) (Hheight : 1 <= height < 2 ^ 63) :
  exists g,
    dualGrid primary secondary minVal maxVal chartWidth height = Ok g
    /\ dims g (Z.to_nat height) (Z.to_nat chartWidth)
    /\ (forall i j c, cell g i j = Some c -> c = blank \/ c = light \/ c = solid)
    /\ (forall p, In p primary ->
          plotPrimary (inject_Z (dualMaxTime primary secondary)) minVal maxVal
            chartWidth height g p = Ok g)
    /\ (forall p, In p secondary ->
          plotSecondary (inject_Z (dualMaxTime primary secondary)) minVal maxVal
            chartWidth height g p = Ok g).
Proof.
  destruct (dualGrid_loops primary secondary minVal maxVal chartWidth height
              Hwidth Hheight) as (g2 & E & Hd2 & Hp2 & Hprim & Hsec2).
  set (maxTime := inject_Z (dualMaxTime primary secondary)) in *.
  set (sp := spot maxTime minVal maxVal chartWidth height) in *.
  exists g2. split; [exact E|]. split; [exact Hd2|]. split; [exact Hp2|].
  split.
  - intros p Hin. specialize (Hprim p Hin).
    destruct (spot_inside maxTime minVal maxVal chartWidth height p Hwidth Hheight)
      as [Hy Hx].
    unfold plotPrimary. unfold spot in Hy, Hx. cbn [fst snd] in Hy, Hx.
    apply (setCell_same g2 _ _ _ _ solid Hd2); [lia | lia | exact Hprim].
  - intros p Hin. specialize (Hsec2 p Hin).
    destruct (spot_inside maxTime minVal maxVal chartWidth height p Hwidth Hheight)
      as [Hy Hx].
    unfold plotSecondary.
    fold (sp p) in Hy, Hx.
    destruct (getCell_inside g2 _ _ (fst (sp p)) (snd (sp p)) Hd2)
      as (c & Ec & Hc); [lia | lia|].
    unfold sp, spot in Ec. cbn [fst snd] in Ec. rewrite Ec. cbn [andThen].
    unfold shown, at_spot in Hsec2. rewrite Hc in Hsec2.
    destruct Hsec2 as [H|H]; injection H as ->; reflexivity.
Qed.

Lemma dual_chart_shows_every_point_witness :
  exists g,
    dualGrid [mkDataPoint 0 0; mkDataPoint 1000 40]
             [mkDataPoint 0 0; mkDataPoint 1000 44] 0 48 14 5 = Ok g
    /\ dims g 5 14.
Proof.
  destruct (dual_chart_shows_every_point [mkDataPoint 0 0; mkDataPoint 1000 40]
              [mkDataPoint 0 0; mkDataPoint 1000 44] 0 48 14 5)
    as (g & E & Hd & _); [lia | lia|].
  exists g. split; [exact E | exact Hd].
Defined.

Section DualText.

Variable Sprintf_5_0f_bar : Q -> list rune.
Variable Sprintf_ds : Z -> list rune.
Variable obtains : Z -> bool.








End DualText.


(* ------------------------------------------------------------------ *)
(** ** Sparklines *)

Lemma level_inside (k : Z) :
  exists c,
    chars !! Z.to_nat
      (if Z.of_nat (length chars) <=? (if k <? 0 then 0 else k)
       then Z.of_nat (length chars) - 1 else if k <? 0 then 0 else k) = Some c
    /\ In c chars.
Proof.
  set (k1 := if k <? 0 then 0 else k).
  assert (H1 : 0 <= k1) by (subst k1; destruct (k <? 0) eqn:E; lia).
  clearbody k1.
  set (k2 := if Z.of_nat (length chars) <=? k1
             then Z.of_nat (length chars) - 1 else k1).
  assert (H2 : (Z.to_nat k2 < length chars)%nat).
  { subst k2. destruct (Z.of_nat (length chars) <=? k1) eqn:E; [simpl; lia | lia]. }
  clearbody k2.
  destruct (lookup_lt_is_Some_2 chars (Z.to_nat k2) H2) as [c Hc].
  exists c. split; [exact Hc|].
  apply list_elem_of_In. exact (list_elem_of_lookup_2 _ _ _ Hc).
Qed.

Lemma sparkLoop_stop samples minVal valRange step fuel i result :
  Z.of_nat (length samples) <= trunc (inject_Z i * step) ->
  sparkLoop samples minVal valRange step fuel i result = Ok result.
Proof.
  intros H. destruct fuel as [|fuel]; [reflexivity|]. simpl.
  destruct (_ <? Z.of_nat (length samples)) eqn:E; [lia | reflexivity].
Qed.

Lemma sparkLoop_run samples minVal valRange step (a b : nat) :
  forall i result,
    (forall k, i <= k < i + Z.of_nat a ->
       0 <= trunc (inject_Z k * step) < Z.of_nat (length samples)) ->
    exists more,
      sparkLoop samples minVal valRange step (a + b) i result
      = sparkLoop samples minVal valRange step b (i + Z.of_nat a) (result ++ more)
      /\ length more = a /\ Forall (fun c => In c chars) more.
Proof.
  induction a as [|a IH]; intros i result Hgood.
  - exists []. rewrite app_nil_r, Z.add_0_r. split; [reflexivity|].
    split; [reflexivity | constructor].
  - cbn [Nat.add sparkLoop].
    destruct (Hgood i ltac:(lia)) as [H0 Hn].
    destruct (_ <? Z.of_nat (length samples)) eqn:E1; [|lia].
    destruct (_ <? 0) eqn:E2; [lia|].
    destruct (lookup_lt_is_Some_2 samples (Z.to_nat (trunc (inject_Z i * step))))
      as [sample ->]; [lia|].
    destruct (level_inside
                (trunc ((Value sample - minVal) / valRange
                        * inject_Z (Z.of_nat (length chars) - 1))))
      as (c & -> & Hc).
    destruct (IH (i + 1) (result ++ [c])) as (more & E & Hlen & Hall).
    { intros k Hk. apply Hgood. lia. }
    exists (c :: more). rewrite E.
    split; [|split; [simpl; lia | constructor; assumption]].
    f_equal; [lia|]. rewrite <- app_assoc. reflexivity.
Qed.

Lemma step_one (n width : Z) :
  1 <= n <= width ->
  ((if Qltb (inject_Z n / inject_Z width) 1 then 1
    else inject_Z n / inject_Z width) == 1)%Q.
Proof.
  intros H. destruct (Qltb _ 1) eqn:E; [reflexivity|].
  apply Qltb_ge in E.
  assert (Hw : (0 < inject_Z width)%Q).
  { change 0%Q with (inject_Z 0). rewrite <- Zlt_Qlt. lia. }
  assert (Hle : (inject_Z n / inject_Z width <= 1)%Q).
  { apply Qle_shift_div_r; [exact Hw|]. rewrite Qmult_1_l, <- Zle_Qle. lia. }
  apply Qle_antisym; assumption.
Qed.

Lemma step_wide (n width k : Z) :
  1 <= width < n -> 0 <= k < width ->
  0 <= trunc (inject_Z k
              * (if Qltb (inject_Z n / inject_Z width) 1 then 1
                 else inject_Z n / inject_Z width)) < n.
Proof.
  intros Hw Hk.
  assert (Hw0 : (0 < inject_Z width)%Q).
  { change 0%Q with (inject_Z 0). rewrite <- Zlt_Qlt. lia. }
  assert (Hk0 : (0 <= inject_Z k)%Q) by (apply inject_Z_nonneg; lia).
  assert (Hk1 : (inject_Z k + 1 <= inject_Z width)%Q).
  { change 1%Q with (inject_Z 1). rewrite <- inject_Z_plus, <- Zle_Qle. lia. }
  assert (Hn : (inject_Z width < inject_Z n)%Q) by (rewrite <- Zlt_Qlt; lia).
  set (q := (inject_Z n / inject_Z width)%Q).
  assert (Hq : (q * inject_Z width == inject_Z n)%Q) by (subst q; field; lra).
  assert (Hq1 : (1 < q)%Q).
  { subst q. apply Qlt_shift_div_l; [exact Hw0 | lra]. }
  assert (E : Qltb q 1 = false) by (apply Qltb_ge; lra).
  rewrite E. clearbody q.
  assert (Hpos : (0 <= inject_Z k * q)%Q) by nra.
  assert (Hlt : (inject_Z k * q < inject_Z n)%Q) by nra.
  rewrite (trunc_nonneg _ Hpos). split.
  - change 0 with (Qfloor 0). apply Qfloor_resp_le, Hpos.
  - rewrite Zlt_Qlt. apply (Qle_lt_trans _ (inject_Z k * q)); [apply Qfloor_le | exact Hlt].
Qed.

Lemma trunc_index (k : Z) (step : Q) :
  0 <= k -> (step == 1)%Q -> trunc (inject_Z k * step) = k.
Proof.
  intros Hk E.
  assert (Hpos : (0 <= inject_Z k * step)%Q).
  { rewrite E, Qmult_1_r. apply inject_Z_nonneg, Hk. }
  rewrite (trunc_nonneg _ Hpos). rewrite <- (Qfloor_Z k) at 2.
  apply Qfloor_comp. rewrite E. apply Qmult_1_r.
Qed.

(** [SparklineFromSamples] returns for every series and every width.  The
    sparkline has one glyph for each sample when the width allows, and
    [width] glyphs otherwise (none for a width of zero or less); each is
    one of the eight level glyphs. *)
Theorem sparkline_length (samples : list DataPoint) (width : Z) :
  exists out,
    SparklineFromSamples samples width = Ok out
    /\ length out = Nat.min (length samples) (Z.to_nat width)
    /\ Forall (fun c => In c chars) out.
Proof.
  unfold SparklineFromSamples. destruct samples as [|s0 l].
  - exists []. split; [reflexivity|]. split; [reflexivity | constructor].
  - cbn [length Nat.eqb].
    destruct (findMinMax (s0 :: l)) as [minVal maxVal].
    set (valRange := if Qltb (maxVal - minVal) 1 then 1%Q else (maxVal - minVal)%Q).
    set (n := S (length l)).
    set (step := if Qltb (inject_Z (Z.of_nat n) / inject_Z width) 1 then 1%Q
                 else (inject_Z (Z.of_nat n) / inject_Z width)%Q).
    destruct (Z_le_gt_dec width 0) as [Hw|Hw].
    { replace (Z.to_nat width) with 0%nat by lia.
      exists []. split; [reflexivity|]. split; [simpl; lia | constructor]. }
    destruct (Z_le_gt_dec (Z.of_nat n) width) as [Hn|Hn].
    + assert (Hstep : (step == 1)%Q) by (apply step_one; lia).
      destruct (sparkLoop_run (s0 :: l) minVal valRange step n (Z.to_nat width - n)
                  0 []) as (more & E & Hlen & Hall).
      { intros k Hk. rewrite (trunc_index k step) by (lia || exact Hstep).
        cbn [length]. fold n. lia. }
      replace (n + (Z.to_nat width - n))%nat with (Z.to_nat width) in E by lia.
      exists more. rewrite E. split; [|split; [lia | exact Hall]].
      apply sparkLoop_stop.
      rewrite (trunc_index _ step) by (lia || exact Hstep).
      cbn [length]. fold n. lia.
    + destruct (sparkLoop_run (s0 :: l) minVal valRange step (Z.to_nat width) 0
                  0 []) as (more & E & Hlen & Hall).
      { intros k Hk. cbn [length]. fold n. apply step_wide; lia. }
      rewrite Nat.add_0_r in E.
      exists more. rewrite E. split; [reflexivity|]. split; [lia | exact Hall].
Qed.

(* ================================================================== *)
(** * The stand-alone tracker ([internal/metrics]) *)

(** [metrics.Sample] has the fields of [test.Sample]; the record [Sample]
    stands for both. *)
Record Tracker := mkTracker {
  startTime : Time;
  Tracker_samples : list Sample;
  lastSampleAt : Time;
  Tracker_sampleInterval : Duration;
  Tracker_totalTyped : Z;
  Tracker_correctChars : Z
}.

Record TrackerResult := mkTrackerResult {
  Final_Duration : Duration;
  Final_TotalTyped : Z;
  Final_CorrectChars : Z;
  Final_WPM : Q;
  Final_RawWPM : Q;
  Final_Accuracy : Q;
  Final_Samples : list Sample
}.

Definition NewTracker : Tracker := mkTracker 0 [] 0 Second 0 0.

Definition Tracker_Start (start : Time) (t : Tracker) : Tracker :=
  mkTracker start (Tracker_samples t) start (Tracker_sampleInterval t)
            (Tracker_totalTyped t) (Tracker_correctChars t).

Definition Tracker_Update (total correct : Z) (t : Tracker) : Tracker :=
  mkTracker (startTime t) (Tracker_samples t) (lastSampleAt t)
            (Tracker_sampleInterval t) total correct.

Definition Tracker_calculateSample (t : Tracker) (elapsed : Duration) : Sample :=
  let minutes := Minutes elapsed in
  let minutes := if Qle_bool (1 # 1000) minutes then minutes else (1 # 1000)%Q in
  let rawWPM := ((inject_Z (Tracker_totalTyped t) / 5) / minutes)%Q in
  let netWPM := ((inject_Z (Tracker_correctChars t) / 5) / minutes)%Q in
  mkSample (Milliseconds elapsed) netWPM rawWPM.

Definition Tracker_TakeSample (at_ : Time) (t : Tracker) : Tracker :=
  let elapsed := Sub at_ (startTime t) in
  let sample := Tracker_calculateSample t elapsed in
  mkTracker (startTime t) (Tracker_samples t ++ [sample]) at_
            (Tracker_sampleInterval t) (Tracker_totalTyped t)
            (Tracker_correctChars t).

(** [MaybeSample] reads the clock once, unless the tracker has not
    started. *)
Definition Tracker_MaybeSample (t : Tracker) (c : Clock) : Tracker * Clock :=
  if IsZero (startTime t) then (t, c)
  else
    let now := c O in
    let c' := fun n => c (S n) in
    if Tracker_sampleInterval t <=? Sub now (lastSampleAt t)
    then (Tracker_TakeSample now t, c')
    else (t, c').

Definition Tracker_Finalize (endTime : Time) (t : Tracker)
  : TrackerResult * Tracker :=
  let t := if negb (IsZero (startTime t)) then Tracker_TakeSample endTime t
           else t in
  let duration := Sub endTime (startTime t) in
  let minutes := Minutes duration in
  let minutes := if Qle_bool (1 # 1000) minutes then minutes else (1 # 1000)%Q in
  let accuracy :=
    if 0 <? Tracker_totalTyped t
    then (inject_Z (Tracker_correctChars t)
          / inject_Z (Tracker_totalTyped t) * 100)%Q
    else 0%Q in
  let rawWPM := ((inject_Z (Tracker_totalTyped t) / 5) / minutes)%Q in
  let netWPM := ((inject_Z (Tracker_correctChars t) / 5) / minutes)%Q in
  (mkTrackerResult duration (Tracker_totalTyped t) (Tracker_correctChars t)
     netWPM rawWPM accuracy (Tracker_samples t), t).

(** What a caller does with a started tracker. *)
Inductive TrackerOp :=
| OpUpdate (total correct : Z)
| OpMaybeSample.

Definition tracker_step (op : TrackerOp) (tc : Tracker * Clock)
  : Tracker * Clock :=
  match op with
  | OpUpdate total correct => (Tracker_Update total correct (fst tc), snd tc)
  | OpMaybeSample => Tracker_MaybeSample (fst tc) (snd tc)
  end.

Definition tracker_run (ops : list TrackerOp) (tc : Tracker * Clock)
  : Tracker * Clock :=
  fold_left (fun tc op => tracker_step op tc) ops tc.

(** Each time of the list is at least [d] after the one before it, and
    the first at least [d] after [prev]. *)
Fixpoint spaced_from (d prev : Z) (l : list Z) : Prop :=
  match l with
  | [] => True
  | x :: l' => prev + d <= x /\ spaced_from d x l'
  end.

Lemma last_cons_default (l : list Z) (z a b : Z) :
  List.last (z :: l) a = List.last (z :: l) b.
Proof.
  revert z. induction l as [|y l IH]; intros z; [reflexivity|].
  change (List.last (y :: l) a = List.last (y :: l) b). apply IH.
Qed.

Lemma spaced_from_snoc d prev l x :
  spaced_from d prev l -> List.last l prev + d <= x ->
  spaced_from d prev (l ++ [x]).
Proof.
  revert prev. induction l as [|y l IH]; intros prev Hl Hx.
  - simpl in *. split; [exact Hx | exact I].
  - destruct Hl as [Hy Hl]. split; [exact Hy|].
    apply IH; [exact Hl|].
    destruct l as [|z l]; [exact Hx|].
    rewrite (last_cons_default l z y prev). exact Hx.
Qed.

Lemma last_snoc_default (l : list Z) (x d : Z) : List.last (l ++ [x]) d = x.
Proof. apply List.last_last. Qed.

Lemma ms_gap (a b : Z) :
  0 <= a -> a + 1000000000 <= b -> Milliseconds a + 1000 <= Milliseconds b.
Proof.
  intros Ha Hb. unfold Milliseconds, Millisecond.
  rewrite !Z.quot_div_nonneg by lia.
  rewrite <- (Z.div_add a 1000 1000000) by lia.
  apply Z.div_le_mono; lia.
Qed.

(** The state of a tracker started at [t0], with [k] clock readings still
    to come. *)
Definition tracking (t0 : Time) (k : nat) (tc : Tracker * Clock) : Prop :=
  startTime (fst tc) = t0
  /\ Tracker_sampleInterval (fst tc) = Second
  /\ t0 <= lastSampleAt (fst tc) <= snd tc O
  /\ monotone (snd tc)
  /\ (forall n, (n < k)%nat -> snd tc n - t0 < 2 ^ 63)
  /\ spaced_from 1000 0 (map TimeMs (Tracker_samples (fst tc)))
  /\ List.last (map TimeMs (Tracker_samples (fst tc))) 0
     <= Milliseconds (lastSampleAt (fst tc) - t0).

Lemma tracking_step t0 k op tc :
  IsZero t0 = false -> tracking t0 (S k) tc -> tracking t0 k (tracker_step op tc).
Proof.
  intros Hz (Hst & Hint & Hlast & Hmono & Hspan & Hsp & Hms).
  destruct tc as [t c]. cbn [fst snd] in *.
  destruct op as [total correct|]; cbn [tracker_step fst snd].
  - split; [exact Hst|]. split; [exact Hint|]. split; [exact Hlast|].
    split; [exact Hmono|]. split; [intros n Hn; apply Hspan; lia|].
    split; assumption.
  - unfold Tracker_MaybeSample. rewrite Hst, Hz, Hint.
    assert (Hmono' : monotone (fun n => c (S n))) by (intros n; apply Hmono).
    assert (Hspan' : forall n, (n < k)%nat -> c (S n) - t0 < 2 ^ 63)
      by (intros n Hn; apply Hspan; lia).
    pose proof (Hmono O) as H01.
    destruct (Second <=? Sub (c O) (lastSampleAt t)) eqn:E.
    + apply Z.leb_le in E.
      assert (Hgap : lastSampleAt t + Second <= c O).
      { unfold Sub, minDuration, maxDuration, Second, Millisecond in *. lia. }
      pose proof (Hspan O ltac:(lia)) as Hs0.
      assert (Hel : Sub (c O) t0 = c O - t0).
      { unfold Sub, minDuration, maxDuration. lia. }
      assert (Hnew : Milliseconds (lastSampleAt t - t0) + 1000
                     <= Milliseconds (c O - t0)).
      { apply ms_gap; [lia|].
        unfold Second, Millisecond in Hgap. lia. }
      unfold tracking.
      cbn [fst snd Tracker_TakeSample startTime Tracker_samples lastSampleAt
           Tracker_sampleInterval].
      rewrite Hst, Hel, map_app. cbn [map Tracker_calculateSample TimeMs].
      split; [reflexivity|]. split; [exact Hint|]. split; [lia|].
      split; [exact Hmono'|]. split; [exact Hspan'|].
      split; [apply spaced_from_snoc; [exact Hsp | lia]|].
      rewrite last_snoc_default. lia.
    + unfold tracking. cbn [fst snd]. split; [exact Hst|]. split; [exact Hint|]. split; [lia|].
      split; [exact Hmono'|]. split; [exact Hspan'|]. split; assumption.
Qed.

Lemma tracking_run t0 ops : forall tc,
  IsZero t0 = false -> tracking t0 (length ops) tc ->
  tracking t0 O (tracker_run ops tc).
Proof.
  induction ops as [|op ops IH]; intros tc Hz H; [exact H|].
  cbn [tracker_run fold_left]. apply (IH _ Hz), tracking_step; assumption.
Qed.

(** A tracker started at [t0] and then driven by any sequence of [Update]
    and [MaybeSample] calls, under a clock that does not go back and whose
    readings stay within the range of a [Duration] from [t0], records
    samples that are at least a second apart: each [TimeMs] is at least
    1000 more than the one before, and the first is at least 1000. *)
Theorem tracker_samples_spaced (t0 : Time) (c : Clock) (ops : list TrackerOp)
  (Hstart : IsZero t0 = false)
  (Hfirst : t0 <= c O) (Hmono : monotone c)
  (Hspan : forall n, (n < length ops)%nat -> c n - t0 < 2 ^ 63) :
  spaced_from 1000 0
    (map TimeMs
       (Tracker_samples (fst (tracker_run ops (Tracker_Start t0 NewTracker, c))))).
Proof.
  assert (H0 : tracking t0 (length ops) (Tracker_Start t0 NewTracker, c)).
  { split; [reflexivity|]. split; [reflexivity|]. cbn [fst snd Tracker_Start lastSampleAt].
    split; [lia|]. split; [exact Hmono|]. split; [exact Hspan|].
    split; [exact I|]. simpl. rewrite Z.sub_diag. reflexivity. }
  pose proof (tracking_run t0 ops _ Hstart H0) as (_ & _ & _ & _ & _ & H & _).
  exact H.
Qed.

Lemma tracker_samples_spaced_witness :
  IsZero Second = false
  /\ spaced_from 1000 0
       (map TimeMs
          (Tracker_samples
             (fst (tracker_run
                     [OpMaybeSample; OpUpdate 5 4; OpMaybeSample; OpMaybeSample]
                     (Tracker_Start Second NewTracker, steady 600000000))))).
Proof.
  split; [reflexivity|].
  apply (tracker_samples_spaced Second (steady 600000000)
           [OpMaybeSample; OpUpdate 5 4; OpMaybeSample; OpMaybeSample]).
  - reflexivity.
  - unfold steady. lia.
  - apply steady_monotone. lia.
  - intros n Hn. simpl in Hn. unfold steady, Second, Millisecond. lia.
Defined.

(** [Finalize] appends exactly one sample to a started tracker, at the
    duration in milliseconds and with the speeds of the result, and none to
    a tracker that has not started; the result carries the samples so
    extended.  For counts with [0 <= correctChars <= totalTyped] the
    accuracy lies between 0 and 100 and [0 <= WPM <= RawWPM]. *)
Theorem tracker_finalize_sample (t : Tracker) (endTime : Time)
  (Hcounts : 0 <= Tracker_correctChars t <= Tracker_totalTyped t) :
  let res := fst (Tracker_Finalize endTime t) in
  let t' := snd (Tracker_Finalize endTime t) in
  Final_Samples res = Tracker_samples t'
  /\ Tracker_samples t'
     = Tracker_samples t
       ++ (if IsZero (startTime t) then []
           else [mkSample (Milliseconds (Final_Duration res))
                          (Final_WPM res) (Final_RawWPM res)])
  /\ Final_Duration res = Sub endTime (startTime t)
  /\ (0 <= Final_Accuracy res)%Q /\ (Final_Accuracy res <= 100)%Q
  /\ (0 <= Final_WPM res)%Q /\ (Final_WPM res <= Final_RawWPM res)%Q.
Proof.
  destruct t as [st smp lst itv tot cor]. cbn [Tracker_correctChars Tracker_totalTyped] in Hcounts.
  unfold Tracker_Finalize.
  cbn [startTime]. destruct (IsZero st) eqn:Est;
    cbn [negb fst snd Tracker_TakeSample Tracker_calculateSample startTime
         Tracker_samples Tracker_totalTyped Tracker_correctChars
         Final_Samples Final_Duration Final_WPM Final_RawWPM Final_Accuracy];
    fold (floor_minutes (Sub endTime st)).
  all: split; [reflexivity|]; split; [rewrite ?app_nil_r; reflexivity|];
       split; [reflexivity|].
  all: pose proof (floor_minutes_pos (Sub endTime st)) as Hm.
  all: assert (Hacc : (0 <= (if 0 <? tot then inject_Z cor / inject_Z tot * 100 else 0)
                       /\ (if 0 <? tot then inject_Z cor / inject_Z tot * 100 else 0)
                          <= 100)%Q)
         by (destruct (0 <? tot) eqn:E;
             [apply accuracy_bounds; [exact Hcounts | apply Z.ltb_lt, E]
             | split; discriminate]).
  all: destruct Hacc as [Ha0 Ha1].
  all: split; [exact Ha0|]; split; [exact Ha1|].
  all: split; [apply wpm_nonneg; [lia | exact Hm] | apply wpm_mono; [lia | exact Hm]].
Qed.

Lemma tracker_finalize_sample_witness :
  0 <= Tracker_correctChars (Tracker_Update 5 4 (Tracker_Start Second NewTracker))
    <= Tracker_totalTyped (Tracker_Update 5 4 (Tracker_Start Second NewTracker))
  /\ Final_Duration
       (fst (Tracker_Finalize (61 * Second)
               (Tracker_Update 5 4 (Tracker_Start Second NewTracker))))
     = Minute.
Proof.
  assert (H : 0 <= Tracker_correctChars
                     (Tracker_Update 5 4 (Tracker_Start Second NewTracker))
              <= Tracker_totalTyped
                   (Tracker_Update 5 4 (Tracker_Start Second NewTracker)))
    by (simpl; lia).
  split; [exact H|].
  rewrite (proj1 (proj2 (proj2
             (tracker_finalize_sample
                (Tracker_Update 5 4 (Tracker_Start Second NewTracker))
                (61 * Second) H)))).
  reflexivity.
Defined.

(** The tracker and the session compute the same result: for a tracker
    with the start time and the counts of a session, [Finalize] at the
    session's [EndedAt] gives the duration, the counts, the speeds and the
    accuracy of [GetResult], and appends the same final sample when the
    session has ended. *)
Theorem tracker_agrees_with_session (w : World) (t : Tracker)
  (Hstart : startTime t = StartedAt (state (sess w)))
  (Htotal : Tracker_totalTyped t = totalTyped (metrics (sess w)))
  (Hcorrect : Tracker_correctChars t = correctChars (metrics (sess w))) :
  exists res w',
    GetResult w = Done (res, w')
    /\ Final_Duration (fst (Tracker_Finalize (EndedAt (state (sess w))) t))
       = Result_Duration res
    /\ Final_TotalTyped (fst (Tracker_Finalize (EndedAt (state (sess w))) t))
       = Result_TotalTyped res
    /\ Final_CorrectChars (fst (Tracker_Finalize (EndedAt (state (sess w))) t))
       = Result_CorrectChars res
    /\ Final_WPM (fst (Tracker_Finalize (EndedAt (state (sess w))) t))
       = Result_WPM res
    /\ Final_RawWPM (fst (Tracker_Finalize (EndedAt (state (sess w))) t))
       = Result_RawWPM res
    /\ Final_Accuracy (fst (Tracker_Finalize (EndedAt (state (sess w))) t))
       = Result_Accuracy res
    /\ (IsZero (StartedAt (state (sess w))) = false ->
        IsZero (EndedAt (state (sess w))) = false ->
        List.last (Final_Samples
                     (fst (Tracker_Finalize (EndedAt (state (sess w))) t)))
                  (mkSample 0 0 0)
        = List.last (Result_Samples res) (mkSample 0 0 0)).
Proof.
  exists (result_of (sess (final_w w))), (final_w w).
  split; [apply GetResult_eq|].
  destruct w as [[[tg target typed cs st en fin ab] [smp lst itv tot cor] secs td] c].
  destruct t as [st' smp' lst' itv' tot' cor'].
  cbn [sess state metrics StartedAt EndedAt totalTyped correctChars startTime
       Tracker_totalTyped Tracker_correctChars] in *.
  subst st' tot' cor'.
  unfold Tracker_Finalize, final_w, result_of, floor_minutes.
  cbn [sess state metrics StartedAt EndedAt startTime].
  destruct (IsZero st) eqn:Est; destruct (IsZero en) eqn:Een;
    cbn [negb andb fst snd Tracker_TakeSample Tracker_calculateSample startTime
         Tracker_samples Tracker_totalTyped Tracker_correctChars sess state
         metrics StartedAt EndedAt totalTyped correctChars samples on_metrics
         set_samples
         Final_Samples Final_Duration Final_WPM Final_RawWPM Final_Accuracy
         Final_TotalTyped Final_CorrectChars Result_Duration Result_TotalTyped
         Result_CorrectChars Result_WPM Result_RawWPM Result_Accuracy
         Result_Samples].
  all: repeat (split; [reflexivity|]).
  all: try (intros H; discriminate H).
  all: try (intros _ H; discriminate H).
  intros _ _. unfold calculateSample.
  cbn [sess state metrics totalTyped correctChars].
  rewrite !List.last_last. reflexivity.
Qed.

Lemma tracker_agrees_with_session_witness :
  exists res w',
    GetResult world_ended = Done (res, w')
    /\ Final_Duration
         (fst (Tracker_Finalize (EndedAt (state (sess world_ended)))
                 (Tracker_Update 1 1
                    (Tracker_Start (StartedAt (state (sess world_ended)))
                       NewTracker))))
       = Result_Duration res.
Proof.
  destruct (tracker_agrees_with_session world_ended
              (Tracker_Update 1 1
                 (Tracker_Start (StartedAt (state (sess world_ended))) NewTracker)))
    as (res & w' & E & Hd & _).
  - reflexivity.
  - vm_compute. reflexivity.
  - vm_compute. reflexivity.
  - exists res, w'. split; [exact E | exact Hd].
Defined.

(* ================================================================== *)
(** * Words and lines ([internal/ui], [internal/commands/show]) *)

(** [unicode.IsSpace]. *)
Definition IsSpace (r : rune) : bool :=
  (r =? 9) || (r =? 10) || (r =? 11) || (r =? 12) || (r =? 13) || (r =? 32)
  || (r =? 133) || (r =? 160) || (r =? 5760)
  || ((8192 <=? r) && (r <=? 8202))
  || (r =? 8232) || (r =? 8233) || (r =? 8239) || (r =? 8287) || (r =? 12288).

(** [strings.Fields]: the maximal runs of runes that are not white space;
    [word] is the run being read. *)
Fixpoint fields (word : list rune) (s : list rune) : list (list rune) :=
  match s with
  | [] => match word with [] => [] | _ => [word] end
  | r :: s' =>
      if IsSpace r
      then match word with
           | [] => fields [] s'
           | _ => word :: fields [] s'
           end
      else fields (word ++ [r]) s'
  end.

Definition Fields (s : list rune) : list (list rune) := fields [] s.

(** [strings.Join(words, " ")]. *)
Fixpoint Join (words : list (list rune)) : list rune :=
  match words with
  | [] => []
  | [w] => w
  | w :: rest => w ++ [32] ++ Join rest
  end.

Definition countWords (s : list rune) : Z := Z.of_nat (length (Fields s)).

(** The loop of [wrapText]: [i] is the index of the first of [words],
    [n] the number of words in all. *)
Fixpoint wrapLoop (maxWidth : Z) (n i : nat) (words : list (list rune))
  (lines : list (list rune)) (currentLine : list rune)
  : list (list rune) * list rune :=
  match words with
  | [] => (lines, currentLine)
  | wordRunes :: rest =>
      let '(lines, currentLine) :=
        if (0 <? length currentLine)%nat then
          if Z.of_nat (length currentLine) + 1 + Z.of_nat (length wordRunes)
             <=? maxWidth
          then (lines, currentLine ++ [32] ++ wordRunes)
          else (lines ++ [currentLine], wordRunes)
        else
          if Z.of_nat (length wordRunes) <=? maxWidth
          then (lines, wordRunes)
          else (lines, take (Z.to_nat maxWidth) wordRunes) in
      let lines :=
        if (i =? n - 1)%nat && (0 <? length currentLine)%nat
        then lines ++ [currentLine] else lines in
      wrapLoop maxWidth n (S i) rest lines currentLine
  end.

Definition wrapText (runes : list rune) (maxWidth : Z) : list (list rune) :=
  let maxWidth := if maxWidth <=? 0 then 80 else maxWidth in
  let words := Fields runes in
  if (length words =? 0)%nat then [runes]
  else
    let '(lines, currentLine) :=
      wrapLoop maxWidth (length words) 0 words [] [] in
    if (length lines =? 0)%nat && (0 <? length currentLine)%nat
    then lines ++ [currentLine] else lines.

(** [s[start:i]] *)
Definition substring (s : list rune) (start i : nat) : list rune :=
  take (i - start) (drop start s).

(** The loop of [splitLines] of the [show] command: [rest] is what is left
    of [s] from index [i] on. *)
Fixpoint splitLoop (s : list rune) (i : nat) (rest : list rune)
  (start : nat) (lines : list (list rune)) : nat * list (list rune) :=
  match rest with
  | [] => (start, lines)
  | c :: rest' =>
      if c =? newline
      then splitLoop s (S i) rest' (S i) (lines ++ [substring s start i])
      else splitLoop s (S i) rest' start lines
  end.

Definition splitLines (s : list rune) : list (list rune) :=
  let '(start, lines) := splitLoop s 0 s 0 [] in
  if (start <? length s)%nat then lines ++ [drop start s] else lines.

(* ------------------------------------------------------------------ *)
(** ** Fields *)

(** A word: not empty, and without white space. *)
Definition is_word (w : list rune) : Prop :=
  w <> [] /\ Forall (fun r => IsSpace r = false) w.

Lemma fields_words : forall s word,
  Forall (fun r => IsSpace r = false) word ->
  Forall is_word (fields word s).
Proof.
  induction s as [|r s IH]; intros word Hw; simpl.
  - destruct word; [constructor|]. constructor; [|constructor].
    split; [discriminate | exact Hw].
  - destruct (IsSpace r) eqn:E.
    + destruct word as [|a word]; [apply IH; constructor|].
      constructor; [split; [discriminate | exact Hw]|]. apply IH. constructor.
    + apply IH. apply Forall_app. split; [exact Hw|]. constructor; [exact E | constructor].
Qed.

Lemma fields_app (w : list rune) : forall word s : list rune,
  Forall (fun r => IsSpace r = false) w ->
  fields word (w ++ s) = fields (word ++ w) s.
Proof.
  induction w as [|r w IH]; intros word s Hw.
  - rewrite app_nil_r. reflexivity.
  - apply Forall_cons in Hw as [Hr Hw]. simpl. rewrite Hr.
    rewrite (IH _ _ Hw), <- app_assoc. reflexivity.
Qed.

Lemma Fields_Join (ws : list (list rune)) :
  Forall is_word ws -> Fields (Join ws) = ws.
Proof.
  unfold Fields. induction ws as [|w ws IH]; intros H; [reflexivity|].
  apply Forall_cons in H as [[Hne Hw] Hws].
  destruct ws as [|w2 ws].
  - simpl. rewrite <- (app_nil_r w) at 1. rewrite (fields_app w [] [] Hw).
    simpl. destruct w; [congruence | reflexivity].
  - change (Join (w :: w2 :: ws)) with (w ++ [32] ++ Join (w2 :: ws)).
    rewrite (fields_app w [] _ Hw). simpl.
    destruct w as [|a w]; [congruence|]. f_equal. exact (IH Hws).
Qed.

(** [strings.Fields] returns words that are not empty and hold no white
    space, whatever the text; and of words joined by single spaces, as
    [GenerateText] joins them, it returns exactly those words, so that
    [countWords] counts them. *)
Theorem fields_of_joined_words (s : list rune) (words : list (list rune)) :
  Forall is_word (Fields s)
  /\ (Forall is_word words ->
      Fields (Join words) = words
      /\ countWords (Join words) = Z.of_nat (length words)).
Proof.
  split; [apply fields_words; constructor|].
  intros H. unfold countWords. rewrite (Fields_Join words H).
  split; reflexivity.
Qed.

(* ------------------------------------------------------------------ *)
(** ** Wrapping *)

Lemma Join_cons (w : list rune) (ws : list (list rune)) :
  ws <> [] -> Join (w :: ws) = w ++ [32] ++ Join ws.
Proof. destruct ws; [congruence | reflexivity]. Qed.

Lemma Join_prefix (l x y : list (list rune)) :
  x <> [] -> y <> [] -> Join x = Join y -> Join (l ++ x) = Join (l ++ y).
Proof.
  intros Hx Hy E. induction l as [|a l IH]; [exact E|].
  cbn [app]. rewrite !Join_cons; [congruence | |].
  - destruct l; [exact Hy | discriminate].
  - destruct l; [exact Hx | discriminate].
Qed.

Lemma Join_merge (l : list (list rune)) (a b : list rune) (r : list (list rune)) :
  Join (l ++ (a ++ [32] ++ b) :: r) = Join (l ++ a :: b :: r).
Proof.
  apply Join_prefix; [discriminate | discriminate|].
  destruct r as [|c r].
  - reflexivity.
  - rewrite (Join_cons a (b :: c :: r)) by discriminate.
    rewrite (Join_cons b (c :: r)) by discriminate.
    rewrite (Join_cons _ (c :: r)) by discriminate.
    rewrite <- !app_assoc. reflexivity.
Qed.

Definition fits (maxWidth : Z) (line : list rune) : Prop :=
  Z.of_nat (length line) <= maxWidth.

Lemma wrapLoop_spec maxWidth n :
  forall (words : list (list rune)) i (lines : list (list rune))
         (currentLine : list rune),
  currentLine <> [] -> words <> [] -> Forall (fun w => w <> []) words ->
  (i + length words = n)%nat ->
  Join (fst (wrapLoop maxWidth n i words lines currentLine))
  = Join (lines ++ currentLine :: words)
  /\ fst (wrapLoop maxWidth n i words lines currentLine) <> []
  /\ (Forall (fits maxWidth) lines -> fits maxWidth currentLine ->
      Forall (fits maxWidth) words ->
      Forall (fits maxWidth) (fst (wrapLoop maxWidth n i words lines currentLine)))
  /\ (Forall (fun l => l <> []) lines ->
      Forall (fun l => l <> [])
             (fst (wrapLoop maxWidth n i words lines currentLine))).
Proof.
  intros wds. induction wds as [|w rest IH]; intros i lines cur Hcur Hne Hall Hn;
    [congruence|].
  apply Forall_cons in Hall as [Hw Hrest].
  cbn [wrapLoop].
  assert (Hpos : (0 <? length cur)%nat = true).
  { apply Nat.ltb_lt. destruct cur; [congruence | simpl; lia]. }
  rewrite Hpos.
  assert (Hstep : exists lines1 cur1,
             (if Z.of_nat (length cur) + 1 + Z.of_nat (length w) <=? maxWidth
              then (lines, cur ++ [32] ++ w) else (lines ++ [cur], w))
             = (lines1, cur1)
             /\ cur1 <> []
             /\ (forall r, Join (lines1 ++ cur1 :: r) = Join (lines ++ cur :: w :: r))
             /\ (Forall (fits maxWidth) lines -> fits maxWidth cur ->
                 fits maxWidth w ->
                 Forall (fits maxWidth) lines1 /\ fits maxWidth cur1)
             /\ (Forall (fun l => l <> []) lines ->
                 Forall (fun l => l <> []) lines1)).
  { destruct (Z.of_nat (length cur) + 1 + Z.of_nat (length w) <=? maxWidth) eqn:E.
    - exists lines, (cur ++ [32] ++ w). split; [reflexivity|].
      split; [destruct cur; [congruence | discriminate]|].
      split; [intros r; apply Join_merge|].
      split; [|auto].
      intros Hl _ _. split; [exact Hl|]. unfold fits. apply Z.leb_le in E.
      rewrite !length_app. simpl. unfold rune in *. lia.
    - exists (lines ++ [cur]), w. split; [reflexivity|]. split; [exact Hw|].
      split; [intros r; rewrite <- app_assoc; reflexivity|].
      split.
      + intros Hl Hc Hwf. split; [|exact Hwf]. apply Forall_app.
        split; [exact Hl|]. constructor; [exact Hc | constructor].
      + intros Hl. apply Forall_app. split; [exact Hl|].
        constructor; [exact Hcur | constructor]. }
  destruct Hstep as (lines1 & cur1 & -> & Hcur1 & Hjoin & Hfit1 & Hne1).
  assert (Hpos1 : (0 <? length cur1)%nat = true).
  { apply Nat.ltb_lt. destruct cur1; [congruence | simpl; lia]. }
  rewrite Hpos1, andb_true_r.
  destruct rest as [|w2 rest].
  - assert (Elast : (i =? n - 1)%nat = true) by (apply Nat.eqb_eq; simpl in Hn; lia).
    rewrite Elast. cbn [wrapLoop fst].
    split; [apply Hjoin|]. split; [destruct lines1; discriminate|].
    split.
    + intros Hl Hc Hws. apply Forall_cons in Hws as [Hwf _].
      destruct (Hfit1 Hl Hc Hwf) as [H1 H2].
      apply Forall_app. split; [exact H1|]. constructor; [exact H2 | constructor].
    + intros Hl. apply Forall_app. split; [apply Hne1, Hl|].
      constructor; [exact Hcur1 | constructor].
  - assert (Elast : (i =? n - 1)%nat = false) by (apply Nat.eqb_neq; simpl in Hn; lia).
    rewrite Elast.
    destruct (IH (S i) lines1 cur1 Hcur1 ltac:(discriminate) Hrest
                ltac:(simpl in *; lia)) as (J & N & F & E).
    split; [rewrite J; apply Hjoin|]. split; [exact N|]. split.
    + intros Hl Hc Hws. apply Forall_cons in Hws as [Hwf Hws].
      destruct (Hfit1 Hl Hc Hwf) as [H1 H2]. apply F; assumption.
    + intros Hl. apply E, Hne1, Hl.
Qed.

(** [wrapText] of a text without words returns the text as its only line.
    Otherwise no line is empty, and the lines joined by single spaces are
    the words joined by single spaces, except that a first word longer
    than the width is cut to the width and loses its end.  If no later
    word is longer than the width, no line is. *)
Theorem wrapText_keeps_words (runes : list rune) (maxWidth : Z) :
  match Fields runes with
  | [] => wrapText runes maxWidth = [runes]
  | first :: rest =>
      let width := if maxWidth <=? 0 then 80 else maxWidth in
      Join (wrapText runes maxWidth)
      = Join (take (Z.to_nat width) first :: rest)
      /\ Forall (fun line => line <> []) (wrapText runes maxWidth)
      /\ (Forall (fits width) rest ->
          Forall (fits width) (wrapText runes maxWidth))
  end.
Proof.
  unfold wrapText.
  pose proof (fields_words runes [] ltac:(constructor)) as Hwords.
  fold (Fields runes) in Hwords.
  destruct (Fields runes) as [|first rest] eqn:EF; [reflexivity|].
  cbn [length Nat.eqb].
  set (width := if maxWidth <=? 0 then 80 else maxWidth).
  assert (Hwidth : 0 < width) by (subst width; destruct (maxWidth <=? 0) eqn:E; lia).
  apply Forall_cons in Hwords as [[Hfirst _] Hrest].
  assert (Hrest' : Forall (fun w => w <> []) rest).
  { eapply Forall_impl; [exact Hrest|]. intros w [H _]. exact H. }
  cbn [wrapLoop length Nat.ltb Nat.leb].
  set (cur := if Z.of_nat (length first) <=? width then first
              else take (Z.to_nat width) first).
  assert (Hstep : (if Z.of_nat (length first) <=? width then ([], first)
                   else ([] : list (list rune), take (Z.to_nat width) first))
                  = ([], cur)) by (subst cur; destruct (_ <=? width); reflexivity).
  rewrite Hstep. cbv beta iota.
  assert (Ecur : cur = take (Z.to_nat width) first).
  { subst cur. destruct (Z.of_nat (length first) <=? width) eqn:E; [|reflexivity].
    apply Z.leb_le in E. symmetry. apply take_ge. lia. }
  assert (Hcur : cur <> []).
  { rewrite Ecur. destruct first as [|a first]; [congruence|].
    destruct (Z.to_nat width) as [|k] eqn:Ek; [lia | discriminate]. }
  assert (Hcurfit : fits width cur).
  { rewrite Ecur. unfold fits. rewrite length_take. lia. }
  assert (Hpos : match length cur with O => false | S _ => true end = true).
  { destruct cur; [congruence | reflexivity]. }
  rewrite Hpos, andb_true_r.
  destruct rest as [|w2 rest].
  - cbn [Nat.sub Nat.eqb app wrapLoop length].
    rewrite <- Ecur. split; [reflexivity|].
    split; [constructor; [exact Hcur | constructor]|].
    intros _. constructor; [exact Hcurfit | constructor].
  - cbn [length Nat.sub Nat.eqb].
    destruct (wrapLoop_spec width (S (S (length rest))) (w2 :: rest) 1 [] cur
                Hcur ltac:(discriminate) Hrest' ltac:(simpl; lia))
      as (J & N & F & E).
    destruct (wrapLoop width (S (S (length rest))) 1 (w2 :: rest) [] cur)
      as [lines currentLine].
    cbn [fst] in *.
    assert (Elen : (length lines =? 0)%nat = false)
      by (destruct lines; [congruence | reflexivity]).
    rewrite Elen. cbn [andb].
    split; [rewrite J, Ecur; reflexivity|].
    split; [apply E; constructor|].
    intros Hfit. apply F; [constructor | exact Hcurfit | exact Hfit].
Qed.

(* ------------------------------------------------------------------ *)
(** ** Lines *)

Definition no_newline (line : list rune) : Prop :=
  Forall (fun c => c <> newline) line.

Definition terminated (lines : list (list rune)) : list rune :=
  concat (map (fun line => line ++ [newline]) lines).

Lemma terminated_snoc lines line :
  terminated (lines ++ [line]) = terminated lines ++ line ++ [newline].
Proof.
  unfold terminated. rewrite map_app, concat_app. simpl.
  rewrite app_nil_r. reflexivity.
Qed.

Lemma take_split {A} (s : list A) : forall start i,
  (start <= i)%nat -> take i s = take start s ++ take (i - start) (drop start s).
Proof.
  induction s as [|a s IH]; intros start i H.
  - rewrite !take_nil, drop_nil, take_nil. reflexivity.
  - destruct start as [|start]; [rewrite Nat.sub_0_r; reflexivity|].
    destruct i as [|i]; [lia|]. simpl. f_equal. apply IH. lia.
Qed.

(** Between two iterations of the loop of [splitLines]: the lines found
    so far make up [s] to [start], a line starts at [start], and no
    newline lies between [start] and [i]. *)
Lemma splitLoop_spec (s : list rune) : forall rest i start lines,
  s = take i s ++ rest -> i = length (take i s) ->
  (start <= i)%nat ->
  terminated lines = take start s ->
  Forall no_newline lines ->
  no_newline (substring s start i) ->
  (start = O \/ s !! (start - 1)%nat = Some newline) ->
  let r := splitLoop s i rest start lines in
  (fst r <= length s)%nat
  /\ terminated (snd r) = take (fst r) s
  /\ Forall no_newline (snd r)
  /\ no_newline (drop (fst r) s)
  /\ (fst r = O \/ s !! (fst r - 1)%nat = Some newline).
Proof.
  induction rest as [|c rest IH]; intros i start lines Hs Hi Hstart Hlines Hnl Hseg Hprev.
  - cbn [splitLoop fst snd].
    assert (Hlen : i = length s).
    { rewrite app_nil_r in Hs. rewrite <- Hs in Hi. exact Hi. }
    subst i. split; [exact Hstart|]. split; [exact Hlines|]. split; [exact Hnl|].
    split; [|exact Hprev].
    unfold substring in Hseg. rewrite take_ge in Hseg; [exact Hseg|].
    rewrite length_drop. lia.
  - assert (Hc : s !! i = Some c).
    { rewrite Hs at 1. rewrite lookup_app_r by lia.
      replace (i - length (take i s))%nat with O by lia. reflexivity. }
    assert (Hs' : s = take (S i) s ++ rest).
    { rewrite (take_S_r s i c Hc), <- app_assoc. exact Hs. }
    assert (Hi' : S i = length (take (S i) s)).
    { rewrite length_take. apply lookup_lt_Some in Hc. lia. }
    cbn [splitLoop]. destruct (c =? newline) eqn:E.
    + apply Z.eqb_eq in E. subst c.
      apply IH; [exact Hs' | exact Hi' | lia | | | |].
      * rewrite terminated_snoc, Hlines. unfold substring.
        rewrite (take_S_r s i newline Hc), (take_split s start i Hstart).
        rewrite <- app_assoc. reflexivity.
      * apply Forall_app. split; [exact Hnl|]. constructor; [exact Hseg | constructor].
      * unfold substring. rewrite Nat.sub_diag. constructor.
      * right. replace (S i - 1)%nat with i by lia. exact Hc.
    + apply Z.eqb_neq in E.
      apply IH; [exact Hs' | exact Hi' | lia | exact Hlines | exact Hnl | | exact Hprev].
      unfold substring in *.
      replace (S i - start)%nat with (S (i - start)) by lia.
      rewrite (take_S_r _ (i - start) c).
      * apply Forall_app. split; [exact Hseg|]. constructor; [exact E | constructor].
      * rewrite lookup_drop. replace (start + (i - start))%nat with i by lia. exact Hc.
Qed.

(** The lines that [splitLines] returns hold no newline, and each followed
    by a newline they make up the text again, with a newline added when
    the text does not end with one: the last newline of a text starts no
    empty line. *)
Theorem splitLines_rejoins (s : list rune) :
  Forall no_newline (splitLines s)
  /\ terminated (splitLines s)
     = s ++ (if List.last s newline =? newline then [] else [newline]).
Proof.
  unfold splitLines.
  pose proof (splitLoop_spec s s O O []) as H.
  destruct (splitLoop s 0 s 0 []) as [start lines].
  cbn [fst snd] in H.
  destruct H as (Hle & Hlines & Hnl & Hrest & Hprev);
    [reflexivity | reflexivity | lia | reflexivity | constructor
     | constructor | left; reflexivity|].
  destruct (start <? length s)%nat eqn:E.
  - apply Nat.ltb_lt in E. split.
    + apply Forall_app. split; [exact Hnl|]. constructor; [exact Hrest | constructor].
    + rewrite terminated_snoc, Hlines, app_assoc, take_drop.
      assert (Hlast : List.last s newline <> newline).
      { rewrite <- (take_drop start s).
        destruct (drop start s) as [|a l] eqn:Ed.
        { apply (f_equal length) in Ed. rewrite length_drop in Ed. simpl in Ed. lia. }
        destruct (@exists_last _ (a :: l) ltac:(discriminate)) as (l' & z & El).
        rewrite El, app_assoc, List.last_last.
        unfold no_newline in Hrest. rewrite El in Hrest.
        apply Forall_app in Hrest as [_ Hz]. apply Forall_cons in Hz as [Hz _].
        exact Hz. }
      apply Z.eqb_neq in Hlast. rewrite Hlast. reflexivity.
  - apply Nat.ltb_ge in E. assert (start = length s) by lia. subst start.
    split; [exact Hnl|]. rewrite Hlines, firstn_all.
    assert (Hlast : List.last s newline = newline).
    { destruct Hprev as [H0|Hp].
      - destruct s; [reflexivity | discriminate].
      - destruct (@exists_last _ s) as (l' & z & El).
        { intros ->. discriminate Hp. }
        rewrite El in Hp |- *. rewrite List.last_last.
        rewrite length_app in Hp. simpl in Hp.
        rewrite lookup_app_r in Hp by lia.
        replace (length l' + 1 - 1 - length l')%nat with O in Hp by lia.
        simpl in Hp. congruence. }
    rewrite Hlast, Z.eqb_refl, app_nil_r. reflexivity.
Qed.

(* ================================================================== *)
(** * Targets ([internal/text]) *)

Record Quote := mkQuote {
  Quote_ID : string;
  Quote_Text : list rune;
  Quote_Source : string
}.

(** The errors of the generator. *)
Inductive TextError :=
| WordCountNotPositive
| SecondsNotPositive
| NoQuotesAvailable
| QuoteNotFound (id : string).

(** A random source is the sequence of its draws; [Intn(n)] panics for
    [n <= 0] and otherwise returns a number from [0] to [n - 1]. *)
Definition Rand := nat -> Z.

Definition Intn (n : Z) (rng : Rand) : option (Z * Rand) :=
  if n <=? 0 then None else Some (rng O mod n, fun k => rng (S k)).

(** A call returns, returns an error, or panics. *)
Inductive Outcome (A : Type) :=
| Returned (a : A) (rng : Rand)
| Failed (e : TextError)
| Panicked.
Arguments Returned {A} a rng.
Arguments Failed {A} e.
Arguments Panicked {A}.



Section Generator.

(** Whether the runtime obtains a block of so many bytes for a [make],
    and whether it obtains the memory of a text that [strings.Join]
    builds. *)
Variable obtains : Z -> bool.
Variable obtainsText : list rune -> bool.





End Generator.

(** [QuoteList.GetQuoteByID]: the first quote of the list with the ID. *)
Fixpoint QuoteList_GetQuoteByID (quotes : list Quote) (id : string)
  : Quote + TextError :=
  match quotes with
  | [] => inr (QuoteNotFound id)
  | q :: quotes' =>
      if String.eqb (Quote_ID q) id then inl q
      else QuoteList_GetQuoteByID quotes' id
  end.

Definition ListIDs (quotes : list Quote) : list string := map Quote_ID quotes.

Definition quoteTarget (quote : Quote) : Target :=
  mkTarget (Quote_Text quote) ModeQuote
    (mkTargetMetadata 0 0 (Quote_ID quote) (Quote_Source quote)).

Definition GetRandomQuote (quotes : list Quote) (rng : Rand) : Outcome Target :=
  if (length quotes =? 0)%nat then Failed NoQuotesAvailable
  else
    match Intn (Z.of_nat (length quotes)) rng with
    | None => Panicked
    | Some (idx, rng') =>
        match quotes !! Z.to_nat idx with
        | None => Panicked
        | Some quote => Returned (quoteTarget quote) rng'
        end
    end.

Definition GetQuoteByID (quotes : list Quote) (id : string) : Target + TextError :=
  match QuoteList_GetQuoteByID quotes id with
  | inr err => inr err
  | inl quote => inl (quoteTarget quote)
  end.

(* ------------------------------------------------------------------ *)
(** ** Quotes *)

(** [GetQuoteByID] finds a quote exactly for the IDs that [ListIDs]
    lists.  The target it returns is in Quote mode and carries the text,
    the source and the ID of the first quote of the list with that ID;
    for any other ID the error names the ID. *)
Theorem quote_lookup_first_match (quotes : list Quote) (id : string) :
  match GetQuoteByID quotes id with
  | inl target =>
      exists before quote after,
        quotes = before ++ quote :: after
        /\ ~ In id (ListIDs before)
        /\ Quote_ID quote = id
        /\ target = mkTarget (Quote_Text quote) ModeQuote
                      (mkTargetMetadata 0 0 id (Quote_Source quote))
  | inr err => err = QuoteNotFound id /\ ~ In id (ListIDs quotes)
  end.
Proof.
  unfold GetQuoteByID. induction quotes as [|q quotes IH].
  - simpl. split; [reflexivity | tauto].
  - cbn [QuoteList_GetQuoteByID]. destruct (String.eqb (Quote_ID q) id) eqn:E.
    + apply String.eqb_eq in E. exists [], q, quotes.
      split; [reflexivity|]. split; [simpl; tauto|]. split; [exact E|].
      unfold quoteTarget. rewrite E. reflexivity.
    + apply String.eqb_neq in E.
      destruct (QuoteList_GetQuoteByID quotes id) as [quote|err].
      * destruct IH as (before & quote' & after & -> & Hnot & Hid & Ht).
        exists (q :: before), quote', after.
        split; [reflexivity|]. split; [|split; assumption].
        simpl. intros [H|H]; [exact (E H) | exact (Hnot H)].
      * destruct IH as [-> Hnot]. split; [reflexivity|].
        simpl. intros [H|H]; [exact (E H) | exact (Hnot H)].
Qed.

(* ------------------------------------------------------------------ *)
(** ** Generated texts *)




Section GeneratorFacts.

Variable obtains : Z -> bool.
Variable obtainsText : list rune -> bool.





End GeneratorFacts.


(** [GetRandomQuote] never panics: of an empty list it reports that no
    quote is available, and otherwise it returns the target of a quote of
    the list, whatever the random source draws. *)
Theorem random_quote_is_listed (quotes : list Quote) (rng : Rand) :
  match GetRandomQuote quotes rng with
  | Returned target _ =>
      exists quote, In quote quotes
                    /\ target = mkTarget (Quote_Text quote) ModeQuote
                                  (mkTargetMetadata 0 0 (Quote_ID quote)
                                     (Quote_Source quote))
  | Failed err => quotes = [] /\ err = NoQuotesAvailable
  | Panicked => False
  end.
Proof.
  unfold GetRandomQuote. destruct quotes as [|q quotes]; [split; reflexivity|].
  cbn [length Nat.eqb]. unfold Intn.
  set (n := Z.of_nat (S (length quotes))).
  assert (Hn : 0 < n) by (subst n; lia).
  destruct (n <=? 0) eqn:E; [lia|].
  pose proof (Z.mod_pos_bound (rng O) n Hn) as Hidx.
  destruct (lookup_lt_is_Some_2 (q :: quotes) (Z.to_nat (rng O mod n)))
    as [quote Hq]; [simpl; lia|].
  rewrite Hq. exists quote. split; [|reflexivity].
  apply list_elem_of_In. exact (list_elem_of_lookup_2 _ _ _ Hq).
Qed.

(* ================================================================== *)
(** * The sampling interval of the session *)

(** What sampling reads and writes. *)
Definition pace (s : Session) :=
  (StartedAt (state s), samples (metrics s), lastSampleTime (metrics s),
   sampleInterval (metrics s)).

(** The next [k] readings of the clock lie within the range of a
    [Duration] from [t0]. *)
Definition within (t0 : Time) (k : nat) (c : Clock) : Prop :=
  forall n, (n < k)%nat -> c n - t0 < 2 ^ 63.

Definition pacing (t0 : Time) (k : nat) (w : World) : Prop :=
  monotone (clock w) /\ nonzero (clock w) /\ within t0 k (clock w)
  /\ t0 <= clock w O
  /\ sampleInterval (metrics (sess w)) = 500 * Millisecond
  /\ if IsZero (StartedAt (state (sess w)))
     then samples (metrics (sess w)) = []
     else t0 <= StartedAt (state (sess w))
          /\ StartedAt (state (sess w)) <= lastSampleTime (metrics (sess w))
             <= clock w O
          /\ exists more,
               samples (metrics (sess w)) = mkSample 0 0 0 :: more
               /\ spaced_from 500 0 (map TimeMs more)
               /\ List.last (map TimeMs more) 0
                  <= Milliseconds (lastSampleTime (metrics (sess w))
                                   - StartedAt (state (sess w))).

Lemma ms_step (a b d : Z) :
  0 <= a -> 0 <= d -> a + d * 1000000 <= b ->
  Milliseconds a + d <= Milliseconds b.
Proof.
  intros Ha Hd Hb. unfold Milliseconds, Millisecond.
  rewrite !Z.quot_div_nonneg by lia.
  rewrite <- (Z.div_add a d 1000000) by lia.
  apply Z.div_le_mono; lia.
Qed.

Lemma within_tail t0 k c : within t0 (S k) c -> within t0 k (tail c).
Proof. intros H n Hn. apply H. lia. Qed.

Lemma within_weaken t0 k c : within t0 (S k) c -> within t0 k c.
Proof. intros H n Hn. apply H. lia. Qed.

Lemma pacing_keep t0 k w w' :
  pacing t0 (S k) w -> pace (sess w') = pace (sess w) ->
  clock w' = clock w \/ clock w' = tail (clock w) ->
  pacing t0 k w'.
Proof.
  intros (Hm & Hz & Hw & H0 & Hi & H) Hp Hc.
  unfold pace in Hp. injection Hp as Hst Hsm Hls Hin.
  unfold pacing. rewrite Hst, Hsm, Hls, Hin.
  destruct Hc as [-> | ->].
  - split; [exact Hm|]. split; [exact Hz|]. split; [apply within_weaken, Hw|].
    split; [exact H0|]. split; [exact Hi | exact H].
  - pose proof (Hm O) as H01.
    split; [apply monotone_tail, Hm|]. split; [apply nonzero_tail, Hz|].
    split; [apply within_tail, Hw|]. split; [unfold tail; lia|].
    split; [exact Hi|].
    destruct (IsZero (StartedAt (state (sess w)))); [exact H|].
    destruct H as (Ht0 & Hlast & Hmore).
    split; [exact Ht0|]. split; [unfold tail; lia | exact Hmore].
Qed.

Lemma pacing_weaken t0 k w : pacing t0 (S k) w -> pacing t0 k w.
Proof. intros H. apply (pacing_keep t0 k w w H); auto. Qed.

Lemma pacing_start_w t0 k w : pacing t0 (S k) w -> pacing t0 k (start_w w).
Proof.
  intros H. unfold start_w.
  destruct (IsZero (StartedAt (state (sess w)))) eqn:E; [|apply pacing_weaken, H].
  destruct H as (Hm & Hz & Hw & H0 & Hi & H). rewrite E in H.
  pose proof (Hm O) as H01.
  unfold pacing, started.
  cbn [sess clock state metrics StartedAt samples lastSampleTime sampleInterval
       set_StartedAt set_samples set_lastSampleTime].
  rewrite H, (Hz O).
  split; [apply monotone_tail, Hm|]. split; [apply nonzero_tail, Hz|].
  split; [apply within_tail, Hw|]. split; [unfold tail; lia|].
  split; [exact Hi|]. split; [exact H0|]. split; [unfold tail; lia|].
  exists []. split; [reflexivity|]. split; [exact I|].
  simpl. rewrite Z.sub_diag. reflexivity.
Qed.

Lemma pacing_sample_w t0 k w : pacing t0 (S k) w -> pacing t0 k (sample_w w).
Proof.
  intros H. unfold sample_w.
  destruct (IsZero (StartedAt (state (sess w)))) eqn:E; [apply pacing_weaken, H|].
  destruct (due (clock w O) (sess w)) eqn:D.
  - destruct H as (Hm & Hz & Hw & H0 & Hi & H). rewrite E in H.
    destruct H as (Ht0 & Hlast & more & Hsm & Hsp & Hms).
    pose proof (Hm O) as H01. pose proof (Hw O ltac:(lia)) as Hspan.
    unfold due in D. rewrite Hi in D. apply Z.leb_le in D.
    assert (Hgap : lastSampleTime (metrics (sess w)) + 500 * 1000000 <= clock w O).
    { unfold Sub, minDuration, maxDuration, Millisecond in D. lia. }
    assert (Hel : Sub (clock w O) (StartedAt (state (sess w)))
                  = clock w O - StartedAt (state (sess w))).
    { unfold Sub, minDuration, maxDuration. lia. }
    assert (Hnew : Milliseconds (lastSampleTime (metrics (sess w))
                                 - StartedAt (state (sess w))) + 500
                   <= Milliseconds (clock w O - StartedAt (state (sess w))))
      by (apply ms_step; lia).
    unfold pacing, sampled.
    cbn [sess clock state metrics StartedAt samples lastSampleTime sampleInterval
         on_metrics set_samples set_lastSampleTime].
    rewrite E, Hel, Hsm.
    split; [apply monotone_tail, Hm|]. split; [apply nonzero_tail, Hz|].
    split; [apply within_tail, Hw|]. split; [unfold tail; lia|].
    split; [exact Hi|]. split; [exact Ht0|]. split; [unfold tail; lia|].
    exists (more ++ [calculateSample (sess w)
                       (clock w O - StartedAt (state (sess w)))]).
    split; [reflexivity|]. rewrite map_app. cbn [map calculateSample TimeMs].
    split; [apply spaced_from_snoc; [exact Hsp | lia]|].
    rewrite List.last_last. lia.
  - apply (pacing_keep t0 k w); [exact H | reflexivity | right; reflexivity].
Qed.

Lemma pace_key_step k r s : pace (key_step k r s) = pace s.
Proof.
  pose proof (frame_key_step k r s) as E. unfold frame in E. unfold pace.
  injection E as _ _ -> _ _ _ -> -> -> _ _. reflexivity.
Qed.

Lemma pacing_key_world t0 n k r w :
  pacing t0 (S (S (S n))) w -> pacing t0 n (key_world k r w).
Proof.
  intros H. unfold key_world.
  destruct (IsFinished (sess w)); [do 3 apply pacing_weaken; exact H|].
  apply pacing_sample_w.
  apply pacing_start_w in H.
  assert (H1 : pacing t0 (S (S n)) (key_w k r (start_w w))).
  { destruct H as (Hm & Hz & Hw & H0 & Hi & H).
    unfold pacing. unfold key_w. cbn [sess clock].
    pose proof (pace_key_step k r (sess (start_w w))) as Hp.
    unfold pace in Hp. injection Hp as -> -> -> ->.
    split; [exact Hm|]. split; [exact Hz|]. split; [exact Hw|].
    split; [exact H0|]. split; [exact Hi | exact H]. }
  unfold finish_w. destruct (complete _); [|apply pacing_weaken, H1].
  apply (pacing_keep t0 (S n) (key_w k r (start_w w)));
    [exact H1 | reflexivity | right; reflexivity].
Qed.

Lemma pacing_event_w t0 n e w :
  pacing t0 (S (S (S n))) w -> pacing t0 n (event_w e w).
Proof.
  intros H. destruct e as [k r| | |]; cbn [event_w].
  - apply pacing_key_world, H.
  - do 2 apply pacing_weaken in H. unfold tick_w.
    destruct (_ || _ || _); [apply pacing_weaken, H | apply pacing_sample_w, H].
  - do 2 apply pacing_weaken in H.
    apply (pacing_keep t0 n w); [exact H | | right; reflexivity].
    unfold abort_w, pace; simpl; destruct (timerDone (sess w)); reflexivity.
  - do 2 apply pacing_weaken in H. unfold timer_w.
    destruct (timerDone (sess w)); try (apply pacing_weaken, H).
    apply (pacing_keep t0 n w); [exact H | reflexivity | right; reflexivity].
Qed.

Lemma pacing_play t0 evs : forall w,
  pacing t0 (3 * length evs) w -> pacing t0 O (play evs w).
Proof.
  induction evs as [|e evs IH]; intros w H; [exact H|].
  cbn [play]. apply IH, pacing_event_w.
  replace (S (S (S (3 * length evs)))) with (3 * length (e :: evs))%nat
    by (simpl; lia).
  exact H.
Qed.

(** Under a clock that does not go back, never reads the zero time and
    whose readings stay within the range of a [Duration] from the first
    (three readings at most are taken for each event), the samples that a
    session records are at least 500 ms apart: after the initial sample
    [{0, 0, 0}], each [TimeMs] is at least 500 more than the one before. *)
Theorem session_samples_spaced (opts : SessionOptions) (c : Clock)
  (evs : list Event) (w' : World)
  (Hmono : monotone c) (Hnonzero : nonzero c)
  (Hspan : forall n, (n < 3 * length evs)%nat -> c n - c O < 2 ^ 63)
  (Hrun : run evs (fresh opts c) = Done (tt, w')) :
  match samples (metrics (sess w')) with
  | [] => IsZero (StartedAt (state (sess w'))) = true
  | first :: more =>
      first = mkSample 0 0 0 /\ spaced_from 500 0 (map TimeMs more)
  end.
Proof.
  pose proof (run_Done_play evs (fresh opts c) w' (inv_new opts) Hrun) as ->.
  assert (H0 : pacing (c O) (3 * length evs) (fresh opts c)).
  { split; [exact Hmono|]. split; [exact Hnonzero|]. split; [exact Hspan|].
    split; [apply Z.le_refl|]. split; reflexivity. }
  destruct (pacing_play (c O) evs _ H0) as (_ & _ & _ & _ & _ & H).
  destruct (IsZero (StartedAt (state (sess (play evs (fresh opts c)))))).
  - rewrite H. reflexivity.
  - destruct H as (_ & _ & more & -> & Hsp & _). split; [reflexivity | exact Hsp].
Qed.

Definition events_paced : list Event := [EvRune 99; EvTick; EvTick; EvRune 97].

Lemma session_samples_spaced_witness :
  monotone (steady 300000000) /\ nonzero (steady 300000000)
  /\ match samples (metrics (sess
              (play events_paced (fresh (words [99; 97; 116]) (steady 300000000)))))
     with
     | [] => IsZero (StartedAt (state (sess
               (play events_paced
                  (fresh (words [99; 97; 116]) (steady 300000000))))))
             = true
     | first :: more =>
         first = mkSample 0 0 0 /\ spaced_from 500 0 (map TimeMs more)
     end.
Proof.
  assert (Hm : monotone (steady 300000000)) by (apply steady_monotone; lia).
  assert (Hz : nonzero (steady 300000000)) by (apply steady_nonzero; lia).
  split; [exact Hm|]. split; [exact Hz|].
  assert (Hspan : forall n, (n < 3 * length events_paced)%nat ->
                    steady 300000000 n - steady 300000000 O < 2 ^ 63).
  { intros n Hn. simpl in Hn. unfold steady. lia. }
  exact (session_samples_spaced (words [99; 97; 116]) (steady 300000000)
           events_paced
           (play events_paced (fresh (words [99; 97; 116]) (steady 300000000)))
           Hm Hz Hspan
           (run_play events_paced
              (fresh (words [99; 97; 116]) (steady 300000000))
              (inv_new _) eq_refl)).
Defined.

(* ================================================================== *)
(** * What a session never takes back *)

Definition persists (w w' : World) : Prop :=
  (Finished (state (sess w)) = true -> Finished (state (sess w')) = true)
  /\ (Aborted (state (sess w)) = true -> Aborted (state (sess w')) = true)
  /\ (IsZero (StartedAt (state (sess w))) = false ->
      StartedAt (state (sess w')) = StartedAt (state (sess w)))
  /\ (IsFinished (sess w) = true ->
      typing (sess w') = typing (sess w)
      /\ samples (metrics (sess w')) = samples (metrics (sess w))).

Lemma persists_refl w : persists w w.
Proof. repeat split; auto. Qed.

Lemma persists_trans w1 w2 w3 : persists w1 w2 -> persists w2 w3 -> persists w1 w3.
Proof.
  intros (F1 & A1 & S1 & T1) (F2 & A2 & S2 & T2).
  split; [auto|]. split; [auto|]. split.
  - intros H. rewrite <- (S1 H). apply S2. rewrite (S1 H). exact H.
  - intros H. destruct (T1 H) as [Ht Hs].
    assert (H2 : IsFinished (sess w2) = true).
    { unfold IsFinished in *. apply orb_true_iff in H as [H|H].
      - rewrite (F1 H). reflexivity.
      - rewrite (A1 H). apply orb_true_r. }
    destruct (T2 H2) as [Ht' Hs']. split; congruence.
Qed.

Lemma persists_event_w e w : persists w (event_w e w).
Proof.
  destruct e as [k r| | |]; cbn [event_w].
  - unfold key_world. destruct (IsFinished (sess w)) eqn:Hlive;
      [apply persists_refl|].
    unfold IsFinished in Hlive. apply orb_false_elim in Hlive as [Hf Ha].
    split; [congruence|]. split; [congruence|].
    split; [|unfold IsFinished; rewrite Hf, Ha; discriminate].
    intros Hst.
    pose proof (header_sample_w (finish_w (key_w k r (start_w w)))) as E1.
    pose proof (header_finish_w (key_w k r (start_w w))) as E2.
    pose proof (header_key_step k r (sess (start_w w))) as E3.
    unfold header in E1, E2, E3. unfold key_w in *. cbn [sess] in *.
    injection E1 as _ _ -> _ _ _. injection E2 as _ _ -> _ _ _.
    injection E3 as _ _ -> _ _ _.
    unfold start_w. rewrite Hst. reflexivity.
  - unfold tick_w.
    destruct (IsZero (StartedAt (state (sess w))) || Finished (state (sess w))
              || Aborted (state (sess w))) eqn:G; [apply persists_refl|].
    apply orb_false_elim in G as [G Ha]. apply orb_false_elim in G as [_ Hf].
    pose proof (header_sample_w w) as E. unfold header in E.
    injection E as _ _ Est Eab _ _.
    split; [congruence|]. split; [congruence|]. split; [intros _; exact Est|].
    unfold IsFinished. rewrite Hf, Ha. discriminate.
  - split; [intros H; rewrite Finished_abort_w; exact H|].
    split; [intros _; unfold abort_w; simpl; destruct (timerDone (sess w)); reflexivity|].
    split; [intros _; unfold abort_w; simpl; destruct (timerDone (sess w)); reflexivity|].
    intros _. split; [apply typing_abort_w|].
    unfold abort_w; simpl; destruct (timerDone (sess w)); reflexivity.
  - unfold timer_w. destruct (timerDone (sess w)); try apply persists_refl.
    split; [reflexivity|]. split; [auto|]. split; [reflexivity|].
    intros _. split; reflexivity.
Qed.
